(** * VR_Server: the session synchronisation engine

    A shallow embedding of [src/Minimal/NetworkData.h] and
    [src/Minimal/ServerGame.{h,cpp}]: the wire record [Packet] with its
    raw-memory codec, the peer state held by [ServerGame], the receive walk
    over [network_data] and the broadcast [sendActionPackets].

    Platform assumptions, fixed by the program itself (it includes
    [Windows.h] and uses Winsock's [SOCKET]): 32-bit little-endian [int],
    [unsigned int] and [float], a one-byte [bool], and a [glm::mat4] of
    sixteen consecutive floats with four-byte alignment.  A [float] is kept
    as its 32-bit pattern, which is all that [memcpy] looks at. *)

From Stdlib Require Import String ZArith List Bool Lia FinFun.
Import ListNotations.
Local Open Scope Z_scope.

(** ** Fixed-width values *)

Module Machine.

(** A byte of memory, as a value in [0, 256). *)
Definition byte := Z.

Definition is_byte (b : Z) : Prop := 0 <= b < 256.

Definition UINT_MOD : Z := 4294967296.
Definition INT_MAX : Z := 2147483647.
Definition INT_MIN : Z := -2147483648.

(** Conversion to [unsigned int]: reduction modulo 2^32. *)
Definition to_uint (v : Z) : Z := v mod UINT_MOD.

(** Conversion to [int]: the two's complement value of the low 32 bits. *)
Definition to_int (v : Z) : Z :=
  let u := v mod UINT_MOD in
  if u <=? INT_MAX then u else u - UINT_MOD.

Definition is_uint (v : Z) : Prop := 0 <= v < UINT_MOD.
Definition is_int (v : Z) : Prop := INT_MIN <= v <= INT_MAX.

(** The four bytes of a 32-bit object, least significant first. *)
Definition le32 (v : Z) : list byte :=
  [ v mod 256; (v / 256) mod 256; (v / 65536) mod 256; (v / 16777216) mod 256 ].

(** The value of a little-endian byte string. *)
Fixpoint le_value (bs : list byte) : Z :=
  match bs with
  | [] => 0
  | b :: rest => b + 256 * le_value rest
  end.

(** [load off len mem]: the [len] bytes of [mem] that start at offset [off]. *)
Definition load (off len : nat) (mem : list byte) : list byte :=
  firstn len (skipn off mem).

Definition load_uint (off : nat) (mem : list byte) : Z :=
  le_value (load off 4 mem).

Definition load_int (off : nat) (mem : list byte) : Z :=
  to_int (le_value (load off 4 mem)).

(** A [bool] object holds 1 or 0; any non-zero byte reads as [true]. *)
Definition bool_byte (b : bool) : byte := if b then 1 else 0.
Definition load_bool (off : nat) (mem : list byte) : bool :=
  negb (le_value (load off 1 mem) =? 0).

End Machine.
Import Machine.

(** ** NetworkData.h *)

Definition MAX_PACKET_SIZE : Z := 1000000.

(** [enum PacketTypes]. *)
Definition INIT_CONNECTION : Z := 0.
Definition ACTION_EVENT : Z := 1.

(** [glm::vec4] and [glm::mat4]: four columns of four floats, each float
    kept as its bit pattern. *)
Record vec4 := mkvec4 { vx : Z; vy : Z; vz : Z; vw : Z }.
Record mat4 := mkmat4 { col0 : vec4; col1 : vec4; col2 : vec4; col3 : vec4 }.

(** The bit pattern of [1.0f] and the matrix [glm::mat4(1.0f)]. *)
Definition one_f : Z := 1065353216.
Definition mat4_identity : mat4 :=
  mkmat4 (mkvec4 one_f 0 0 0) (mkvec4 0 one_f 0 0)
         (mkvec4 0 0 one_f 0) (mkvec4 0 0 0 one_f).

(** [struct Packet]. *)
Record Packet := mkPacket {
  packet_type : Z;          (* unsigned int *)
  attack : Z * Z;           (* std::pair<int, int> *)
  damage : Z * Z;           (* std::pair<int, int> *)
  done : bool;
  headPose : mat4
}.

(** Object layout of [Packet]: offsets of the members and [sizeof]. *)
Definition off_packet_type : nat := 0.
Definition off_attack : nat := 4.
Definition off_damage : nat := 12.
Definition off_done : nat := 20.
Definition off_headPose : nat := 24.
Definition sizeof_Packet : Z := 88.

Definition vec4_bytes (v : vec4) : list byte :=
  le32 (vx v) ++ le32 (vy v) ++ le32 (vz v) ++ le32 (vw v).

Definition mat4_bytes (m : mat4) : list byte :=
  vec4_bytes (col0 m) ++ vec4_bytes (col1 m) ++
  vec4_bytes (col2 m) ++ vec4_bytes (col3 m).

(** The object representation of a packet.  The three padding bytes after
    [done] are indeterminate in C++; they are written as zero here and
    never read back. *)
Definition object_bytes (p : Packet) : list byte :=
  le32 (packet_type p) ++
  le32 (fst (attack p)) ++ le32 (snd (attack p)) ++
  le32 (fst (damage p)) ++ le32 (snd (damage p)) ++
  [bool_byte (done p); 0; 0; 0] ++
  mat4_bytes (headPose p).

(** [Packet::serialize]: [memcpy(data, this, sizeof(Packet))]; the result
    is the content written to [data]. *)
Definition serialize (p : Packet) : list byte := object_bytes p.

Definition load_vec4 (off : nat) (mem : list byte) : vec4 :=
  mkvec4 (load_uint off mem) (load_uint (off + 4) mem)
         (load_uint (off + 8) mem) (load_uint (off + 12) mem).

Definition load_mat4 (off : nat) (mem : list byte) : mat4 :=
  mkmat4 (load_vec4 off mem) (load_vec4 (off + 16) mem)
         (load_vec4 (off + 32) mem) (load_vec4 (off + 48) mem).

(** The packet held by [sizeof(Packet)] bytes of object representation. *)
Definition of_object_bytes (raw : list byte) : Packet :=
  {| packet_type := load_uint off_packet_type raw;
     attack := (load_int off_attack raw, load_int (off_attack + 4) raw);
     damage := (load_int off_damage raw, load_int (off_damage + 4) raw);
     done := load_bool off_done raw;
     headPose := load_mat4 off_headPose raw |}.

(** [Packet::deserialize]: [memcpy(this, data, sizeof(Packet))].  The
    pointer [data] is modelled by the memory of its array from the pointed
    byte on.  The copy always reads [sizeof(Packet)] bytes; when the array
    ends before that, the read runs past its end, which is undefined
    behaviour and not an error the program reports: [None]. *)
Definition deserialize (data : list byte) : option Packet :=
  let raw := firstn (Z.to_nat sizeof_Packet) data in
  if (Z.of_nat (length raw) =? sizeof_Packet)
  then Some (of_object_bytes raw)
  else None.

(** Values that the members of a [Packet] object can hold. *)
Definition vec4_ok (v : vec4) : Prop :=
  is_uint (vx v) /\ is_uint (vy v) /\ is_uint (vz v) /\ is_uint (vw v).

Definition mat4_ok (m : mat4) : Prop :=
  vec4_ok (col0 m) /\ vec4_ok (col1 m) /\ vec4_ok (col2 m) /\ vec4_ok (col3 m).

Definition Packet_ok (p : Packet) : Prop :=
  is_uint (packet_type p) /\
  is_int (fst (attack p)) /\ is_int (snd (attack p)) /\
  is_int (fst (damage p)) /\ is_int (snd (damage p)) /\
  mat4_ok (headPose p).

(** ** ServerNetwork

    [ServerNetwork.h] and [ServerNetwork.cpp] are not part of the sources at
    hand; [ServerGame] uses the member [sessions], a
    [std::map<unsigned int, SOCKET>], and the calls [acceptNewClient],
    [receiveData] and [sendToAll]. *)

Definition SOCKET := Z.

(** What the program writes or sends, in order.  [Deserialized p] marks a
    call of [packet.deserialize] in the receive loop and the packet it
    left in [packet]; it is bookkeeping for the order of decoding and
    sending and has no counterpart on the wire. *)
Inductive event :=
| Printf (msg : string) (args : list Z)
| Deserialized (p : Packet)
| SendToAll (bytes : list byte) (recipients : list Z).

(** The table [sessions]; a [std::map] is walked in ascending key order, so
    the entries are kept ascending by identifier. *)
Record ServerNetwork := mkServerNetwork {
  sessions : list (Z * SOCKET)
}.

(** [class ServerGame], with the output of the process so far in [trace]. *)
Record ServerGame := mkServerGame {
  my_attack : Z * Z;
  other_attack : Z * Z;
  my_damage : Z * Z;
  other_damage : Z * Z;
  my_headPose : mat4;
  other_headPose : mat4;
  game_mode : bool;
  my_done : bool;
  other_done : bool;
  client_id : Z;                 (* static unsigned int *)
  network : ServerNetwork;
  network_data : list byte;      (* char network_data[MAX_PACKET_SIZE] *)
  trace : list event
}.

Definition set_my_attack (v : Z * Z) (s : ServerGame) : ServerGame :=
  {| my_attack := v; other_attack := other_attack s;
     my_damage := my_damage s; other_damage := other_damage s;
     my_headPose := my_headPose s; other_headPose := other_headPose s;
     game_mode := game_mode s; my_done := my_done s;
     other_done := other_done s; client_id := client_id s;
     network := network s; network_data := network_data s;
     trace := trace s |}.

Definition set_other_attack (v : Z * Z) (s : ServerGame) : ServerGame :=
  {| my_attack := my_attack s; other_attack := v; my_damage := my_damage s;
     other_damage := other_damage s; my_headPose := my_headPose s;
     other_headPose := other_headPose s; game_mode := game_mode s;
     my_done := my_done s; other_done := other_done s;
     client_id := client_id s; network := network s;
     network_data := network_data s; trace := trace s |}.

Definition set_my_damage (v : Z * Z) (s : ServerGame) : ServerGame :=
  {| my_attack := my_attack s; other_attack := other_attack s;
     my_damage := v; other_damage := other_damage s;
     my_headPose := my_headPose s; other_headPose := other_headPose s;
     game_mode := game_mode s; my_done := my_done s;
     other_done := other_done s; client_id := client_id s;
     network := network s; network_data := network_data s;
     trace := trace s |}.

Definition set_other_damage (v : Z * Z) (s : ServerGame) : ServerGame :=
  {| my_attack := my_attack s; other_attack := other_attack s;
     my_damage := my_damage s; other_damage := v;
     my_headPose := my_headPose s; other_headPose := other_headPose s;
     game_mode := game_mode s; my_done := my_done s;
     other_done := other_done s; client_id := client_id s;
     network := network s; network_data := network_data s;
     trace := trace s |}.

Definition set_other_headPose (v : mat4) (s : ServerGame) : ServerGame :=
  {| my_attack := my_attack s; other_attack := other_attack s;
     my_damage := my_damage s; other_damage := other_damage s;
     my_headPose := my_headPose s; other_headPose := v;
     game_mode := game_mode s; my_done := my_done s;
     other_done := other_done s; client_id := client_id s;
     network := network s; network_data := network_data s;
     trace := trace s |}.

Definition set_game_mode (v : bool) (s : ServerGame) : ServerGame :=
  {| my_attack := my_attack s; other_attack := other_attack s;
     my_damage := my_damage s; other_damage := other_damage s;
     my_headPose := my_headPose s; other_headPose := other_headPose s;
     game_mode := v; my_done := my_done s; other_done := other_done s;
     client_id := client_id s; network := network s;
     network_data := network_data s; trace := trace s |}.

Definition set_other_done (v : bool) (s : ServerGame) : ServerGame :=
  {| my_attack := my_attack s; other_attack := other_attack s;
     my_damage := my_damage s; other_damage := other_damage s;
     my_headPose := my_headPose s; other_headPose := other_headPose s;
     game_mode := game_mode s; my_done := my_done s; other_done := v;
     client_id := client_id s; network := network s;
     network_data := network_data s; trace := trace s |}.

Definition set_client_id (v : Z) (s : ServerGame) : ServerGame :=
  {| my_attack := my_attack s; other_attack := other_attack s;
     my_damage := my_damage s; other_damage := other_damage s;
     my_headPose := my_headPose s; other_headPose := other_headPose s;
     game_mode := game_mode s; my_done := my_done s;
     other_done := other_done s; client_id := v; network := network s;
     network_data := network_data s; trace := trace s |}.

Definition set_network (v : ServerNetwork) (s : ServerGame) : ServerGame :=
  {| my_attack := my_attack s; other_attack := other_attack s;
     my_damage := my_damage s; other_damage := other_damage s;
     my_headPose := my_headPose s; other_headPose := other_headPose s;
     game_mode := game_mode s; my_done := my_done s;
     other_done := other_done s; client_id := client_id s; network := v;
     network_data := network_data s; trace := trace s |}.

Definition set_network_data (v : list byte) (s : ServerGame) : ServerGame :=
  {| my_attack := my_attack s; other_attack := other_attack s;
     my_damage := my_damage s; other_damage := other_damage s;
     my_headPose := my_headPose s; other_headPose := other_headPose s;
     game_mode := game_mode s; my_done := my_done s;
     other_done := other_done s; client_id := client_id s;
     network := network s; network_data := v; trace := trace s |}.

Definition set_trace (v : list event) (s : ServerGame) : ServerGame :=
  {| my_attack := my_attack s; other_attack := other_attack s;
     my_damage := my_damage s; other_damage := other_damage s;
     my_headPose := my_headPose s; other_headPose := other_headPose s;
     game_mode := game_mode s; my_done := my_done s;
     other_done := other_done s; client_id := client_id s;
     network := network s; network_data := network_data s; trace := v |}.

Definition emit (e : event) (s : ServerGame) : ServerGame :=
  set_trace (trace s ++ [e]) s.

(** Insertion into the ordered table; an identifier already present keeps
    its entry, as [std::map::insert] does. *)
Fixpoint sessions_insert (id : Z) (sock : SOCKET) (m : list (Z * SOCKET))
  : list (Z * SOCKET) :=
  match m with
  | [] => [(id, sock)]
  | (k, v) :: rest =>
      if id <? k then (id, sock) :: m
      else if id =? k then m
      else (k, v) :: sessions_insert id sock rest
  end.

(** Modelled from the spec: [ServerNetwork::acceptNewClient] is missing from
    the sources.  Spec 4.1, acceptPending: a non-blocking check for a new
    inbound connection; on success the transport handle is registered under
    the identifier passed in, and nothing happens when no connection is
    pending.  [pending] is the connection waiting at the time of the call. *)
Definition acceptNewClient (pending : option SOCKET) (id : Z) (s : ServerGame)
  : bool * ServerGame :=
  match pending with
  | Some sock =>
      (true, set_network
               (mkServerNetwork (sessions_insert id sock (sessions (network s)))) s)
  | None => (false, s)
  end.

(** Modelled from the spec: [ServerNetwork::receiveData] is missing from the
    sources.  Spec 4.1, receive: a non-blocking read of all currently
    available bytes of a session, an empty sequence when nothing is
    available; data beyond the maximum packet buffer size is left undefined
    by the spec, hence [None].  The bytes are stored at the start of
    [recvbuf], whose remaining bytes keep their previous content, and their
    number is returned. *)
Definition receiveData (available : list byte) (recvbuf : list byte)
  : option (Z * list byte) :=
  let n := Z.of_nat (length available) in
  if n <=? MAX_PACKET_SIZE
  then Some (n, available ++ skipn (length available) recvbuf)
  else None.

(** Modelled from the spec: [ServerNetwork::sendToAll] is missing from the
    sources.  Spec 4.1, sendToAll: writes an identical byte sequence to
    every session registered in the table at the moment of the call. *)
Definition sendToAll (packets : list byte) (totalSize : Z) (s : ServerGame)
  : ServerGame :=
  emit (SendToAll (firstn (Z.to_nat totalSize) packets)
                  (map fst (sessions (network s)))) s.

(** ** ServerGame.cpp *)

(** The constructor and the in-class member initialisers of
    [ServerGame.h].  [network_data] is not initialised: its content
    [uninit] is whatever the memory holds. *)
Definition ServerGame_ctor (uninit : list byte) : ServerGame :=
  {| my_attack := (-1, -1);
     other_attack := (-1, -1);
     my_damage := (-1, -1);
     other_damage := (-1, -1);
     my_headPose := mat4_identity;
     other_headPose := mat4_identity;
     game_mode := true;
     my_done := false;
     other_done := false;
     client_id := 0;
     network := mkServerNetwork [];
     network_data := uninit;
     trace := [] |}.

(** [ServerGame::sendActionPackets]. *)
Definition sendActionPackets (s : ServerGame) : ServerGame :=
  let packet_size := sizeof_Packet in
  let packet :=
    {| packet_type := ACTION_EVENT;
       attack := my_attack s;
       damage := my_damage s;
       done := my_done s;
       headPose := my_headPose s |} in
  let s := set_my_attack (-1, snd (my_attack s)) s in
  let s := set_my_attack (fst (my_attack s), -1) s in
  let s := set_my_damage (-1, snd (my_damage s)) s in
  let s := set_my_damage (fst (my_damage s), -1) s in
  let packet_data := serialize packet in
  sendToAll packet_data packet_size s.

(** The [switch (packet.packet_type)] of the receive loop. *)
Definition handle_packet (packet : Packet) (s : ServerGame) : ServerGame :=
  if packet_type packet =? INIT_CONNECTION then
    let s := emit (Printf "server received init packet from client\n" []) s in
    sendActionPackets s
  else if packet_type packet =? ACTION_EVENT then
    let s := if negb (fst (attack packet) =? -1)
             then set_game_mode true (set_other_attack (attack packet) s)
             else s in
    let s := if negb (fst (damage packet) =? -1)
             then set_other_damage (damage packet) s
             else s in
    let s := set_other_done (done packet) s in
    let s := set_other_headPose (headPose packet) s in
    sendActionPackets s
  else
    emit (Printf "error in packet types\n" []) s.

(** How a call can end without a state: a read outside [network_data]
    (undefined behaviour in C++), a receive the spec leaves undefined, or a
    loop that did not finish within the steps allowed to the model. *)
Inductive fault := OutOfBounds | Oversized | OutOfFuel.

Inductive result :=
| Done (s : ServerGame)
| Fault (f : fault).

(** The address [&(network_data[i])]: the array from index [i] on. *)
Definition address_of (mem : list byte) (i : Z) : option (list byte) :=
  if (0 <=? i) && (i <=? Z.of_nat (length mem))
  then Some (skipn (Z.to_nat i) mem)
  else None.

(** The loop [while (i < (unsigned int)data_length)]: [i] is an [int]
    converted to [unsigned int] for the comparison, and
    [i += sizeof(Packet)] is stored back into the [int]. *)
Fixpoint record_loop (fuel : nat) (data_length i : Z) (s : ServerGame)
  : result :=
  if to_uint i <? to_uint data_length then
    match fuel with
    | O => Fault OutOfFuel
    | S fuel' =>
        match address_of (network_data s) i with
        | None => Fault OutOfBounds
        | Some data =>
            match deserialize data with
            | None => Fault OutOfBounds
            | Some packet =>
                let s := emit (Deserialized packet) s in
                let i := to_int (i + sizeof_Packet) in
                record_loop fuel' data_length i (handle_packet packet s)
            end
        end
    end
  else Done s.

(** The loop over [network->sessions]; [rx id] is what session [id] has
    available when it is polled. *)
Fixpoint sessions_loop (rx : Z -> list byte) (iter : list (Z * SOCKET))
  (s : ServerGame) : result :=
  match iter with
  | [] => Done s
  | (id, _) :: iter' =>
      match receiveData (rx id) (network_data s) with
      | None => Fault Oversized
      | Some (data_length, buf) =>
          let s := set_network_data buf s in
          if data_length <=? 0 then sessions_loop rx iter' s
          else
            match record_loop (Z.to_nat data_length) data_length 0 s with
            | Done s => sessions_loop rx iter' s
            | Fault f => Fault f
            end
      end
  end.

(** [ServerGame::receiveFromClients]. *)
Definition receiveFromClients (rx : Z -> list byte) (s : ServerGame) : result :=
  sessions_loop rx (sessions (network s)) s.

(** What the outside world offers during one call of [update]. *)
Record tick_input := mkTick {
  pending : option SOCKET;
  rx : Z -> list byte
}.

(** The first statement of [ServerGame::update], under the comment
    "get new clients". *)
Definition get_new_clients (pending : option SOCKET) (s : ServerGame)
  : ServerGame :=
  match acceptNewClient pending (client_id s) s with
  | (true, s) =>
      let s := emit (Printf "client %d has been connected to the server\n"
                            [client_id s]) s in
      set_client_id (to_uint (client_id s + 1)) s
  | (false, s) => s
  end.

(** [ServerGame::update]. *)
Definition update (inp : tick_input) (s : ServerGame) : result :=
  receiveFromClients (rx inp) (get_new_clients (pending inp) s).

(** Successive calls of [update], one per frame. *)
Fixpoint run (inputs : list tick_input) (s : ServerGame) : result :=
  match inputs with
  | [] => Done s
  | inp :: rest =>
      match update inp s with
      | Done s => run rest s
      | Fault f => Fault f
      end
  end.

(** ** Reading the trace and the state *)

(** The packet a broadcast is built from: the outgoing members. *)
Definition outgoing (s : ServerGame) : Packet :=
  {| packet_type := ACTION_EVENT;
     attack := my_attack s;
     damage := my_damage s;
     done := my_done s;
     headPose := my_headPose s |}.

(** The identifiers registered in the session table. *)
Definition session_ids (s : ServerGame) : list Z :=
  map fst (sessions (network s)).

(** The broadcasts of a trace, oldest first: bytes and recipients. *)
Fixpoint broadcasts (tr : list event) : list (list byte * list Z) :=
  match tr with
  | [] => []
  | SendToAll bytes ids :: rest => (bytes, ids) :: broadcasts rest
  | _ :: rest => broadcasts rest
  end.

(** The packets decoded by the receive loop, oldest first. *)
Fixpoint decoded (tr : list event) : list Packet :=
  match tr with
  | [] => []
  | Deserialized p :: rest => p :: decoded rest
  | _ :: rest => decoded rest
  end.

(** The identifiers announced by [update] on accepting a client. *)
Definition connected_msg : string :=
  "client %d has been connected to the server\n".

Fixpoint assigned_ids (tr : list event) : list Z :=
  match tr with
  | [] => []
  | Printf msg [id] :: rest =>
      if String.eqb msg connected_msg then id :: assigned_ids rest
      else assigned_ids rest
  | _ :: rest => assigned_ids rest
  end.

(** What each session is sent by one event. *)
Definition deliveries (e : event) : list (Z * list byte) :=
  match e with
  | SendToAll bytes ids => map (fun id => (id, bytes)) ids
  | _ => []
  end.

(** Events by kind, forgetting their payload. *)
Inductive kind := KPrintf | KDeserialized | KSendToAll.

Definition kind_of (e : event) : kind :=
  match e with
  | Printf _ _ => KPrintf
  | Deserialized _ => KDeserialized
  | SendToAll _ _ => KSendToAll
  end.

(** The kinds of event one iteration of the receive loop leaves for a
    decoded packet. *)
Definition iteration_kinds (p : Packet) : list kind :=
  if packet_type p =? INIT_CONNECTION then [KDeserialized; KPrintf; KSendToAll]
  else if packet_type p =? ACTION_EVENT then [KDeserialized; KSendToAll]
  else [KDeserialized; KPrintf].

(** No packet is decoded after a broadcast has been sent. *)
Fixpoint no_decode_after_send (sent : bool) (tr : list event) : bool :=
  match tr with
  | [] => true
  | Deserialized _ :: rest => negb sent && no_decode_after_send sent rest
  | SendToAll _ _ :: rest => no_decode_after_send true rest
  | Printf _ _ :: rest => no_decode_after_send sent rest
  end.

(** One iteration of the receive loop on an already decoded packet, and
    the iterations for a list of packets in order. *)
Definition process_record (s : ServerGame) (p : Packet) : ServerGame :=
  handle_packet p (emit (Deserialized p) s).

Definition process_records (ps : list Packet) (s : ServerGame) : ServerGame :=
  fold_left process_record ps s.

(** The [n] objects that lie one after the other from the start of [mem]. *)
Fixpoint records_from (n : nat) (mem : list byte) : list Packet :=
  match n with
  | O => []
  | S n' =>
      of_object_bytes (firstn (Z.to_nat sizeof_Packet) mem)
      :: records_from n' (skipn (Z.to_nat sizeof_Packet) mem)
  end.

(** The number of iterations of the receive loop for [data_length] bytes:
    one for every started stretch of [sizeof(Packet)] bytes. *)
Definition records_started (data_length : Z) : nat :=
  Z.to_nat ((data_length + sizeof_Packet - 1) / sizeof_Packet).

(** The number of whole records in [data_length] bytes. *)
Definition records_whole (data_length : Z) : nat :=
  Z.to_nat (data_length / sizeof_Packet).

(** The largest receive whose last started stretch still lies inside
    [network_data]. *)
Definition MAX_WALKABLE : Z := sizeof_Packet * (MAX_PACKET_SIZE / sizeof_Packet).

(** One round of the loop over the sessions, for a session that has
    [available] to deliver: the bytes overwrite the start of
    [network_data], then the started records are handled in order. *)
Definition poll_session (available : list byte) (s : ServerGame) : ServerGame :=
  let s := set_network_data
             (available ++ skipn (length available) (network_data s)) s in
  process_records
    (records_from (records_started (Z.of_nat (length available)))
                  (network_data s)) s.

Definition poll_sessions (rx : Z -> list byte) (iter : list (Z * SOCKET))
  (s : ServerGame) : ServerGame :=
  fold_left (fun s entry => poll_session (rx (fst entry)) s) iter s.

(** What receiving never touches: the identifier counter, the session
    table, the outgoing pose and flag, the announcements of accepted
    clients; and [game_mode] is never cleared. *)
Record receive_preserves (s s' : ServerGame) : Prop := {
  rp_client_id : client_id s' = client_id s;
  rp_network : network s' = network s;
  rp_my_headPose : my_headPose s' = my_headPose s;
  rp_my_done : my_done s' = my_done s;
  rp_assigned : assigned_ids (trace s') = assigned_ids (trace s);
  rp_game_mode : game_mode s = true -> game_mode s' = true
}.

(** The size of the array [network_data] is fixed. *)
Definition buffer_ok (s : ServerGame) : Prop :=
  Z.of_nat (length (network_data s)) = MAX_PACKET_SIZE.

(** The sentinel pair and the cells of the 10 x 10 board. *)
Definition sentinel : Z * Z := (-1, -1).

Definition grid_cell (c : Z * Z) : Prop :=
  0 <= fst c <= 9 /\ 0 <= snd c <= 9.

(** The connections accepted over a sequence of frames, in order. *)
Definition accepted_sockets (inputs : list tick_input) : list SOCKET :=
  flat_map (fun inp => match pending inp with
                       | Some sock => [sock]
                       | None => []
                       end) inputs.

(** Frames whose receives can all be walked inside [network_data]. *)
Definition walkable (inputs : list tick_input) : Prop :=
  forall inp, In inp inputs ->
  forall id, Z.of_nat (length (rx inp id)) <= MAX_WALKABLE.

(** The state reached after [n] accepted connections. *)
Record numbered (n : nat) (socks : list SOCKET) (s : ServerGame) : Prop := {
  nb_client_id : client_id s = to_uint (Z.of_nat n);
  nb_assigned :
    assigned_ids (trace s) = map (fun j => to_uint (Z.of_nat j)) (seq 0 n);
  nb_length : length socks = n;
  nb_sessions :
    Z.of_nat n <= UINT_MOD ->
    sessions (network s) = combine (map Z.of_nat (seq 0 n)) socks
}.

(** An observation of the state a call ends in, if it ends in one. *)
Definition observe {A : Type} (f : ServerGame -> A) (r : result) : option A :=
  match r with
  | Done s => Some (f s)
  | Fault _ => None
  end.

(** ** Concrete inputs *)

Definition zero_mem : list byte := repeat 0 (Z.to_nat MAX_PACKET_SIZE).

Definition fresh_server : ServerGame := ServerGame_ctor zero_mem.

(** The server after it has accepted its first client, session 0, and
    after it has accepted a second one, session 1. *)
Definition one_session : ServerGame := get_new_clients (Some 100) fresh_server.

Definition two_sessions : ServerGame := get_new_clients (Some 101) one_session.

(** The server with session 0 after the game logic has cleared [game_mode]
    on its own shot ([main.cpp], [server->game_mode = false]). *)
Definition one_session_waiting : ServerGame := set_game_mode false one_session.

(** A frame in which a connection is pending and no session has data. *)
Definition accept_tick : tick_input := mkTick (Some 100) (fun _ => []).

Definition action_3_4 : Packet := mkPacket ACTION_EVENT (3, 4) (-1, -1) true mat4_identity.
Definition action_5_6 : Packet := mkPacket ACTION_EVENT (5, 6) (-1, -1) false mat4_identity.
Definition init_packet : Packet := mkPacket INIT_CONNECTION (-1, -1) (-1, -1) false mat4_identity.

(** An ACTION_EVENT record whose attack is (-1, 5), and a fresh server
    whose game logic has cleared [game_mode] on its own shot. *)
Definition action_m1_5 : Packet :=
  mkPacket ACTION_EVENT (-1, 5) (-1, -1) false mat4_identity.

Definition waiting_server : ServerGame := set_game_mode false fresh_server.

(** An attack outside the board whose first coordinate is not -1. *)
Definition action_3_m7 : Packet :=
  mkPacket ACTION_EVENT (3, -7) (-1, 2) false mat4_identity.

(** Frames for session 0: two whole records; one whole record followed by
    a single byte; a single byte. *)
Definition two_records_tick : tick_input :=
  mkTick None (fun _ => serialize action_3_4 ++ serialize action_5_6).

Definition fragment_tick : tick_input :=
  mkTick None (fun _ => serialize action_3_4 ++ [1]).

Definition one_byte_tick : tick_input := mkTick None (fun _ => [1]).

(** A frame that brings session 0 three whole records at once. *)
Definition three_records_tick : tick_input :=
  mkTick None (fun _ => serialize action_3_4 ++ serialize action_5_6 ++
                        serialize action_3_4).

(** The all-zero matrix. *)
Definition mat4_zero : mat4 :=
  mkmat4 (mkvec4 0 0 0 0) (mkvec4 0 0 0 0) (mkvec4 0 0 0 0) (mkvec4 0 0 0 0).

Arguments serialize : simpl never.

(** Closed statements about concrete frames are settled by running the
    model. *)
Ltac by_running := vm_compute; reflexivity.

(** ** More of the receive path *)

(** The packet a broadcast carries once the one-shot members have been
    consumed: attack and damage are the pair (-1,-1). *)
Definition consumed (s : ServerGame) : Packet :=
  {| packet_type := ACTION_EVENT;
     attack := (-1, -1);
     damage := (-1, -1);
     done := my_done s;
     headPose := my_headPose s |}.

(** The packet types the switch of the receive loop answers. *)
Definition answered (p : Packet) : bool :=
  (packet_type p =? INIT_CONNECTION) || (packet_type p =? ACTION_EVENT).

Definition is_action (p : Packet) : bool := packet_type p =? ACTION_EVENT.

(** The pair a sequence of records leaves in a mirrored member: that of
    the last record whose first coordinate is not -1, else the old one. *)
Definition latest_present (sel : Packet -> Z * Z) (ps : list Packet)
  (old : Z * Z) : Z * Z :=
  fold_left (fun acc p => if fst (sel p) =? -1 then acc else sel p) ps old.

(** The broadcasts one call of the receive loop sends for [k] answered
    records: the outgoing state once, then the consumed state. *)
Definition expected_broadcasts (k : nat) (s : ServerGame)
  : list (list byte * list Z) :=
  match k with
  | O => []
  | S k' =>
      (serialize (outgoing s), session_ids s)
      :: repeat (serialize (consumed s), session_ids s) k'
  end.

(** What the outgoing one-shot members can be after receiving: as before,
    or consumed by a broadcast. *)
Record outgoing_kept_or_consumed (s s' : ServerGame) : Prop := {
  oc_attack : my_attack s' = my_attack s \/ my_attack s' = (-1, -1);
  oc_damage : my_damage s' = my_damage s \/ my_damage s' = (-1, -1)
}.

(** Everything of the state but the trace. *)
Definition same_state (s s' : ServerGame) : Prop :=
  my_attack s' = my_attack s /\ other_attack s' = other_attack s /\
  my_damage s' = my_damage s /\ other_damage s' = other_damage s /\
  my_headPose s' = my_headPose s /\ other_headPose s' = other_headPose s /\
  game_mode s' = game_mode s /\ my_done s' = my_done s /\
  other_done s' = other_done s /\ client_id s' = client_id s /\
  network s' = network s /\ network_data s' = network_data s.

(** The number of whole records that fit into [network_data]. *)
Definition records_in_buffer : nat :=
  Z.to_nat (MAX_PACKET_SIZE / sizeof_Packet).

(** ** main.cpp: the game around the server

    [ExampleApp] owns the [Scene] and the [ServerGame]; the modes are
    global variables of [main.cpp].  Only the members the game logic reads
    and writes are kept; shaders, models and the tracking state are left
    out, and what depends on the controllers, on a float comparison or on
    [rand()] enters as an argument.  The four vectors of board matrices
    and positions are kept as lists: the constructor fills them, [reset]
    clears them and the rendering indexes them. *)

Inductive GameMode := PREPARE | ON | END.
Inductive DirectionMode := NONE | UP | RIGHT | DOWN | LEFT.
Inductive WarshipMode := A_Ship | B_Ship | C_Ship | S_Ship | P_Ship.
Inductive SelectingMode := SELECTING | DONE.
Inductive PlayerMode := MY | RIVAL.
Inductive ResultMode := WIN | LOSE.

Definition GameMode_eqb (a b : GameMode) : bool :=
  match a, b with
  | PREPARE, PREPARE | ON, ON | END, END => true
  | _, _ => false
  end.

Definition PlayerMode_eqb (a b : PlayerMode) : bool :=
  match a, b with
  | MY, MY | RIVAL, RIVAL => true
  | _, _ => false
  end.

Definition SelectingMode_eqb (a b : SelectingMode) : bool :=
  match a, b with
  | SELECTING, SELECTING | DONE, DONE => true
  | _, _ => false
  end.

(** [Scene::GRID_SIZE] and the cell values of the boards. *)
Definition GRID_SIZE : Z := 10.
Definition EMPTY : Z := 0.
Definition MARKED : Z := 1.
Definition MISSED : Z := -1.
Definition SHOOTED : Z := 2.

(** [int myBoard[10][10]]: ten rows of ten cells, first index first. *)
Definition board := list (list Z).

Definition board_ok (b : board) : Prop :=
  length b = 10%nat /\ Forall (fun row => length row = 10%nat) b.

(** A call ends in a value or in a fault. *)
Inductive outcome (A : Type) :=
| Ok (a : A)
| Err (f : fault).
Arguments Ok {A} a.
Arguments Err {A} f.

Definition bind {A B : Type} (m : outcome A) (k : A -> outcome B) : outcome B :=
  match m with
  | Ok a => k a
  | Err f => Err f
  end.

Notation "x <- m ;; k" := (bind m (fun x => k))
  (at level 61, m at next level, right associativity).

Definition of_result (r : result) : outcome ServerGame :=
  match r with
  | Done s => Ok s
  | Fault f => Err f
  end.

Definition in_grid (x y : Z) : bool :=
  (0 <=? x) && (x <? GRID_SIZE) && (0 <=? y) && (y <? GRID_SIZE).

Fixpoint list_set {A : Type} (n : nat) (v : A) (l : list A) : list A :=
  match l, n with
  | [], _ => []
  | _ :: rest, O => v :: rest
  | a :: rest, S n' => a :: list_set n' v rest
  end.

(** The read [b[x][y]]; an index outside the array is undefined behaviour. *)
Definition board_read (b : board) (x y : Z) : outcome Z :=
  if in_grid x y
  then Ok (nth (Z.to_nat y) (nth (Z.to_nat x) b []) 0)
  else Err OutOfBounds.

(** The assignment [b[x][y] = v]. *)
Definition board_write (b : board) (x y v : Z) : outcome board :=
  if in_grid x y
  then Ok (list_set (Z.to_nat x)
             (list_set (Z.to_nat y) v (nth (Z.to_nat x) b [])) b)
  else Err OutOfBounds.

(** A [glm::vec3], its three floats as bit patterns. *)
Record vec3 := mkvec3 { v3x : Z; v3y : Z; v3z : Z }.

(** The read [v[i]] of a [std::vector]; an index at or beyond its size is
    undefined behaviour.  The indices used here are never negative. *)
Definition vector_read {A : Type} (v : list A) (i : Z) : outcome A :=
  match nth_error v (Z.to_nat i) with
  | Some x => Ok x
  | None => Err OutOfBounds
  end.

(** [class Scene]: the cursor, the five warships [A], [B], [C], [S], [P]
    (here [ship_A] to [ship_P]), the boards, the counters, the messages
    and the vectors of the board matrices and positions. *)
Record Scene := mkScene {
  x_cord : Z;
  y_cord : Z;
  ship_A : list (Z * Z);
  ship_B : list (Z * Z);
  ship_C : list (Z * Z);
  ship_S : list (Z * Z);
  ship_P : list (Z * Z);
  myBoard : board;
  rivalBoard : board;
  selectedIdx : Z;
  numHits : Z;
  numDamages : Z;
  shipMessage : string;
  directionMessage : string;
  endMessage : string;
  my_board_matrices : list mat4;
  rival_board_matrices : list mat4;
  my_board_positions : list vec3;
  rival_board_positions : list vec3
}.

Definition set_x_cord (v : Z) (r : Scene) : Scene :=
  {| x_cord := v; y_cord := y_cord r; ship_A := ship_A r; ship_B := ship_B r;
     ship_C := ship_C r; ship_S := ship_S r; ship_P := ship_P r;
     myBoard := myBoard r; rivalBoard := rivalBoard r;
     selectedIdx := selectedIdx r; numHits := numHits r;
     numDamages := numDamages r; shipMessage := shipMessage r;
     directionMessage := directionMessage r; endMessage := endMessage r;
     my_board_matrices := my_board_matrices r;
     rival_board_matrices := rival_board_matrices r;
     my_board_positions := my_board_positions r;
     rival_board_positions := rival_board_positions r |}.

Definition set_y_cord (v : Z) (r : Scene) : Scene :=
  {| x_cord := x_cord r; y_cord := v; ship_A := ship_A r; ship_B := ship_B r;
     ship_C := ship_C r; ship_S := ship_S r; ship_P := ship_P r;
     myBoard := myBoard r; rivalBoard := rivalBoard r;
     selectedIdx := selectedIdx r; numHits := numHits r;
     numDamages := numDamages r; shipMessage := shipMessage r;
     directionMessage := directionMessage r; endMessage := endMessage r;
     my_board_matrices := my_board_matrices r;
     rival_board_matrices := rival_board_matrices r;
     my_board_positions := my_board_positions r;
     rival_board_positions := rival_board_positions r |}.

Definition set_ship_A (v : list (Z * Z)) (r : Scene) : Scene :=
  {| x_cord := x_cord r; y_cord := y_cord r; ship_A := v; ship_B := ship_B r;
     ship_C := ship_C r; ship_S := ship_S r; ship_P := ship_P r;
     myBoard := myBoard r; rivalBoard := rivalBoard r;
     selectedIdx := selectedIdx r; numHits := numHits r;
     numDamages := numDamages r; shipMessage := shipMessage r;
     directionMessage := directionMessage r; endMessage := endMessage r;
     my_board_matrices := my_board_matrices r;
     rival_board_matrices := rival_board_matrices r;
     my_board_positions := my_board_positions r;
     rival_board_positions := rival_board_positions r |}.

Definition set_ship_B (v : list (Z * Z)) (r : Scene) : Scene :=
  {| x_cord := x_cord r; y_cord := y_cord r; ship_A := ship_A r; ship_B := v;
     ship_C := ship_C r; ship_S := ship_S r; ship_P := ship_P r;
     myBoard := myBoard r; rivalBoard := rivalBoard r;
     selectedIdx := selectedIdx r; numHits := numHits r;
     numDamages := numDamages r; shipMessage := shipMessage r;
     directionMessage := directionMessage r; endMessage := endMessage r;
     my_board_matrices := my_board_matrices r;
     rival_board_matrices := rival_board_matrices r;
     my_board_positions := my_board_positions r;
     rival_board_positions := rival_board_positions r |}.

Definition set_ship_C (v : list (Z * Z)) (r : Scene) : Scene :=
  {| x_cord := x_cord r; y_cord := y_cord r; ship_A := ship_A r;
     ship_B := ship_B r; ship_C := v; ship_S := ship_S r; ship_P := ship_P r;
     myBoard := myBoard r; rivalBoard := rivalBoard r;
     selectedIdx := selectedIdx r; numHits := numHits r;
     numDamages := numDamages r; shipMessage := shipMessage r;
     directionMessage := directionMessage r; endMessage := endMessage r;
     my_board_matrices := my_board_matrices r;
     rival_board_matrices := rival_board_matrices r;
     my_board_positions := my_board_positions r;
     rival_board_positions := rival_board_positions r |}.

Definition set_ship_S (v : list (Z * Z)) (r : Scene) : Scene :=
  {| x_cord := x_cord r; y_cord := y_cord r; ship_A := ship_A r;
     ship_B := ship_B r; ship_C := ship_C r; ship_S := v; ship_P := ship_P r;
     myBoard := myBoard r; rivalBoard := rivalBoard r;
     selectedIdx := selectedIdx r; numHits := numHits r;
     numDamages := numDamages r; shipMessage := shipMessage r;
     directionMessage := directionMessage r; endMessage := endMessage r;
     my_board_matrices := my_board_matrices r;
     rival_board_matrices := rival_board_matrices r;
     my_board_positions := my_board_positions r;
     rival_board_positions := rival_board_positions r |}.

Definition set_ship_P (v : list (Z * Z)) (r : Scene) : Scene :=
  {| x_cord := x_cord r; y_cord := y_cord r; ship_A := ship_A r;
     ship_B := ship_B r; ship_C := ship_C r; ship_S := ship_S r; ship_P := v;
     myBoard := myBoard r; rivalBoard := rivalBoard r;
     selectedIdx := selectedIdx r; numHits := numHits r;
     numDamages := numDamages r; shipMessage := shipMessage r;
     directionMessage := directionMessage r; endMessage := endMessage r;
     my_board_matrices := my_board_matrices r;
     rival_board_matrices := rival_board_matrices r;
     my_board_positions := my_board_positions r;
     rival_board_positions := rival_board_positions r |}.

Definition set_myBoard (v : board) (r : Scene) : Scene :=
  {| x_cord := x_cord r; y_cord := y_cord r; ship_A := ship_A r;
     ship_B := ship_B r; ship_C := ship_C r; ship_S := ship_S r;
     ship_P := ship_P r; myBoard := v; rivalBoard := rivalBoard r;
     selectedIdx := selectedIdx r; numHits := numHits r;
     numDamages := numDamages r; shipMessage := shipMessage r;
     directionMessage := directionMessage r; endMessage := endMessage r;
     my_board_matrices := my_board_matrices r;
     rival_board_matrices := rival_board_matrices r;
     my_board_positions := my_board_positions r;
     rival_board_positions := rival_board_positions r |}.

Definition set_rivalBoard (v : board) (r : Scene) : Scene :=
  {| x_cord := x_cord r; y_cord := y_cord r; ship_A := ship_A r;
     ship_B := ship_B r; ship_C := ship_C r; ship_S := ship_S r;
     ship_P := ship_P r; myBoard := myBoard r; rivalBoard := v;
     selectedIdx := selectedIdx r; numHits := numHits r;
     numDamages := numDamages r; shipMessage := shipMessage r;
     directionMessage := directionMessage r; endMessage := endMessage r;
     my_board_matrices := my_board_matrices r;
     rival_board_matrices := rival_board_matrices r;
     my_board_positions := my_board_positions r;
     rival_board_positions := rival_board_positions r |}.

Definition set_selectedIdx (v : Z) (r : Scene) : Scene :=
  {| x_cord := x_cord r; y_cord := y_cord r; ship_A := ship_A r;
     ship_B := ship_B r; ship_C := ship_C r; ship_S := ship_S r;
     ship_P := ship_P r; myBoard := myBoard r; rivalBoard := rivalBoard r;
     selectedIdx := v; numHits := numHits r; numDamages := numDamages r;
     shipMessage := shipMessage r; directionMessage := directionMessage r;
     endMessage := endMessage r; my_board_matrices := my_board_matrices r;
     rival_board_matrices := rival_board_matrices r;
     my_board_positions := my_board_positions r;
     rival_board_positions := rival_board_positions r |}.

Definition set_numHits (v : Z) (r : Scene) : Scene :=
  {| x_cord := x_cord r; y_cord := y_cord r; ship_A := ship_A r;
     ship_B := ship_B r; ship_C := ship_C r; ship_S := ship_S r;
     ship_P := ship_P r; myBoard := myBoard r; rivalBoard := rivalBoard r;
     selectedIdx := selectedIdx r; numHits := v; numDamages := numDamages r;
     shipMessage := shipMessage r; directionMessage := directionMessage r;
     endMessage := endMessage r; my_board_matrices := my_board_matrices r;
     rival_board_matrices := rival_board_matrices r;
     my_board_positions := my_board_positions r;
     rival_board_positions := rival_board_positions r |}.

Definition set_numDamages (v : Z) (r : Scene) : Scene :=
  {| x_cord := x_cord r; y_cord := y_cord r; ship_A := ship_A r;
     ship_B := ship_B r; ship_C := ship_C r; ship_S := ship_S r;
     ship_P := ship_P r; myBoard := myBoard r; rivalBoard := rivalBoard r;
     selectedIdx := selectedIdx r; numHits := numHits r; numDamages := v;
     shipMessage := shipMessage r; directionMessage := directionMessage r;
     endMessage := endMessage r; my_board_matrices := my_board_matrices r;
     rival_board_matrices := rival_board_matrices r;
     my_board_positions := my_board_positions r;
     rival_board_positions := rival_board_positions r |}.

Definition set_shipMessage (v : string) (r : Scene) : Scene :=
  {| x_cord := x_cord r; y_cord := y_cord r; ship_A := ship_A r;
     ship_B := ship_B r; ship_C := ship_C r; ship_S := ship_S r;
     ship_P := ship_P r; myBoard := myBoard r; rivalBoard := rivalBoard r;
     selectedIdx := selectedIdx r; numHits := numHits r;
     numDamages := numDamages r; shipMessage := v;
     directionMessage := directionMessage r; endMessage := endMessage r;
     my_board_matrices := my_board_matrices r;
     rival_board_matrices := rival_board_matrices r;
     my_board_positions := my_board_positions r;
     rival_board_positions := rival_board_positions r |}.

Definition set_directionMessage (v : string) (r : Scene) : Scene :=
  {| x_cord := x_cord r; y_cord := y_cord r; ship_A := ship_A r;
     ship_B := ship_B r; ship_C := ship_C r; ship_S := ship_S r;
     ship_P := ship_P r; myBoard := myBoard r; rivalBoard := rivalBoard r;
     selectedIdx := selectedIdx r; numHits := numHits r;
     numDamages := numDamages r; shipMessage := shipMessage r;
     directionMessage := v; endMessage := endMessage r;
     my_board_matrices := my_board_matrices r;
     rival_board_matrices := rival_board_matrices r;
     my_board_positions := my_board_positions r;
     rival_board_positions := rival_board_positions r |}.

Definition set_endMessage (v : string) (r : Scene) : Scene :=
  {| x_cord := x_cord r; y_cord := y_cord r; ship_A := ship_A r;
     ship_B := ship_B r; ship_C := ship_C r; ship_S := ship_S r;
     ship_P := ship_P r; myBoard := myBoard r; rivalBoard := rivalBoard r;
     selectedIdx := selectedIdx r; numHits := numHits r;
     numDamages := numDamages r; shipMessage := shipMessage r;
     directionMessage := directionMessage r; endMessage := v;
     my_board_matrices := my_board_matrices r;
     rival_board_matrices := rival_board_matrices r;
     my_board_positions := my_board_positions r;
     rival_board_positions := rival_board_positions r |}.

Definition set_my_board_matrices (v : list mat4) (r : Scene) : Scene :=
  {| x_cord := x_cord r; y_cord := y_cord r; ship_A := ship_A r;
     ship_B := ship_B r; ship_C := ship_C r; ship_S := ship_S r;
     ship_P := ship_P r; myBoard := myBoard r; rivalBoard := rivalBoard r;
     selectedIdx := selectedIdx r; numHits := numHits r;
     numDamages := numDamages r; shipMessage := shipMessage r;
     directionMessage := directionMessage r; endMessage := endMessage r;
     my_board_matrices := v; rival_board_matrices := rival_board_matrices r;
     my_board_positions := my_board_positions r;
     rival_board_positions := rival_board_positions r |}.

Definition set_rival_board_matrices (v : list mat4) (r : Scene) : Scene :=
  {| x_cord := x_cord r; y_cord := y_cord r; ship_A := ship_A r;
     ship_B := ship_B r; ship_C := ship_C r; ship_S := ship_S r;
     ship_P := ship_P r; myBoard := myBoard r; rivalBoard := rivalBoard r;
     selectedIdx := selectedIdx r; numHits := numHits r;
     numDamages := numDamages r; shipMessage := shipMessage r;
     directionMessage := directionMessage r; endMessage := endMessage r;
     my_board_matrices := my_board_matrices r; rival_board_matrices := v;
     my_board_positions := my_board_positions r;
     rival_board_positions := rival_board_positions r |}.

Definition set_my_board_positions (v : list vec3) (r : Scene) : Scene :=
  {| x_cord := x_cord r; y_cord := y_cord r; ship_A := ship_A r;
     ship_B := ship_B r; ship_C := ship_C r; ship_S := ship_S r;
     ship_P := ship_P r; myBoard := myBoard r; rivalBoard := rivalBoard r;
     selectedIdx := selectedIdx r; numHits := numHits r;
     numDamages := numDamages r; shipMessage := shipMessage r;
     directionMessage := directionMessage r; endMessage := endMessage r;
     my_board_matrices := my_board_matrices r;
     rival_board_matrices := rival_board_matrices r; my_board_positions := v;
     rival_board_positions := rival_board_positions r |}.

Definition set_rival_board_positions (v : list vec3) (r : Scene) : Scene :=
  {| x_cord := x_cord r; y_cord := y_cord r; ship_A := ship_A r;
     ship_B := ship_B r; ship_C := ship_C r; ship_S := ship_S r;
     ship_P := ship_P r; myBoard := myBoard r; rivalBoard := rivalBoard r;
     selectedIdx := selectedIdx r; numHits := numHits r;
     numDamages := numDamages r; shipMessage := shipMessage r;
     directionMessage := directionMessage r; endMessage := endMessage r;
     my_board_matrices := my_board_matrices r;
     rival_board_matrices := rival_board_matrices r;
     my_board_positions := my_board_positions r; rival_board_positions := v |}.

(** [class ExampleApp] with the mode variables; [played] lists the files
    handed to [soundEngine->play2D]. *)
Record ExampleApp := mkExampleApp {
  scene : Scene;
  server : ServerGame;
  gameMode : GameMode;
  playerMode : PlayerMode;
  directionMode : DirectionMode;
  warshipMode : WarshipMode;
  selectingMode : SelectingMode;
  resultMode : ResultMode;
  buttonXPressed : bool;
  buttonAPressed : bool;
  buttonBPressed : bool;
  buttonYPressed : bool;
  triggerLeftIndexClicked : bool;
  triggerRightIndexClicked : bool;
  triggerLeftMiddleClicked : bool;
  triggerRightMiddleClicked : bool;
  played : list string
}.

Definition set_scene (v : Scene) (r : ExampleApp) : ExampleApp :=
  {| scene := v; server := server r; gameMode := gameMode r;
     playerMode := playerMode r; directionMode := directionMode r;
     warshipMode := warshipMode r; selectingMode := selectingMode r;
     resultMode := resultMode r; buttonXPressed := buttonXPressed r;
     buttonAPressed := buttonAPressed r; buttonBPressed := buttonBPressed r;
     buttonYPressed := buttonYPressed r;
     triggerLeftIndexClicked := triggerLeftIndexClicked r;
     triggerRightIndexClicked := triggerRightIndexClicked r;
     triggerLeftMiddleClicked := triggerLeftMiddleClicked r;
     triggerRightMiddleClicked := triggerRightMiddleClicked r;
     played := played r |}.

Definition set_server (v : ServerGame) (r : ExampleApp) : ExampleApp :=
  {| scene := scene r; server := v; gameMode := gameMode r;
     playerMode := playerMode r; directionMode := directionMode r;
     warshipMode := warshipMode r; selectingMode := selectingMode r;
     resultMode := resultMode r; buttonXPressed := buttonXPressed r;
     buttonAPressed := buttonAPressed r; buttonBPressed := buttonBPressed r;
     buttonYPressed := buttonYPressed r;
     triggerLeftIndexClicked := triggerLeftIndexClicked r;
     triggerRightIndexClicked := triggerRightIndexClicked r;
     triggerLeftMiddleClicked := triggerLeftMiddleClicked r;
     triggerRightMiddleClicked := triggerRightMiddleClicked r;
     played := played r |}.

Definition set_gameMode (v : GameMode) (r : ExampleApp) : ExampleApp :=
  {| scene := scene r; server := server r; gameMode := v;
     playerMode := playerMode r; directionMode := directionMode r;
     warshipMode := warshipMode r; selectingMode := selectingMode r;
     resultMode := resultMode r; buttonXPressed := buttonXPressed r;
     buttonAPressed := buttonAPressed r; buttonBPressed := buttonBPressed r;
     buttonYPressed := buttonYPressed r;
     triggerLeftIndexClicked := triggerLeftIndexClicked r;
     triggerRightIndexClicked := triggerRightIndexClicked r;
     triggerLeftMiddleClicked := triggerLeftMiddleClicked r;
     triggerRightMiddleClicked := triggerRightMiddleClicked r;
     played := played r |}.

Definition set_playerMode (v : PlayerMode) (r : ExampleApp) : ExampleApp :=
  {| scene := scene r; server := server r; gameMode := gameMode r;
     playerMode := v; directionMode := directionMode r;
     warshipMode := warshipMode r; selectingMode := selectingMode r;
     resultMode := resultMode r; buttonXPressed := buttonXPressed r;
     buttonAPressed := buttonAPressed r; buttonBPressed := buttonBPressed r;
     buttonYPressed := buttonYPressed r;
     triggerLeftIndexClicked := triggerLeftIndexClicked r;
     triggerRightIndexClicked := triggerRightIndexClicked r;
     triggerLeftMiddleClicked := triggerLeftMiddleClicked r;
     triggerRightMiddleClicked := triggerRightMiddleClicked r;
     played := played r |}.

Definition set_directionMode (v : DirectionMode) (r : ExampleApp) : ExampleApp :=
  {| scene := scene r; server := server r; gameMode := gameMode r;
     playerMode := playerMode r; directionMode := v;
     warshipMode := warshipMode r; selectingMode := selectingMode r;
     resultMode := resultMode r; buttonXPressed := buttonXPressed r;
     buttonAPressed := buttonAPressed r; buttonBPressed := buttonBPressed r;
     buttonYPressed := buttonYPressed r;
     triggerLeftIndexClicked := triggerLeftIndexClicked r;
     triggerRightIndexClicked := triggerRightIndexClicked r;
     triggerLeftMiddleClicked := triggerLeftMiddleClicked r;
     triggerRightMiddleClicked := triggerRightMiddleClicked r;
     played := played r |}.

Definition set_warshipMode (v : WarshipMode) (r : ExampleApp) : ExampleApp :=
  {| scene := scene r; server := server r; gameMode := gameMode r;
     playerMode := playerMode r; directionMode := directionMode r;
     warshipMode := v; selectingMode := selectingMode r;
     resultMode := resultMode r; buttonXPressed := buttonXPressed r;
     buttonAPressed := buttonAPressed r; buttonBPressed := buttonBPressed r;
     buttonYPressed := buttonYPressed r;
     triggerLeftIndexClicked := triggerLeftIndexClicked r;
     triggerRightIndexClicked := triggerRightIndexClicked r;
     triggerLeftMiddleClicked := triggerLeftMiddleClicked r;
     triggerRightMiddleClicked := triggerRightMiddleClicked r;
     played := played r |}.

Definition set_selectingMode (v : SelectingMode) (r : ExampleApp) : ExampleApp :=
  {| scene := scene r; server := server r; gameMode := gameMode r;
     playerMode := playerMode r; directionMode := directionMode r;
     warshipMode := warshipMode r; selectingMode := v;
     resultMode := resultMode r; buttonXPressed := buttonXPressed r;
     buttonAPressed := buttonAPressed r; buttonBPressed := buttonBPressed r;
     buttonYPressed := buttonYPressed r;
     triggerLeftIndexClicked := triggerLeftIndexClicked r;
     triggerRightIndexClicked := triggerRightIndexClicked r;
     triggerLeftMiddleClicked := triggerLeftMiddleClicked r;
     triggerRightMiddleClicked := triggerRightMiddleClicked r;
     played := played r |}.

Definition set_resultMode (v : ResultMode) (r : ExampleApp) : ExampleApp :=
  {| scene := scene r; server := server r; gameMode := gameMode r;
     playerMode := playerMode r; directionMode := directionMode r;
     warshipMode := warshipMode r; selectingMode := selectingMode r;
     resultMode := v; buttonXPressed := buttonXPressed r;
     buttonAPressed := buttonAPressed r; buttonBPressed := buttonBPressed r;
     buttonYPressed := buttonYPressed r;
     triggerLeftIndexClicked := triggerLeftIndexClicked r;
     triggerRightIndexClicked := triggerRightIndexClicked r;
     triggerLeftMiddleClicked := triggerLeftMiddleClicked r;
     triggerRightMiddleClicked := triggerRightMiddleClicked r;
     played := played r |}.

Definition set_buttonXPressed (v : bool) (r : ExampleApp) : ExampleApp :=
  {| scene := scene r; server := server r; gameMode := gameMode r;
     playerMode := playerMode r; directionMode := directionMode r;
     warshipMode := warshipMode r; selectingMode := selectingMode r;
     resultMode := resultMode r; buttonXPressed := v;
     buttonAPressed := buttonAPressed r; buttonBPressed := buttonBPressed r;
     buttonYPressed := buttonYPressed r;
     triggerLeftIndexClicked := triggerLeftIndexClicked r;
     triggerRightIndexClicked := triggerRightIndexClicked r;
     triggerLeftMiddleClicked := triggerLeftMiddleClicked r;
     triggerRightMiddleClicked := triggerRightMiddleClicked r;
     played := played r |}.

Definition set_buttonAPressed (v : bool) (r : ExampleApp) : ExampleApp :=
  {| scene := scene r; server := server r; gameMode := gameMode r;
     playerMode := playerMode r; directionMode := directionMode r;
     warshipMode := warshipMode r; selectingMode := selectingMode r;
     resultMode := resultMode r; buttonXPressed := buttonXPressed r;
     buttonAPressed := v; buttonBPressed := buttonBPressed r;
     buttonYPressed := buttonYPressed r;
     triggerLeftIndexClicked := triggerLeftIndexClicked r;
     triggerRightIndexClicked := triggerRightIndexClicked r;
     triggerLeftMiddleClicked := triggerLeftMiddleClicked r;
     triggerRightMiddleClicked := triggerRightMiddleClicked r;
     played := played r |}.

Definition set_buttonBPressed (v : bool) (r : ExampleApp) : ExampleApp :=
  {| scene := scene r; server := server r; gameMode := gameMode r;
     playerMode := playerMode r; directionMode := directionMode r;
     warshipMode := warshipMode r; selectingMode := selectingMode r;
     resultMode := resultMode r; buttonXPressed := buttonXPressed r;
     buttonAPressed := buttonAPressed r; buttonBPressed := v;
     buttonYPressed := buttonYPressed r;
     triggerLeftIndexClicked := triggerLeftIndexClicked r;
     triggerRightIndexClicked := triggerRightIndexClicked r;
     triggerLeftMiddleClicked := triggerLeftMiddleClicked r;
     triggerRightMiddleClicked := triggerRightMiddleClicked r;
     played := played r |}.

Definition set_buttonYPressed (v : bool) (r : ExampleApp) : ExampleApp :=
  {| scene := scene r; server := server r; gameMode := gameMode r;
     playerMode := playerMode r; directionMode := directionMode r;
     warshipMode := warshipMode r; selectingMode := selectingMode r;
     resultMode := resultMode r; buttonXPressed := buttonXPressed r;
     buttonAPressed := buttonAPressed r; buttonBPressed := buttonBPressed r;
     buttonYPressed := v;
     triggerLeftIndexClicked := triggerLeftIndexClicked r;
     triggerRightIndexClicked := triggerRightIndexClicked r;
     triggerLeftMiddleClicked := triggerLeftMiddleClicked r;
     triggerRightMiddleClicked := triggerRightMiddleClicked r;
     played := played r |}.

Definition set_triggerLeftIndexClicked (v : bool) (r : ExampleApp) : ExampleApp :=
  {| scene := scene r; server := server r; gameMode := gameMode r;
     playerMode := playerMode r; directionMode := directionMode r;
     warshipMode := warshipMode r; selectingMode := selectingMode r;
     resultMode := resultMode r; buttonXPressed := buttonXPressed r;
     buttonAPressed := buttonAPressed r; buttonBPressed := buttonBPressed r;
     buttonYPressed := buttonYPressed r; triggerLeftIndexClicked := v;
     triggerRightIndexClicked := triggerRightIndexClicked r;
     triggerLeftMiddleClicked := triggerLeftMiddleClicked r;
     triggerRightMiddleClicked := triggerRightMiddleClicked r;
     played := played r |}.

Definition set_triggerRightIndexClicked (v : bool) (r : ExampleApp) : ExampleApp :=
  {| scene := scene r; server := server r; gameMode := gameMode r;
     playerMode := playerMode r; directionMode := directionMode r;
     warshipMode := warshipMode r; selectingMode := selectingMode r;
     resultMode := resultMode r; buttonXPressed := buttonXPressed r;
     buttonAPressed := buttonAPressed r; buttonBPressed := buttonBPressed r;
     buttonYPressed := buttonYPressed r;
     triggerLeftIndexClicked := triggerLeftIndexClicked r;
     triggerRightIndexClicked := v;
     triggerLeftMiddleClicked := triggerLeftMiddleClicked r;
     triggerRightMiddleClicked := triggerRightMiddleClicked r;
     played := played r |}.

Definition set_triggerLeftMiddleClicked (v : bool) (r : ExampleApp) : ExampleApp :=
  {| scene := scene r; server := server r; gameMode := gameMode r;
     playerMode := playerMode r; directionMode := directionMode r;
     warshipMode := warshipMode r; selectingMode := selectingMode r;
     resultMode := resultMode r; buttonXPressed := buttonXPressed r;
     buttonAPressed := buttonAPressed r; buttonBPressed := buttonBPressed r;
     buttonYPressed := buttonYPressed r;
     triggerLeftIndexClicked := triggerLeftIndexClicked r;
     triggerRightIndexClicked := triggerRightIndexClicked r;
     triggerLeftMiddleClicked := v;
     triggerRightMiddleClicked := triggerRightMiddleClicked r;
     played := played r |}.

Definition set_triggerRightMiddleClicked (v : bool) (r : ExampleApp) : ExampleApp :=
  {| scene := scene r; server := server r; gameMode := gameMode r;
     playerMode := playerMode r; directionMode := directionMode r;
     warshipMode := warshipMode r; selectingMode := selectingMode r;
     resultMode := resultMode r; buttonXPressed := buttonXPressed r;
     buttonAPressed := buttonAPressed r; buttonBPressed := buttonBPressed r;
     buttonYPressed := buttonYPressed r;
     triggerLeftIndexClicked := triggerLeftIndexClicked r;
     triggerRightIndexClicked := triggerRightIndexClicked r;
     triggerLeftMiddleClicked := triggerLeftMiddleClicked r;
     triggerRightMiddleClicked := v; played := played r |}.

Definition set_played (v : list string) (r : ExampleApp) : ExampleApp :=
  {| scene := scene r; server := server r; gameMode := gameMode r;
     playerMode := playerMode r; directionMode := directionMode r;
     warshipMode := warshipMode r; selectingMode := selectingMode r;
     resultMode := resultMode r; buttonXPressed := buttonXPressed r;
     buttonAPressed := buttonAPressed r; buttonBPressed := buttonBPressed r;
     buttonYPressed := buttonYPressed r;
     triggerLeftIndexClicked := triggerLeftIndexClicked r;
     triggerRightIndexClicked := triggerRightIndexClicked r;
     triggerLeftMiddleClicked := triggerLeftMiddleClicked r;
     triggerRightMiddleClicked := triggerRightMiddleClicked r;
     played := v |}.

Definition set_my_headPose (v : mat4) (r : ServerGame) : ServerGame :=
  {| my_attack := my_attack r; other_attack := other_attack r;
     my_damage := my_damage r; other_damage := other_damage r;
     my_headPose := v; other_headPose := other_headPose r;
     game_mode := game_mode r; my_done := my_done r;
     other_done := other_done r; client_id := client_id r;
     network := network r; network_data := network_data r;
     trace := trace r |}.

Definition set_my_done (v : bool) (r : ServerGame) : ServerGame :=
  {| my_attack := my_attack r; other_attack := other_attack r;
     my_damage := my_damage r; other_damage := other_damage r;
     my_headPose := my_headPose r; other_headPose := other_headPose r;
     game_mode := game_mode r; my_done := v; other_done := other_done r;
     client_id := client_id r; network := network r;
     network_data := network_data r; trace := trace r |}.

Definition on_scene (f : Scene -> Scene) (a : ExampleApp) : ExampleApp :=
  set_scene (f (scene a)) a.

Definition on_server (f : ServerGame -> ServerGame) (a : ExampleApp)
  : ExampleApp :=
  set_server (f (server a)) a.

Definition play2D (file : string) (a : ExampleApp) : ExampleApp :=
  set_played (played a ++ [file]) a.

(** [std::find(v.begin(), v.end(), curr) != v.end()]. *)
Definition found (v : list (Z * Z)) (curr : Z * Z) : bool :=
  existsb (fun c => (fst c =? fst curr) && (snd c =? snd curr)) v.

(** The test over the five warships that [checkAvailability] and
    [UpdateButtonX] both spell out. *)
Definition in_fleet (sc : Scene) (curr : Z * Z) : bool :=
  found (ship_A sc) curr || found (ship_B sc) curr ||
  found (ship_C sc) curr || found (ship_S sc) curr ||
  found (ship_P sc) curr.

(** [Scene::checkAvailability]. *)
Definition checkAvailability (sc : Scene) (curr : Z * Z) : bool :=
  if in_fleet sc curr then false else true.

(** The two nested loops of [Scene::reset]. *)
Definition reset_cell (bs : outcome (board * board)) (xy : Z * Z)
  : outcome (board * board) :=
  b <- bs ;;
  my <- board_write (fst b) (fst xy) (snd xy) EMPTY ;;
  rival <- board_write (snd b) (fst xy) (snd xy) EMPTY ;;
  Ok (my, rival).

Definition grid_indices : list Z := map Z.of_nat (seq 0 (Z.to_nat GRID_SIZE)).

Definition reset_boards (my rival : board) : outcome (board * board) :=
  fold_left
    (fun bs x => fold_left (fun bs y => reset_cell bs (x, y)) grid_indices bs)
    grid_indices (Ok (my, rival)).

(** [Scene::reset]. *)
Definition reset (sc : Scene) : outcome Scene :=
  let sc := set_ship_A [] sc in
  let sc := set_ship_B [] sc in
  let sc := set_ship_C [] sc in
  let sc := set_ship_P [] sc in
  let sc := set_ship_S [] sc in
  let sc := set_my_board_matrices [] sc in
  let sc := set_rival_board_matrices [] sc in
  let sc := set_my_board_positions [] sc in
  let sc := set_rival_board_positions [] sc in
  bs <- reset_boards (myBoard sc) (rivalBoard sc) ;;
  let sc := set_myBoard (fst bs) sc in
  let sc := set_rivalBoard (snd bs) sc in
  let sc := set_selectedIdx 0 sc in
  let sc := set_numHits 0 sc in
  let sc := set_numDamages 0 sc in
  Ok sc.

(** [ExampleApp::renderScene], the three tests at its start: the end of
    the game on the sixteenth hit or damage, and its start when both peers
    are done. *)
Definition renderScene_modes (a : ExampleApp) : ExampleApp :=
  let a :=
    if numHits (scene a) =? 16 then
      let a := on_scene (set_numHits 0) a in
      let a := play2D "../audio/End.mp3" a in
      let a := set_gameMode END a in
      set_resultMode WIN a
    else a in
  let a :=
    if numDamages (scene a) =? 16 then
      let a := on_scene (set_numDamages 0) a in
      let a := play2D "../audio/End.mp3" a in
      let a := set_gameMode END a in
      set_resultMode LOSE a
    else a in
  if other_done (server a) && my_done (server a)
     && GameMode_eqb (gameMode a) PREPARE then
    let a := play2D "../audio/Start.mp3" a in
    set_gameMode ON a
  else a.

(** [ExampleApp::renderScene], the block [if (gameMode == END)] without
    its rendering; [near] is the outcome of [dist < 0.09f], the right hand
    touching the sculpture. *)
Definition renderScene_end (near : bool) (a : ExampleApp) : outcome ExampleApp :=
  if GameMode_eqb (gameMode a) END then
    if near then
      sc <- reset (scene a) ;;
      let a := set_scene sc a in
      let a := set_gameMode PREPARE a in
      let a := set_playerMode MY a in
      let a := set_directionMode NONE a in
      let a := set_warshipMode A_Ship a in
      let a := set_selectingMode SELECTING a in
      let a := on_scene (set_x_cord 0) a in
      let a := on_scene (set_y_cord 0) a in
      let a := set_buttonXPressed false a in
      let a := set_buttonAPressed false a in
      let a := set_buttonBPressed false a in
      let a := set_buttonYPressed false a in
      let a := set_triggerLeftIndexClicked false a in
      let a := set_triggerRightIndexClicked false a in
      let a := set_triggerLeftMiddleClicked false a in
      let a := set_triggerRightMiddleClicked false a in
      let a := on_scene (set_shipMessage "Place A Ship") a in
      let a := on_scene (set_directionMessage EmptyString) a in
      Ok a
    else Ok a
  else Ok a.

(** [ExampleApp::renderScene], the assignments of a hit, after the cell
    has been found MARKED: the cell (here the board [b] with the cell
    already written), [my_damage], [other_attack], [numDamages]. *)
Definition attack_hit (b : board) (a : ExampleApp) : ExampleApp :=
  let a := on_scene (set_myBoard b) a in
  let a := on_server (fun s => set_my_damage
              (fst (other_attack s), snd (my_damage s)) s) a in
  let a := on_server (fun s => set_my_damage
              (fst (my_damage s), snd (other_attack s)) s) a in
  let a := on_server (fun s => set_other_attack
              (-1, snd (other_attack s)) s) a in
  let a := on_server (fun s => set_other_attack
              (fst (other_attack s), -1) s) a in
  on_scene (fun sc => set_numDamages (to_int (numDamages sc + 1)) sc) a.

(** [ExampleApp::renderScene], the statement
    [if (server->other_attack.first != -1)] after [server->update()]. *)
Definition received_attack (a : ExampleApp) : outcome ExampleApp :=
  if negb (fst (other_attack (server a)) =? -1) then
    cell <- board_read (myBoard (scene a))
              (fst (other_attack (server a)))
              (snd (other_attack (server a))) ;;
    if cell =? MARKED then
      b <- board_write (myBoard (scene a))
             (fst (other_attack (server a)))
             (snd (other_attack (server a))) SHOOTED ;;
      Ok (attack_hit b a)
    else
      b <- board_write (myBoard (scene a))
             (fst (other_attack (server a)))
             (snd (other_attack (server a))) MISSED ;;
      Ok (on_scene (set_myBoard b) a)
  else Ok a.

(** The assignments of a reported damage; [other_damage.first] is
    assigned twice and [other_damage.second] is not assigned. *)
Definition damage_done (b : board) (a : ExampleApp) : ExampleApp :=
  let a := on_scene (set_rivalBoard b) a in
  let a := on_server (fun s => set_other_damage
              (-1, snd (other_damage s)) s) a in
  let a := on_server (fun s => set_other_damage
              (-1, snd (other_damage s)) s) a in
  on_scene (fun sc => set_numHits (to_int (numHits sc + 1)) sc) a.

(** [ExampleApp::renderScene], the statement
    [if (server->other_damage.first != -1)]. *)
Definition received_damage (a : ExampleApp) : outcome ExampleApp :=
  if negb (fst (other_damage (server a)) =? -1) then
    b <- board_write (rivalBoard (scene a))
           (fst (other_damage (server a)))
           (snd (other_damage (server a))) SHOOTED ;;
    Ok (damage_done b a)
  else Ok a.

(** [ExampleApp::renderScene] from [server->update()] to the assignment of
    [my_headPose]; [head] is the value of the global [HeadPose]. *)
Definition renderScene_server (inp : tick_input) (head : mat4) (a : ExampleApp)
  : outcome ExampleApp :=
  srv <- of_result (update inp (server a)) ;;
  let a := set_server srv a in
  a <- received_attack a ;;
  a <- received_damage a ;;
  let a := if game_mode (server a) then set_playerMode MY a else a in
  let a := on_server (set_my_headPose head) a in
  Ok a.

(** A frame in which no connection is pending and no session has data. *)
Definition quiet_tick : tick_input := mkTick None (fun _ => []).

(** The loop of [UpdateButtonX] over the hundred cells. *)
Definition mark_cell (b : outcome board) (sc : Scene) (i : Z) : outcome board :=
  b <- b ;;
  let row := Z.rem i 10 in
  let column := Z.quot (i - row) 10 in
  let curr := (row, column) in
  if in_fleet sc curr then board_write b row column MARKED else Ok b.

Definition mark_fleet (sc : Scene) : outcome board :=
  fold_left (fun b i => mark_cell b sc i)
            (map Z.of_nat (seq 0 100)) (Ok (myBoard sc)).

(** [ExampleApp::UpdateButtonX]. *)
Definition UpdateButtonX (a : ExampleApp) : outcome ExampleApp :=
  if SelectingMode_eqb (selectingMode a) SELECTING
     && GameMode_eqb (gameMode a) PREPARE then
    if (length (ship_A (scene a)) =? 5)%nat
       && (length (ship_B (scene a)) =? 4)%nat
       && (length (ship_C (scene a)) =? 3)%nat
       && (length (ship_S (scene a)) =? 2)%nat
       && (length (ship_P (scene a)) =? 2)%nat then
      let a := set_selectingMode DONE a in
      let a := set_buttonAPressed false a in
      b <- mark_fleet (scene a) ;;
      let a := on_scene (set_myBoard b) a in
      let a := on_scene (set_shipMessage "All Warships Ready") a in
      let a := on_server (set_my_done true) a in
      Ok a
    else
      Ok (on_scene (set_shipMessage EmptyString) a)
  else Ok a.

(** [ExampleApp::UpdateButtonY]. *)
Definition UpdateButtonY (a : ExampleApp) : outcome ExampleApp :=
  cell <- board_read (rivalBoard (scene a))
            (x_cord (scene a)) (y_cord (scene a)) ;;
  if (cell =? 0) && PlayerMode_eqb (playerMode a) MY then
    let a := play2D "../audio/Fire.mp3" a in
    let a := set_playerMode RIVAL a in
    let a := on_server (set_game_mode false) a in
    let a := on_server (fun s => set_my_attack
                (x_cord (scene a), snd (my_attack s)) s) a in
    let a := on_server (fun s => set_my_attack
                (fst (my_attack s), y_cord (scene a)) s) a in
    b <- board_write (rivalBoard (scene a))
           (x_cord (scene a)) (y_cord (scene a)) MISSED ;;
    Ok (on_scene (set_rivalBoard b) a)
  else Ok a.

(** The cell [b[x][y]] of a board, for indices inside it. *)
Definition cell (b : board) (x y : Z) : Z :=
  nth (Z.to_nat y) (nth (Z.to_nat x) b []) 0.

(** ** Concrete game states *)

Definition empty_board : board := repeat (repeat EMPTY 10) 10.

(** A hundred matrices and positions, as many as the constructor of
    [Scene] pushes into each vector; the entries stand for the values it
    computes. *)
Definition hundred_matrices : list mat4 := repeat mat4_identity 100.
Definition hundred_positions : list vec3 := repeat (mkvec3 0 0 0) 100.

Definition scene_at_start : Scene :=
  {| x_cord := 0; y_cord := 0;
     ship_A := []; ship_B := []; ship_C := []; ship_S := []; ship_P := [];
     myBoard := empty_board; rivalBoard := empty_board;
     selectedIdx := 0; numHits := 0; numDamages := 0;
     shipMessage := "Place A Ship"; directionMessage := EmptyString;
     endMessage := EmptyString;
     my_board_matrices := hundred_matrices;
     rival_board_matrices := hundred_matrices;
     my_board_positions := hundred_positions;
     rival_board_positions := hundred_positions |}.

(** The application after [initGl], with empty boards and a server that
    has accepted one client. *)
Definition app_at_start : ExampleApp :=
  {| scene := scene_at_start; server := one_session;
     gameMode := PREPARE; playerMode := MY;
     directionMode := NONE; warshipMode := A_Ship;
     selectingMode := SELECTING; resultMode := WIN;
     buttonXPressed := false; buttonAPressed := false;
     buttonBPressed := false; buttonYPressed := false;
     triggerLeftIndexClicked := false; triggerRightIndexClicked := false;
     triggerLeftMiddleClicked := false; triggerRightMiddleClicked := false;
     played := [] |}.

Arguments in_grid : simpl never.
Arguments board_read : simpl never.
Arguments board_write : simpl never.
Arguments cell : simpl never.
Arguments in_fleet : simpl never.

(** Nothing received is waiting to be applied to the boards: no damage is
    pending, and a pending attack names a cell that is already MISSED. *)
Definition settled (a : ExampleApp) : Prop :=
  fst (other_damage (server a)) = -1 /\
  (fst (other_attack (server a)) = -1 \/
   (in_grid (fst (other_attack (server a))) (snd (other_attack (server a))) = true /\
    cell (myBoard (scene a)) (fst (other_attack (server a)))
         (snd (other_attack (server a))) = MISSED)) /\
  board_ok (myBoard (scene a)) /\
  board_ok (rivalBoard (scene a)).

(** The cells of the board in the order in which [Scene::reset] visits
    them. *)
Definition all_cells : list (Z * Z) :=
  flat_map (fun x => map (fun y => (x, y)) grid_indices) grid_indices.

(** A record that reports a damage on the cell (5,6). *)
Definition damage_5_6 : Packet :=
  mkPacket ACTION_EVENT (-1, -1) (5, 6) false mat4_identity.

(** The application at the end of a game in which both peers were done. *)
Definition app_at_end : ExampleApp :=
  set_gameMode END
    (on_server (fun s => set_other_done true (set_my_done true s)) app_at_start).

(** ** main.cpp: placing the warships *)

(** The vector a call of [placeWarship] gets by reference, [scene->A] to
    [scene->P], named by the warship it belongs to. *)
Definition ship_of (w : WarshipMode) (sc : Scene) : list (Z * Z) :=
  match w with
  | A_Ship => ship_A sc
  | B_Ship => ship_B sc
  | C_Ship => ship_C sc
  | S_Ship => ship_S sc
  | P_Ship => ship_P sc
  end.

Definition set_ship (w : WarshipMode) (v : list (Z * Z)) (sc : Scene) : Scene :=
  match w with
  | A_Ship => set_ship_A v sc
  | B_Ship => set_ship_B v sc
  | C_Ship => set_ship_C v sc
  | S_Ship => set_ship_S v sc
  | P_Ship => set_ship_P v sc
  end.

(** A loop [for (unsigned int i = 0; i < size; i++)] of [placeWarship]
    with [n] rounds left: the cell [at_step sc i] is pushed to the warship
    when [checkAvailability] accepts it, otherwise the warship is cleared,
    the message set and the loop left.  [checkAvailability] reads the
    warship that is being filled. *)
Fixpoint place_loop (n : nat) (i : Z) (w : WarshipMode)
    (at_step : Scene -> Z -> Z * Z) (unavailable : string) (sc : Scene)
  : Scene :=
  match n with
  | O => sc
  | S n' =>
      if checkAvailability sc (at_step sc i) then
        place_loop n' (i + 1) w at_step unavailable
          (set_ship w (ship_of w sc ++ [at_step sc i]) sc)
      else
        set_directionMessage unavailable (set_ship w [] sc)
  end.

(** [Scene::placeWarship(currWarship, size)] under the global
    [directionMode].  [size] is an [unsigned int], so the tests compare
    and the cells are computed in unsigned arithmetic, and a cell is
    converted back to [int] when the pair is built; [9 - x_cord] is
    computed in [int] first. *)
Definition placeWarship (d : DirectionMode) (w : WarshipMode) (size : Z)
    (sc : Scene) : Scene :=
  match d with
  | NONE => set_directionMessage EmptyString sc
  | UP =>
      if to_uint (size - 1) <=? to_uint (y_cord sc) then
        let sc := set_ship w [] sc in
        let sc := set_directionMessage EmptyString sc in
        place_loop (Z.to_nat size) 0 w
          (fun sc i => (x_cord sc, to_int (to_uint (y_cord sc) - i)))
          "Upward Unavailable" sc
      else set_directionMessage "Upward Unavailable" sc
  | RIGHT =>
      if to_uint (size - 1) <=? to_uint (to_int (9 - x_cord sc)) then
        let sc := set_ship w [] sc in
        let sc := set_directionMessage EmptyString sc in
        place_loop (Z.to_nat size) 0 w
          (fun sc i => (to_int (to_uint (x_cord sc) + i), y_cord sc))
          "Rightward Unavailable" sc
      else set_directionMessage "Rightward Unavailable" sc
  | DOWN =>
      if to_uint (size - 1) <=? to_uint (to_int (9 - y_cord sc)) then
        let sc := set_directionMessage EmptyString sc in
        let sc := set_ship w [] sc in
        place_loop (Z.to_nat size) 0 w
          (fun sc i => (x_cord sc, to_int (to_uint (y_cord sc) + i)))
          "Downward Unavailable" sc
      else set_directionMessage "Downward Unavailable" sc
  | LEFT =>
      if to_uint (size - 1) <=? to_uint (x_cord sc) then
        let sc := set_directionMessage EmptyString sc in
        let sc := set_ship w [] sc in
        place_loop (Z.to_nat size) 0 w
          (fun sc i => (to_int (to_uint (x_cord sc) - i), y_cord sc))
          "Leftward Unavailable" sc
      else set_directionMessage "Leftward Unavailable" sc
  end.

(** [ExampleApp::UpdateWarshipPosition]. *)
Definition UpdateWarshipPosition (a : ExampleApp) : ExampleApp :=
  match warshipMode a with
  | A_Ship => on_scene (placeWarship (directionMode a) A_Ship 5) a
  | B_Ship => on_scene (placeWarship (directionMode a) B_Ship 4) a
  | C_Ship => on_scene (placeWarship (directionMode a) C_Ship 3) a
  | S_Ship => on_scene (placeWarship (directionMode a) S_Ship 2) a
  | P_Ship => on_scene (placeWarship (directionMode a) P_Ship 2) a
  end.

(** [ExampleApp::UpdateButtonB]. *)
Definition UpdateButtonB (a : ExampleApp) : ExampleApp :=
  let a :=
    match directionMode a with
    | NONE => set_directionMode UP a
    | UP => set_directionMode RIGHT a
    | RIGHT => set_directionMode DOWN a
    | DOWN => set_directionMode LEFT a
    | LEFT => set_directionMode UP a
    end in
  UpdateWarshipPosition a.

(** The warships lie on the board, no warship holds a cell twice and no
    two warships share a cell. *)
Record fleet_ok (sc : Scene) : Prop := {
  fo_nodup : forall w, NoDup (ship_of w sc);
  fo_apart : forall w w' c,
    w <> w' -> In c (ship_of w sc) -> ~ In c (ship_of w' sc);
  fo_grid : forall w c,
    In c (ship_of w sc) -> in_grid (fst c) (snd c) = true
}.

(** The cell [k] steps from (x, y) in a direction. *)
Definition ahead (d : DirectionMode) (x y k : Z) : Z * Z :=
  match d with
  | NONE => (x, y)
  | UP => (x, y - k)
  | RIGHT => (x + k, y)
  | DOWN => (x, y + k)
  | LEFT => (x - k, y)
  end.

(** The [size] cells from the cursor in a direction. *)
Definition line (d : DirectionMode) (size : Z) (sc : Scene) : list (Z * Z) :=
  map (fun k => ahead d (x_cord sc) (y_cord sc) (Z.of_nat k))
      (seq 0 (Z.to_nat size)).

(** The scene without the cells of a warship and without the message on
    the direction. *)
Definition but_ship (w : WarshipMode) (sc : Scene) : Scene :=
  set_ship w [] (set_directionMessage EmptyString sc).

(** The number of MARKED cells of a board. *)
Definition marked_cells (b : board) : nat :=
  length (filter (fun c => cell b (fst c) (snd c) =? MARKED) all_cells).

(** A scene with the five warships side by side, each placed downwards
    from the top row. *)
Definition scene_with_fleet : Scene :=
  {| x_cord := 5; y_cord := 0;
     ship_A := [(0, 0); (0, 1); (0, 2); (0, 3); (0, 4)];
     ship_B := [(1, 0); (1, 1); (1, 2); (1, 3)];
     ship_C := [(2, 0); (2, 1); (2, 2)];
     ship_S := [(3, 0); (3, 1)];
     ship_P := [(4, 0); (4, 1)];
     myBoard := empty_board; rivalBoard := empty_board;
     selectedIdx := 0; numHits := 0; numDamages := 0;
     shipMessage := "Place P Ship"; directionMessage := EmptyString;
     endMessage := EmptyString;
     my_board_matrices := hundred_matrices;
     rival_board_matrices := hundred_matrices;
     my_board_positions := hundred_positions;
     rival_board_positions := hundred_positions |}.

Definition app_with_fleet : ExampleApp :=
  set_directionMode DOWN (set_warshipMode P_Ship (set_scene scene_with_fleet app_at_start)).

(** The cells of the five warships. *)
Definition all_ships : list WarshipMode :=
  [A_Ship; B_Ship; C_Ship; S_Ship; P_Ship].

Definition fleet_cells (sc : Scene) : list (Z * Z) :=
  flat_map (fun w => ship_of w sc) all_ships.

(** ** main.cpp: moving the cursor *)

(** [ExampleApp::ResetCurrentWarshipPosition]. *)
Definition ResetCurrentWarshipPosition (a : ExampleApp) : ExampleApp :=
  match warshipMode a with
  | A_Ship => on_scene (set_ship_A []) a
  | B_Ship => on_scene (set_ship_B []) a
  | C_Ship => on_scene (set_ship_C []) a
  | S_Ship => on_scene (set_ship_S []) a
  | P_Ship => on_scene (set_ship_P []) a
  end.

(** [ExampleApp::renderScene] in mode PREPARE while selecting: the four
    statements on the index and hand triggers.  [pressed] is the outcome
    of the comparison of the trigger with [0.5f]. *)
Definition trigger_left_index (pressed : bool) (a : ExampleApp) : ExampleApp :=
  if pressed then
    if negb (triggerLeftIndexClicked a) then
      let a := set_triggerLeftIndexClicked true a in
      if 0 <? x_cord (scene a) then
        let a := on_scene (fun sc => set_x_cord (x_cord sc - 1) sc) a in
        ResetCurrentWarshipPosition a
      else a
    else a
  else set_triggerLeftIndexClicked false a.

Definition trigger_right_index (pressed : bool) (a : ExampleApp) : ExampleApp :=
  if pressed then
    if negb (triggerRightIndexClicked a) then
      let a := set_triggerRightIndexClicked true a in
      if x_cord (scene a) <? 9 then
        let a := on_scene (fun sc => set_x_cord (x_cord sc + 1) sc) a in
        ResetCurrentWarshipPosition a
      else a
    else a
  else set_triggerRightIndexClicked false a.

Definition trigger_left_middle (pressed : bool) (a : ExampleApp) : ExampleApp :=
  if pressed then
    if negb (triggerLeftMiddleClicked a) then
      let a := set_triggerLeftMiddleClicked true a in
      if 0 <? y_cord (scene a) then
        let a := on_scene (fun sc => set_y_cord (y_cord sc - 1) sc) a in
        ResetCurrentWarshipPosition a
      else a
    else a
  else set_triggerLeftMiddleClicked false a.

Definition trigger_right_middle (pressed : bool) (a : ExampleApp) : ExampleApp :=
  if pressed then
    if negb (triggerRightMiddleClicked a) then
      let a := set_triggerRightMiddleClicked true a in
      if y_cord (scene a) <? 9 then
        let a := on_scene (fun sc => set_y_cord (y_cord sc + 1) sc) a in
        ResetCurrentWarshipPosition a
      else a
    else a
  else set_triggerRightMiddleClicked false a.

(** The state of the four triggers in a frame: left index, right index,
    left middle, right middle. *)
Record triggers := mkTriggers {
  left_index : bool;
  right_index : bool;
  left_middle : bool;
  right_middle : bool
}.

Definition prepare_triggers (a : ExampleApp) (t : triggers) : ExampleApp :=
  let a := trigger_left_index (left_index t) a in
  let a := trigger_right_index (right_index t) a in
  let a := trigger_left_middle (left_middle t) a in
  trigger_right_middle (right_middle t) a.

(** [Scene::render] in mode ON: the loop that selects the cell closest to
    the right hand, and the cursor taken from it.  [closer i] is the
    outcome of [currDistSq < minDistSq] in round [i].  [GRID_SIZE] is an
    [unsigned int], so the remainder and the quotient are taken in
    unsigned arithmetic and converted back to [int]; the subtraction
    before the quotient is one of [int], here with wrap-around. *)
Definition select_round (closer : Z -> bool) (sc : Scene) (i : Z) : Scene :=
  if closer i then set_selectedIdx i sc else sc.

Definition select_loop (closer : Z -> bool) (sc : Scene) : Scene :=
  fold_left (select_round closer)
    (map Z.of_nat (seq 0 (Z.to_nat (GRID_SIZE * GRID_SIZE)))) sc.

Definition select_cell (closer : Z -> bool) (sc : Scene) : Scene :=
  let sc := select_loop closer sc in
  let sc := set_x_cord (to_int (to_uint (selectedIdx sc) mod GRID_SIZE)) sc in
  set_y_cord
    (to_int (to_uint (to_int (selectedIdx sc - x_cord sc)) / GRID_SIZE)) sc.

Arguments select_loop : simpl never.
Arguments select_cell : simpl never.

(** What the trigger statements keep: the cursor on the board and the
    fleet in order. *)
Definition cursor_kept (a : ExampleApp) : Prop :=
  in_grid (x_cord (scene a)) (y_cord (scene a)) = true /\
  fleet_ok (scene a).

(** ** main.cpp: rendering the scene *)

(** The indices of the loops [for (int i = 0; i < GRID_SIZE*GRID_SIZE; i++)]. *)
Definition cell_indices : list Z :=
  map Z.of_nat (seq 0 (Z.to_nat (GRID_SIZE * GRID_SIZE))).

(** One read of [v[i]] in a loop that has come as far as [r]. *)
Definition then_read {A : Type} (v : list A) (r : outcome unit) (i : Z)
  : outcome unit :=
  u <- r ;;
  m <- vector_read v i ;;
  Ok tt.

(** [Scene::render], the branch [if (gameMode == PREPARE)]: the read of
    [rival_board_matrices[0]] for the note pad, then the loop over the
    hundred cells.  Every branch of its body reads [my_board_matrices[i]]
    once, warshipMode being one of its five values; what is drawn is left
    out. *)
Definition render_prepare (sc : Scene) : outcome unit :=
  m <- vector_read (rival_board_matrices sc) 0 ;;
  fold_left (then_read (my_board_matrices sc)) cell_indices (Ok tt).

(** [Scene::render] in mode ON, one round of the loop over the boards:
    [row] and [column] are taken in the unsigned arithmetic of
    [GRID_SIZE]; [my_board_matrices[i]] is read for a cell of myBoard that
    is EMPTY, MISSED or SHOOTED, or MARKED and found in a warship, and
    [rival_board_matrices[i]] for a cell of rivalBoard that is EMPTY,
    MISSED or SHOOTED. *)
Definition render_on_cell (sc : Scene) (r : outcome unit) (i : Z)
  : outcome unit :=
  u <- r ;;
  let row := to_int (to_uint i mod GRID_SIZE) in
  let column := to_int (to_uint (to_int (i - row)) / GRID_SIZE) in
  mine <- board_read (myBoard sc) row column ;;
  u <- (if mine =? EMPTY then then_read (my_board_matrices sc) (Ok tt) i
        else if mine =? MARKED then
          if in_fleet sc (row, column)
          then then_read (my_board_matrices sc) (Ok tt) i
          else Ok tt
        else if mine =? MISSED then then_read (my_board_matrices sc) (Ok tt) i
        else if mine =? SHOOTED then then_read (my_board_matrices sc) (Ok tt) i
        else Ok tt) ;;
  theirs <- board_read (rivalBoard sc) row column ;;
  if theirs =? EMPTY then then_read (rival_board_matrices sc) (Ok tt) i
  else if theirs =? MISSED then then_read (rival_board_matrices sc) (Ok tt) i
  else if theirs =? SHOOTED then then_read (rival_board_matrices sc) (Ok tt) i
  else Ok tt.

(** [Scene::render], the branch [if (gameMode == ON)].  Each round of the
    selection loop reads [rival_board_matrices[i]] before it compares; the
    reads are put before [select_cell] here, since a read outside the
    vector ends the call in either order. *)
Definition render_on (closer : Z -> bool) (sc : Scene) : outcome Scene :=
  u <- fold_left (then_read (rival_board_matrices sc)) cell_indices (Ok tt) ;;
  let sc := select_cell closer sc in
  u <- fold_left (render_on_cell sc) cell_indices (Ok tt) ;;
  Ok sc.

(** [Scene::render]: the three tests on the global [gameMode] in turn;
    the matrices of the hands and the text are left out. *)
Definition Scene_render (closer : Z -> bool) (a : ExampleApp)
  : outcome ExampleApp :=
  a <- (if GameMode_eqb (gameMode a) PREPARE
        then u <- render_prepare (scene a) ;; Ok a
        else Ok a) ;;
  a <- (if GameMode_eqb (gameMode a) ON
        then sc <- render_on closer (scene a) ;; Ok (set_scene sc a)
        else Ok a) ;;
  if GameMode_eqb (gameMode a) END then
    match resultMode a with
    | WIN =>
        Ok (on_scene
              (set_endMessage "Congraduations! You Have Won the Battle.") a)
    | LOSE =>
        Ok (on_scene
              (set_endMessage "Unfortunately You Just Lost the Battle.") a)
    end
  else Ok a.

(** ** main.cpp: a call of renderScene *)

(** What [ovr_GetInputState] delivers: the four triggers compared with
    [0.5f] and the four buttons. *)
Record controller := mkController {
  trigger_state : triggers;
  button_A : bool;
  button_B : bool;
  button_X : bool;
  button_Y : bool
}.

(** What a call of [renderScene] takes from outside: the controller state
    of each of its three calls of [ovr_GetInputState] ([None] when the
    call fails), the outcome of [dist < 0.09f], the outcomes of the
    comparisons of the selection loop, the values [rand()] returns to
    [RandomNewPosition], two for each draw, what the network delivers and
    the global [HeadPose]. *)
Record frame_input := mkFrame {
  in_prepare : option controller;
  in_warship : option controller;
  in_on : option controller;
  in_near : bool;
  in_closer : Z -> bool;
  in_draws : list (Z * Z);
  in_tick : tick_input;
  in_HeadPose : mat4
}.

(** [ExampleApp::RandomNewPosition]: a draw [(ry, rx)] holds the two
    values of [rand()] in the order of the calls; the loop goes on until a
    position is available, and does not end when the draws run out. *)
Fixpoint RandomNewPosition (draws : list (Z * Z)) (sc : Scene)
  : outcome (Z * Z) :=
  match draws with
  | [] => Err OutOfFuel
  | (ry, rx) :: rest =>
      let rand_y := Z.rem ry 10 in
      let rand_x := Z.rem rx 10 in
      if checkAvailability sc (rand_x, rand_y)
      then Ok (rand_x, rand_y)
      else RandomNewPosition rest sc
  end.

(** [ExampleApp::UpdateButtonA]. *)
Definition UpdateButtonA (draws : list (Z * Z)) (a : ExampleApp)
  : outcome ExampleApp :=
  let a :=
    match warshipMode a with
    | A_Ship =>
        on_scene (set_shipMessage "Place B Ship") (set_warshipMode B_Ship a)
    | B_Ship =>
        on_scene (set_shipMessage "Place C Ship") (set_warshipMode C_Ship a)
    | C_Ship =>
        on_scene (set_shipMessage "Place S Ship") (set_warshipMode S_Ship a)
    | S_Ship =>
        on_scene (set_shipMessage "Place P Ship") (set_warshipMode P_Ship a)
    | P_Ship =>
        on_scene (set_shipMessage "Place A Ship") (set_warshipMode A_Ship a)
    end in
  newPos <- RandomNewPosition draws (scene a) ;;
  let a := on_scene (set_x_cord (fst newPos)) a in
  let a := on_scene (set_y_cord (snd newPos)) a in
  Ok a.

(** [renderScene], the statements on the buttons A, B and X in mode
    PREPARE: a button acts when it goes down, not while it is held. *)
Definition press_A (c : controller) (draws : list (Z * Z)) (a : ExampleApp)
  : outcome ExampleApp :=
  if button_A c then
    if negb (buttonAPressed a)
    then UpdateButtonA draws (set_buttonAPressed true a)
    else Ok a
  else Ok (set_buttonAPressed false a).

Definition press_B (c : controller) (a : ExampleApp) : ExampleApp :=
  if button_B c then
    if negb (buttonBPressed a)
    then UpdateButtonB (set_buttonBPressed true a)
    else a
  else set_buttonBPressed false a.

Definition press_X (c : controller) (a : ExampleApp) : outcome ExampleApp :=
  if button_X c then
    if negb (buttonXPressed a)
    then UpdateButtonX (set_buttonXPressed true a)
    else Ok a
  else Ok (set_buttonXPressed false a).

(** [renderScene], the block [if (gameMode == PREPARE)]. *)
Definition renderScene_prepare (inp : frame_input) (a : ExampleApp)
  : outcome ExampleApp :=
  if GameMode_eqb (gameMode a) PREPARE then
    if SelectingMode_eqb (selectingMode a) SELECTING then
      match in_prepare inp with
      | Some c =>
          let a := prepare_triggers a (trigger_state c) in
          a <- press_A c (in_draws inp) a ;;
          let a := press_B c a in
          a <- press_X c a ;;
          Ok (UpdateWarshipPosition a)
      | None => Ok a
      end
    else Ok a
  else Ok a.

(** [renderScene], the block that follows, for a fleet that is confirmed
    or a game that is on; [RenderWarship] is empty. *)
Definition renderScene_warship (inp : frame_input) (a : ExampleApp)
  : ExampleApp :=
  if (GameMode_eqb (gameMode a) PREPARE
      && SelectingMode_eqb (selectingMode a) DONE)
     || GameMode_eqb (gameMode a) ON then
    match in_warship inp with
    | Some c =>
        if button_A c then set_buttonAPressed true a
        else if buttonAPressed a then set_buttonAPressed false a
        else a
    | None => a
    end
  else a.

(** [renderScene], the block [if (gameMode == ON)]. *)
Definition renderScene_on (inp : frame_input) (a : ExampleApp)
  : outcome ExampleApp :=
  if GameMode_eqb (gameMode a) ON then
    match in_on inp with
    | Some c =>
        if button_Y c then
          if negb (buttonYPressed a)
          then UpdateButtonY (set_buttonYPressed true a)
          else Ok a
        else Ok (set_buttonYPressed false a)
    | None => Ok a
    end
  else Ok a.

(** [renderScene] up to the call [server->update()]. *)
Definition renderScene_head (inp : frame_input) (a : ExampleApp)
  : outcome ExampleApp :=
  let a := renderScene_modes a in
  a <- renderScene_prepare inp a ;;
  let a := renderScene_warship inp a in
  a <- renderScene_on inp a ;;
  a <- renderScene_end (in_near inp) a ;;
  Scene_render (in_closer inp) a.

(** [ExampleApp::renderScene], one call of it. *)
Definition renderScene (inp : frame_input) (a : ExampleApp)
  : outcome ExampleApp :=
  a <- renderScene_head inp a ;;
  renderScene_server (in_tick inp) (in_HeadPose inp) a.

(** What the part of [renderScene] before [server->update()] keeps: the
    attack and the damage received, and boards of ten rows of ten. *)
Definition incoming_kept (a a' : ExampleApp) : Prop :=
  other_attack (server a') = other_attack (server a) /\
  other_damage (server a') = other_damage (server a) /\
  (board_ok (myBoard (scene a)) /\ board_ok (rivalBoard (scene a)) ->
   board_ok (myBoard (scene a')) /\ board_ok (rivalBoard (scene a'))).

Arguments render_prepare : simpl never.
Arguments render_on : simpl never.

(** ** Concrete calls *)

(** myBoard with the cell (0,4) MISSED and every other cell EMPTY. *)
Definition board_missed_0_4 : board :=
  list_set 0 (list_set 4 MISSED (repeat EMPTY 10)) empty_board.

(** A player about to confirm the fleet, the cursor on the patrol boat,
    while an attack on (0,4), which missed when it arrived, is still in
    other_attack. *)
Definition app_pending : ExampleApp :=
  on_server (set_other_attack (0, 4))
    (on_scene (fun sc => set_myBoard board_missed_0_4 (set_x_cord 4 sc))
       app_with_fleet).

(** A call in which button X goes down, nothing else is pressed and
    nothing arrives. *)
Definition confirm_input : frame_input :=
  {| in_prepare :=
       Some (mkController (mkTriggers false false false false)
               false false true false);
     in_warship := None; in_on := None;
     in_near := false; in_closer := fun _ => false; in_draws := [];
     in_tick := quiet_tick; in_HeadPose := mat4_identity |}.

(** A call in which the right hand touches the sculpture. *)
Definition restart_input : frame_input :=
  {| in_prepare := None; in_warship := None; in_on := None;
     in_near := true; in_closer := fun _ => false; in_draws := [];
     in_tick := quiet_tick; in_HeadPose := mat4_identity |}.

(** ** Codec lemmas *)

Lemma le32_uint v : is_uint v -> le_value (le32 v) = v.
Proof.
  unfold is_uint, UINT_MOD, le32. intros H. cbn [le_value].
  pose proof (Z.div_mod v 256 ltac:(lia)).
  pose proof (Z.div_mod (v / 256) 256 ltac:(lia)).
  pose proof (Z.div_mod (v / 256 / 256) 256 ltac:(lia)).
  replace (v / 65536) with (v / 256 / 256)
    by (rewrite Z.div_div by lia; reflexivity).
  replace (v / 16777216) with (v / 256 / 256 / 256)
    by (rewrite !Z.div_div by lia; reflexivity).
  assert (0 <= v / 256 / 256 / 256 < 256).
  { split.
    - repeat apply Z.div_pos; lia.
    - repeat (apply Z.div_lt_upper_bound; [lia|]). lia. }
  rewrite (Z.mod_small (v / 256 / 256 / 256) 256) by lia. lia.
Qed.

Lemma le32_int v : is_int v -> to_int (le_value (le32 v)) = v.
Proof.
  unfold is_int, INT_MIN, INT_MAX. intros H.
  assert (E : le_value (le32 v) = v mod UINT_MOD).
  { unfold le32, UINT_MOD. cbn [le_value].
    pose proof (Z.div_mod v 256 ltac:(lia)).
    pose proof (Z.div_mod (v / 256) 256 ltac:(lia)).
    pose proof (Z.div_mod (v / 256 / 256) 256 ltac:(lia)).
    pose proof (Z.div_mod (v / 256 / 256 / 256) 256 ltac:(lia)).
    replace (v / 65536) with (v / 256 / 256)
      by (rewrite Z.div_div by lia; reflexivity).
    replace (v / 16777216) with (v / 256 / 256 / 256)
      by (rewrite !Z.div_div by lia; reflexivity).
    pose proof (Z.mod_pos_bound v 256 ltac:(lia)).
    pose proof (Z.mod_pos_bound (v / 256) 256 ltac:(lia)).
    pose proof (Z.mod_pos_bound (v / 256 / 256) 256 ltac:(lia)).
    pose proof (Z.mod_pos_bound (v / 256 / 256 / 256) 256 ltac:(lia)).
    apply (Z.mod_unique_pos v 4294967296 (v / 256 / 256 / 256 / 256)); lia. }
  rewrite E. unfold to_int. rewrite Z.mod_mod by (unfold UINT_MOD; lia).
  unfold UINT_MOD, INT_MAX.
  destruct (Z_lt_le_dec v 0) as [Hn | Hp].
  - assert (Em : v mod 4294967296 = v + 4294967296).
    { symmetry. apply (Z.mod_unique_pos v 4294967296 (-1)); lia. }
    rewrite Em. destruct (Z.leb_spec (v + 4294967296) 2147483647); lia.
  - rewrite Z.mod_small by lia.
    destruct (Z.leb_spec v 2147483647); lia.
Qed.

Lemma bool_byte_roundtrip b : negb (bool_byte b + 256 * 0 =? 0) = b.
Proof. destruct b; reflexivity. Qed.

Lemma length_le32 v : length (le32 v) = 4%nat.
Proof. reflexivity. Qed.

Lemma length_serialize p : Z.of_nat (length (serialize p)) = sizeof_Packet.
Proof. reflexivity. Qed.

(** Reading a whole object back out of memory that starts with its
    representation, whatever follows it. *)
Lemma roundtrip_in_memory p rest :
  Packet_ok p -> deserialize (serialize p ++ rest) = Some p.
Proof.
  destruct p as [ty [ax ay] [dx dy] dn [[a0 a1 a2 a3] [b0 b1 b2 b3]
                                        [c0 c1 c2 c3] [d0 d1 d2 d3]]].
  unfold Packet_ok, mat4_ok, vec4_ok.
  cbn [packet_type attack damage done headPose fst snd
       col0 col1 col2 col3 vx vy vz vw].
  intros (Hty & Hax & Hay & Hdx & Hdy & (A0 & A1 & A2 & A3) & (B0 & B1 & B2 & B3)
          & (C0 & C1 & C2 & C3) & (D0 & D1 & D2 & D3)).
  unfold deserialize, serialize, object_bytes, mat4_bytes, vec4_bytes.
  cbn [packet_type attack damage done headPose fst snd
       col0 col1 col2 col3 vx vy vz vw].
  unfold le32.
  change (Z.to_nat sizeof_Packet) with 88%nat.
  cbn [app firstn length].
  change (Z.of_nat 88 =? sizeof_Packet) with true. cbv iota.
  unfold of_object_bytes, load_mat4, load_vec4, load_uint, load_int, load_bool,
    load, off_packet_type, off_attack, off_damage, off_done, off_headPose.
  cbn [Nat.add skipn firstn].
  repeat match goal with
         | |- context [le_value [?v mod 256; (?v / 256) mod 256;
                                 (?v / 65536) mod 256; (?v / 16777216) mod 256]] =>
             change [v mod 256; (v / 256) mod 256;
                     (v / 65536) mod 256; (v / 16777216) mod 256] with (le32 v)
         end.
  rewrite !le32_int by assumption.
  rewrite !le32_uint by assumption.
  cbn [le_value]. rewrite bool_byte_roundtrip. reflexivity.
Qed.

(** From memory that holds at least [sizeof(Packet)] bytes the copy always
    yields a packet, whatever the bytes are. *)
Lemma deserialize_enough data :
  sizeof_Packet <= Z.of_nat (length data) ->
  deserialize data =
  Some (of_object_bytes (firstn (Z.to_nat sizeof_Packet) data)).
Proof.
  intros H. unfold deserialize.
  rewrite length_firstn, Nat.min_l by (unfold sizeof_Packet in *; lia).
  rewrite Z2Nat.id by (unfold sizeof_Packet; lia).
  rewrite Z.eqb_refl. reflexivity.
Qed.

(** From an array that ends earlier the copy would read past its end. *)
Lemma deserialize_short data :
  Z.of_nat (length data) < sizeof_Packet -> deserialize data = None.
Proof.
  intros H. unfold deserialize.
  rewrite length_firstn, Nat.min_r by (unfold sizeof_Packet in *; lia).
  destruct (Z.eqb_spec (Z.of_nat (length data)) sizeof_Packet); [lia | reflexivity].
Qed.

Lemma le32_bytes v : Forall is_byte (le32 v).
Proof.
  unfold le32, is_byte.
  repeat constructor; apply Z.mod_pos_bound; reflexivity.
Qed.

Lemma serialize_bytes p : Forall is_byte (serialize p).
Proof.
  unfold serialize, object_bytes, mat4_bytes, vec4_bytes.
  repeat (apply Forall_app; split); try apply le32_bytes.
  unfold is_byte. destruct (done p); repeat constructor; discriminate.
Qed.

(** C1. For every packet, decoding the byte record produced by encoding it
    yields that packet again: deserialize after serialize is the identity
    on the values a Packet object can hold, and the record is a string of
    bytes of the fixed size sizeof(Packet). *)
Theorem deserialize_serialize (p : Packet) :
  Packet_ok p ->
  deserialize (serialize p) = Some p /\
  Z.of_nat (length (serialize p)) = sizeof_Packet /\
  Forall is_byte (serialize p).
Proof.
  intros Hp. split; [| split; [apply length_serialize | apply serialize_bytes]].
  rewrite <- (app_nil_r (serialize p)). apply roundtrip_in_memory, Hp.
Qed.

Lemma action_3_4_ok : Packet_ok action_3_4.
Proof.
  unfold Packet_ok, mat4_ok, vec4_ok, is_uint, is_int, INT_MIN, INT_MAX, UINT_MOD.
  unfold action_3_4, mat4_identity, one_f, ACTION_EVENT. cbn. lia.
Qed.

Lemma deserialize_serialize_witness :
  Packet_ok action_3_4 /\
  deserialize (serialize action_3_4) = Some action_3_4.
Proof.
  split; [exact action_3_4_ok |].
  apply (deserialize_serialize action_3_4 action_3_4_ok).
Defined.

(** ** Trace projections over concatenation *)

Lemma broadcasts_app tr1 tr2 :
  broadcasts (tr1 ++ tr2) = broadcasts tr1 ++ broadcasts tr2.
Proof.
  induction tr1 as [| e tr1 IH]; [reflexivity |].
  destruct e; cbn [app broadcasts]; rewrite IH; reflexivity.
Qed.

Lemma decoded_app tr1 tr2 :
  decoded (tr1 ++ tr2) = decoded tr1 ++ decoded tr2.
Proof.
  induction tr1 as [| e tr1 IH]; [reflexivity |].
  destruct e; cbn [app decoded]; rewrite IH; reflexivity.
Qed.

Lemma assigned_ids_cons e tr :
  assigned_ids (e :: tr) = assigned_ids [e] ++ assigned_ids tr.
Proof.
  destruct e as [msg [| id [| id' args]] | p | b r]; try reflexivity.
  cbn [assigned_ids]. destruct (String.eqb msg connected_msg); reflexivity.
Qed.

Lemma assigned_ids_app tr1 tr2 :
  assigned_ids (tr1 ++ tr2) = assigned_ids tr1 ++ assigned_ids tr2.
Proof.
  induction tr1 as [| e tr1 IH]; [reflexivity |].
  cbn [app]. rewrite assigned_ids_cons, IH, (assigned_ids_cons e tr1).
  now rewrite app_assoc.
Qed.

(** ** The broadcast *)

Lemma firstn_serialize p :
  firstn (Z.to_nat sizeof_Packet) (serialize p) = serialize p.
Proof. apply firstn_all2. reflexivity. Qed.

Lemma sendActionPackets_trace s :
  trace (sendActionPackets s) =
  trace s ++ [SendToAll (serialize (outgoing s)) (session_ids s)].
Proof.
  unfold sendActionPackets, sendToAll, emit. cbn.
  rewrite firstn_serialize. reflexivity.
Qed.

(** C4. Every broadcast builds a packet of kind ACTION_EVENT from the
    current my_attack, my_damage, my_headPose and my_done, encodes it once
    and sends those bytes to all sessions (one [SendToAll] of the encoded
    packet, addressed to every registered identifier and delivering the
    same bytes to each); afterwards my_attack and my_damage are the
    sentinel (-1,-1), my_headPose and my_done are unchanged, and so are the
    incoming mirrored fields other_attack, other_damage, other_headPose,
    other_done and game_mode. *)
Theorem sendActionPackets_spec (s : ServerGame) :
  let s' := sendActionPackets s in
  let packet := mkPacket ACTION_EVENT (my_attack s) (my_damage s)
                         (my_done s) (my_headPose s) in
  trace s' = trace s ++ [SendToAll (serialize packet) (session_ids s)] /\
  deliveries (SendToAll (serialize packet) (session_ids s)) =
    map (fun id => (id, serialize packet)) (session_ids s) /\
  my_attack s' = sentinel /\
  my_damage s' = sentinel /\
  my_headPose s' = my_headPose s /\
  my_done s' = my_done s /\
  other_attack s' = other_attack s /\
  other_damage s' = other_damage s /\
  other_headPose s' = other_headPose s /\
  other_done s' = other_done s /\
  game_mode s' = game_mode s.
Proof.
  cbv zeta. split; [apply sendActionPackets_trace |].
  repeat split.
Qed.

(** What a broadcast leaves alone besides the peer state. *)
Lemma sendActionPackets_frame s :
  network (sendActionPackets s) = network s /\
  network_data (sendActionPackets s) = network_data s /\
  client_id (sendActionPackets s) = client_id s.
Proof. repeat split. Qed.

(** ** One decoded record *)

Lemma handle_packet_frame p s :
  network (handle_packet p s) = network s /\
  network_data (handle_packet p s) = network_data s /\
  client_id (handle_packet p s) = client_id s.
Proof.
  unfold handle_packet.
  destruct (packet_type p =? INIT_CONNECTION); [repeat split |].
  destruct (packet_type p =? ACTION_EVENT); [| repeat split].
  destruct (negb (fst (attack p) =? -1)), (negb (fst (damage p) =? -1));
    repeat split.
Qed.

Lemma handle_packet_game_mode p s :
  game_mode s = true -> game_mode (handle_packet p s) = true.
Proof.
  intros H. unfold handle_packet.
  destruct (packet_type p =? INIT_CONNECTION); [exact H |].
  destruct (packet_type p =? ACTION_EVENT); [| exact H].
  destruct (negb (fst (attack p) =? -1)), (negb (fst (damage p) =? -1));
    cbn; auto.
Qed.

(** C8. For every decoded Init record no incoming mirrored field
    (other_attack, other_damage, other_headPose, other_done, game_mode) is
    modified, and exactly one broadcast of the current outgoing state is
    triggered at once: the trace grows by the printf line and a single
    [SendToAll] that carries the encoding of the outgoing members and
    delivers these same bytes to every registered session. *)
Theorem init_record_broadcasts_once (p : Packet) (s : ServerGame) :
  packet_type p = INIT_CONNECTION ->
  let s' := handle_packet p s in
  other_attack s' = other_attack s /\
  other_damage s' = other_damage s /\
  other_headPose s' = other_headPose s /\
  other_done s' = other_done s /\
  game_mode s' = game_mode s /\
  trace s' = trace s ++
    [Printf "server received init packet from client\n" [];
     SendToAll (serialize (outgoing s)) (session_ids s)] /\
  broadcasts (trace s') =
    broadcasts (trace s) ++ [(serialize (outgoing s), session_ids s)] /\
  (forall id, In id (session_ids s) ->
     In (id, serialize (outgoing s))
        (deliveries (SendToAll (serialize (outgoing s)) (session_ids s)))).
Proof.
  intros Hty. cbv zeta. unfold handle_packet. rewrite Hty, Z.eqb_refl.
  cbv iota zeta.
  assert (Htr : trace (sendActionPackets
                  (emit (Printf "server received init packet from client\n" []) s)) =
          trace s ++ [Printf "server received init packet from client\n" [];
                      SendToAll (serialize (outgoing s)) (session_ids s)]).
  { rewrite sendActionPackets_trace. cbn. rewrite <- app_assoc. reflexivity. }
  repeat split; try exact Htr.
  - rewrite Htr, broadcasts_app. reflexivity.
  - intros id Hin. cbn [deliveries]. apply in_map_iff. exists id. split; auto.
Qed.

Lemma init_record_broadcasts_once_witness :
  packet_type init_packet = INIT_CONNECTION /\
  broadcasts (trace (handle_packet init_packet two_sessions)) =
    broadcasts (trace two_sessions) ++
    [(serialize (outgoing two_sessions), session_ids two_sessions)].
Proof.
  split; [reflexivity |].
  apply (init_record_broadcasts_once init_packet two_sessions). reflexivity.
Defined.

(** The merge of an ACTION_EVENT record, member by member. *)
Lemma action_record_merge p s :
  packet_type p = ACTION_EVENT ->
  let s' := handle_packet p s in
  other_attack s' = (if fst (attack p) =? -1 then other_attack s else attack p) /\
  game_mode s' = (if fst (attack p) =? -1 then game_mode s else true) /\
  other_damage s' = (if fst (damage p) =? -1 then other_damage s else damage p) /\
  other_done s' = done p /\
  other_headPose s' = headPose p /\
  trace s' = trace s ++ [SendToAll (serialize (outgoing s)) (session_ids s)].
Proof.
  intros Hty. cbv zeta. unfold handle_packet. rewrite Hty.
  change (ACTION_EVENT =? INIT_CONNECTION) with false.
  rewrite Z.eqb_refl. cbv iota zeta.
  rewrite sendActionPackets_trace.
  destruct (fst (attack p) =? -1), (fst (damage p) =? -1); cbn; repeat split.
Qed.

(** C2, with presence decided as the code decides it.  For every decoded
    ACTION_EVENT record merged into peer state: if the first coordinate of
    its attack is not -1, other_attack is set to that attack and game_mode
    to true, otherwise both are unchanged; if the first coordinate of its
    damage is not -1, other_damage is set to that damage, otherwise it is
    unchanged; other_done and other_headPose are overwritten with the
    record's done and headPose; and exactly one broadcast of the outgoing
    state is triggered for the record.  For a pair that is a grid cell or
    the sentinel, a first coordinate other than -1 is the same as not being
    the sentinel. *)
Theorem action_record_merged (p : Packet) (s : ServerGame) :
  packet_type p = ACTION_EVENT ->
  let s' := handle_packet p s in
  (fst (attack p) <> -1 -> other_attack s' = attack p /\ game_mode s' = true) /\
  (fst (attack p) = -1 ->
     other_attack s' = other_attack s /\ game_mode s' = game_mode s) /\
  (fst (damage p) <> -1 -> other_damage s' = damage p) /\
  (fst (damage p) = -1 -> other_damage s' = other_damage s) /\
  other_done s' = done p /\
  other_headPose s' = headPose p /\
  broadcasts (trace s') =
    broadcasts (trace s) ++ [(serialize (outgoing s), session_ids s)] /\
  (forall c, grid_cell c \/ c = sentinel -> (fst c <> -1 <-> c <> sentinel)).
Proof.
  intros Hty. cbv zeta.
  destruct (action_record_merge p s Hty) as (Ha & Hg & Hd & Hdn & Hh & Htr).
  rewrite Ha, Hg, Hd, Hdn, Hh, Htr, broadcasts_app.
  split; [| split; [| split; [| split; [| split; [| split; [| split]]]]]].
  - intros Hne.
    destruct (Z.eqb_spec (fst (attack p)) (-1)); [contradiction | split; reflexivity].
  - intros He. rewrite He, Z.eqb_refl. split; reflexivity.
  - intros Hne.
    destruct (Z.eqb_spec (fst (damage p)) (-1)); [contradiction | reflexivity].
  - intros He. rewrite He, Z.eqb_refl. reflexivity.
  - reflexivity.
  - reflexivity.
  - reflexivity.
  - intros c Hc. split.
    + intros Hf Hs. subst c. apply Hf. reflexivity.
    + intros Hs Hf. destruct Hc as [[[H1 _] _] | ->]; [lia | apply Hs; reflexivity].
Qed.

Lemma action_record_merged_witness :
  packet_type action_3_4 = ACTION_EVENT /\
  other_attack (handle_packet action_3_4 fresh_server) = (3, 4) /\
  game_mode (handle_packet action_3_4 fresh_server) = true.
Proof.
  split; [reflexivity |].
  apply (action_record_merged action_3_4 fresh_server); [reflexivity |].
  cbn. lia.
Defined.

(** C2 as stated fails: the attack (-1, 5) is not the sentinel (-1,-1), yet
    merging the record neither sets other_attack to it nor sets game_mode
    to true. *)
Lemma action_record_not_sentinel_ignored :
  packet_type action_m1_5 = ACTION_EVENT /\
  attack action_m1_5 <> sentinel /\
  other_attack (handle_packet action_m1_5 waiting_server) <> attack action_m1_5 /\
  other_attack (handle_packet action_m1_5 waiting_server) = (-1, -1) /\
  game_mode (handle_packet action_m1_5 waiting_server) = false.
Proof.
  repeat split; try discriminate.
Qed.

(** C9. The merge decides presence of attack, and likewise of damage, by
    testing only the first coordinate against -1: an ACTION_EVENT record
    with attack (-1, y), for any y, leaves other_attack and game_mode
    unchanged, and one with attack (x, y), x <> -1, sets other_attack to
    (x, y) whatever y is, valid grid cell or not; the same holds for damage
    and other_damage. *)
Theorem presence_tests_first_coordinate (p : Packet) (s : ServerGame) (x y : Z) :
  packet_type p = ACTION_EVENT ->
  let s' := handle_packet p s in
  (attack p = (-1, y) ->
     other_attack s' = other_attack s /\ game_mode s' = game_mode s) /\
  (attack p = (x, y) -> x <> -1 ->
     other_attack s' = (x, y) /\ game_mode s' = true) /\
  (damage p = (-1, y) -> other_damage s' = other_damage s) /\
  (damage p = (x, y) -> x <> -1 -> other_damage s' = (x, y)).
Proof.
  intros Hty. cbv zeta.
  destruct (action_record_merge p s Hty) as (Ha & Hg & Hd & _).
  rewrite Ha, Hg, Hd.
  split; [| split; [| split]].
  - intros E. rewrite E. cbn [fst]. rewrite Z.eqb_refl. split; reflexivity.
  - intros E Hx. rewrite E. cbn [fst].
    destruct (Z.eqb_spec x (-1)); [contradiction | split; reflexivity].
  - intros E. rewrite E. cbn [fst]. rewrite Z.eqb_refl. reflexivity.
  - intros E Hx. rewrite E. cbn [fst].
    destruct (Z.eqb_spec x (-1)); [contradiction | reflexivity].
Qed.

Lemma presence_tests_first_coordinate_witness :
  packet_type action_3_m7 = ACTION_EVENT /\
  attack action_3_m7 = (3, -7) /\ 3 <> -1 /\
  damage action_3_m7 = (-1, 2) /\
  other_attack (handle_packet action_3_m7 waiting_server) = (3, -7) /\
  game_mode (handle_packet action_3_m7 waiting_server) = true /\
  other_damage (handle_packet action_3_m7 waiting_server) =
    other_damage waiting_server /\
  other_attack (handle_packet action_m1_5 waiting_server) =
    other_attack waiting_server.
Proof.
  split; [reflexivity |]. split; [reflexivity |]. split; [lia |].
  split; [reflexivity |].
  pose proof (presence_tests_first_coordinate
                action_3_m7 waiting_server 3 (-7) eq_refl) as H37.
  pose proof (presence_tests_first_coordinate
                action_3_m7 waiting_server (-1) 2 eq_refl) as H12.
  pose proof (presence_tests_first_coordinate
                action_m1_5 waiting_server (-1) 5 eq_refl) as H15.
  cbv zeta in H37, H12, H15.
  destruct H37 as (_ & Hset & _).
  destruct H12 as (_ & _ & Hkeep & _).
  destruct H15 as (Hskip & _).
  destruct (Hset eq_refl ltac:(lia)) as [E1 E2].
  split; [exact E1 |]. split; [exact E2 |].
  split; [exact (Hkeep eq_refl) |].
  exact (proj1 (Hskip eq_refl)).
Defined.

(** ** One iteration of the receive loop *)

Lemma process_record_frame s p :
  network (process_record s p) = network s /\
  network_data (process_record s p) = network_data s /\
  client_id (process_record s p) = client_id s.
Proof.
  unfold process_record.
  destruct (handle_packet_frame p (emit (Deserialized p) s)) as (-> & -> & ->).
  repeat split.
Qed.

Lemma process_records_frame ps s :
  network (process_records ps s) = network s /\
  network_data (process_records ps s) = network_data s /\
  client_id (process_records ps s) = client_id s.
Proof.
  revert s. induction ps as [| p ps IH]; intros s; [repeat split |].
  cbn [process_records fold_left]. fold (process_records ps (process_record s p)).
  destruct (IH (process_record s p)) as (-> & -> & ->).
  apply process_record_frame.
Qed.

Lemma process_records_app ps qs s :
  process_records (ps ++ qs) s = process_records qs (process_records ps s).
Proof. unfold process_records. apply fold_left_app. Qed.

Lemma process_record_game_mode s p :
  game_mode s = true -> game_mode (process_record s p) = true.
Proof. intros H. unfold process_record. apply handle_packet_game_mode. exact H. Qed.

Lemma process_records_game_mode ps s :
  game_mode s = true -> game_mode (process_records ps s) = true.
Proof.
  revert s. induction ps as [| p ps IH]; intros s H; [exact H |].
  cbn [process_records fold_left]. apply IH, process_record_game_mode, H.
Qed.

Lemma process_record_trace s p :
  exists reaction,
    trace (process_record s p) = trace s ++ Deserialized p :: reaction /\
    map kind_of (Deserialized p :: reaction) = iteration_kinds p /\
    decoded reaction = [] /\
    length (broadcasts reaction) =
      (if (packet_type p =? INIT_CONNECTION) || (packet_type p =? ACTION_EVENT)
       then 1%nat else 0%nat).
Proof.
  unfold process_record, handle_packet, iteration_kinds.
  destruct (packet_type p =? INIT_CONNECTION).
  - eexists. rewrite sendActionPackets_trace. cbn [emit trace set_trace].
    rewrite <- !app_assoc. cbn [app]. repeat split.
  - destruct (packet_type p =? ACTION_EVENT).
    + eexists. rewrite sendActionPackets_trace.
      destruct (negb (fst (attack p) =? -1)), (negb (fst (damage p) =? -1));
        cbn; rewrite <- !app_assoc; cbn [app]; repeat split.
    + eexists. cbn. rewrite <- !app_assoc. cbn [app]. repeat split.
Qed.

Lemma process_records_trace ps s :
  exists evs,
    trace (process_records ps s) = trace s ++ evs /\
    map kind_of evs = flat_map iteration_kinds ps /\
    decoded evs = ps.
Proof.
  revert s. induction ps as [| p ps IH]; intros s.
  - exists []. cbn. rewrite app_nil_r. repeat split.
  - cbn [process_records fold_left]. fold (process_records ps (process_record s p)).
    destruct (IH (process_record s p)) as (evs & Ht & Hk & Hd).
    destruct (process_record_trace s p) as (re & Ht1 & Hk1 & Hd1 & _).
    exists ((Deserialized p :: re) ++ evs). split; [| split].
    + rewrite Ht, Ht1, <- app_assoc. reflexivity.
    + rewrite map_app, Hk1, Hk. reflexivity.
    + rewrite decoded_app. cbn [decoded]. rewrite Hd1, Hd. reflexivity.
Qed.

(** ** The walk over [network_data] *)

Lemma to_uint_small v : 0 <= v < UINT_MOD -> to_uint v = v.
Proof. intros H. unfold to_uint. apply Z.mod_small. exact H. Qed.

Lemma to_int_small v : 0 <= v <= INT_MAX -> to_int v = v.
Proof.
  unfold to_int, INT_MAX, UINT_MOD. intros H.
  rewrite Z.mod_small by lia.
  destruct (Z.leb_spec v 2147483647); lia.
Qed.

(** The loop makes one iteration for every started stretch of
    [sizeof(Packet)] bytes below [data_length]: with [n] such stretches
    from [i] on, all inside the array, it decodes the [n] objects that
    start at [i], in order, and hands each to the switch. *)
Lemma record_loop_walk n :
  forall fuel data_length i s,
    0 <= i ->
    0 <= data_length ->
    data_length <= i + sizeof_Packet * Z.of_nat n ->
    i + sizeof_Packet * Z.of_nat n < data_length + sizeof_Packet ->
    i + sizeof_Packet * Z.of_nat n <= Z.of_nat (length (network_data s)) ->
    Z.of_nat (length (network_data s)) <= MAX_PACKET_SIZE ->
    (n <= fuel)%nat ->
    record_loop fuel data_length i s =
    Done (process_records
            (records_from n (skipn (Z.to_nat i) (network_data s))) s).
Proof.
  unfold sizeof_Packet, MAX_PACKET_SIZE.
  induction n as [| n IH]; intros fuel L i s Hi HL Hle Hlt Hbuf Hmax Hfuel.
  - assert (Hcond : (to_uint i <? to_uint L) = false).
    { rewrite !to_uint_small by (unfold UINT_MOD; lia).
      apply Z.ltb_ge. lia. }
    destruct fuel; cbn [record_loop]; rewrite Hcond; reflexivity.
  - destruct fuel as [| fuel]; [lia |].
    assert (Hcond : (to_uint i <? to_uint L) = true).
    { rewrite !to_uint_small by (unfold UINT_MOD; lia).
      apply Z.ltb_lt. lia. }
    cbn [record_loop]. rewrite Hcond.
    unfold address_of.
    replace ((0 <=? i) && (i <=? Z.of_nat (length (network_data s)))) with true
      by (symmetry; apply andb_true_iff; split; apply Z.leb_le; lia).
    rewrite deserialize_enough
      by (rewrite length_skipn; unfold sizeof_Packet; lia).
    rewrite to_int_small by (unfold sizeof_Packet, INT_MAX; lia).
    fold (process_record s
            (of_object_bytes
               (firstn (Z.to_nat sizeof_Packet)
                       (skipn (Z.to_nat i) (network_data s))))).
    set (p := of_object_bytes _).
    destruct (process_record_frame s p) as (_ & Hnd & _).
    rewrite IH; unfold sizeof_Packet; rewrite ?Hnd; try lia.
    cbn [records_from process_records fold_left]. fold p.
    rewrite skipn_skipn.
    replace (Z.to_nat sizeof_Packet + Z.to_nat i)%nat with (Z.to_nat (i + 88))
      by (unfold sizeof_Packet; lia).
    reflexivity.
Qed.

Lemma records_from_concat chunks rest :
  Forall (fun c => Z.of_nat (length c) = sizeof_Packet) chunks ->
  records_from (length chunks) (concat chunks ++ rest) =
  map of_object_bytes chunks.
Proof.
  induction 1 as [| c chunks Hc _ IH]; [reflexivity |].
  cbn [length records_from concat map]. rewrite <- app_assoc.
  assert (Hn : length c = Z.to_nat sizeof_Packet) by lia.
  rewrite <- Hn, firstn_app, Nat.sub_diag, firstn_all, firstn_O, app_nil_r.
  rewrite skipn_app, Nat.sub_diag, skipn_all, skipn_O. cbn [app].
  rewrite IH. reflexivity.
Qed.

Lemma records_started_bounds L :
  0 <= L ->
  L <= sizeof_Packet * Z.of_nat (records_started L) /\
  sizeof_Packet * Z.of_nat (records_started L) < L + sizeof_Packet.
Proof.
  intros HL. unfold records_started, sizeof_Packet.
  pose proof (Z.div_mod (L + 88 - 1) 88 ltac:(lia)).
  pose proof (Z.mod_pos_bound (L + 88 - 1) 88 ltac:(lia)).
  assert (0 <= (L + 88 - 1) / 88) by (apply Z.div_pos; lia).
  rewrite Z2Nat.id by lia. lia.
Qed.

Lemma records_started_walkable L :
  0 <= L <= MAX_WALKABLE ->
  sizeof_Packet * Z.of_nat (records_started L) <= MAX_PACKET_SIZE.
Proof.
  unfold MAX_WALKABLE, MAX_PACKET_SIZE, sizeof_Packet.
  change (88 * (1000000 / 88)) with 999944. intros HL.
  unfold records_started, sizeof_Packet.
  assert (0 <= (L + 88 - 1) / 88) by (apply Z.div_pos; lia).
  rewrite Z2Nat.id by lia.
  assert ((L + 88 - 1) / 88 <= 11363).
  { apply Z.lt_succ_r. apply Z.div_lt_upper_bound; lia. }
  lia.
Qed.

Lemma records_started_le L : 0 <= L -> (records_started L <= Z.to_nat L)%nat.
Proof.
  intros HL. unfold records_started, sizeof_Packet.
  apply Z2Nat.inj_le; [apply Z.div_pos; lia | lia |].
  destruct (Z.eq_dec L 0) as [-> | Hne]; [reflexivity |].
  apply Z.lt_succ_r. apply Z.div_lt_upper_bound; lia.
Qed.

(** The receive loop on [data_length] freshly received bytes: it ends, and
    it has handled every started record in order. *)
Lemma record_loop_started s data_length :
  0 <= data_length <= MAX_WALKABLE ->
  buffer_ok s ->
  record_loop (Z.to_nat data_length) data_length 0 s =
  Done (process_records
          (records_from (records_started data_length) (network_data s)) s).
Proof.
  intros HL Hbuf. unfold buffer_ok in Hbuf.
  pose proof (records_started_bounds data_length ltac:(lia)) as [B1 B2].
  pose proof (records_started_walkable data_length HL) as B3.
  pose proof (records_started_le data_length ltac:(lia)) as B4.
  rewrite (record_loop_walk (records_started data_length)); try lia.
  reflexivity.
Qed.

(** ** What receiving preserves *)

Lemma receive_preserves_refl s : receive_preserves s s.
Proof. constructor; auto. Qed.

Lemma receive_preserves_trans s1 s2 s3 :
  receive_preserves s1 s2 -> receive_preserves s2 s3 -> receive_preserves s1 s3.
Proof.
  intros [A1 A2 A3 A4 A5 A6] [B1 B2 B3 B4 B5 B6].
  constructor; try congruence. auto.
Qed.

Lemma sendActionPackets_preserves s : receive_preserves s (sendActionPackets s).
Proof.
  constructor; try reflexivity; [| auto].
  rewrite sendActionPackets_trace, assigned_ids_app. cbn. apply app_nil_r.
Qed.

Lemma emit_preserves e s :
  assigned_ids [e] = [] -> receive_preserves s (emit e s).
Proof.
  intros He. constructor; try reflexivity; [| auto].
  cbn. rewrite assigned_ids_app, He. apply app_nil_r.
Qed.

Lemma handle_packet_preserves p s : receive_preserves s (handle_packet p s).
Proof.
  unfold handle_packet.
  destruct (packet_type p =? INIT_CONNECTION).
  { eapply receive_preserves_trans; [| apply sendActionPackets_preserves].
    apply emit_preserves; reflexivity. }
  destruct (packet_type p =? ACTION_EVENT).
  2: { apply emit_preserves; reflexivity. }
  eapply receive_preserves_trans; [| apply sendActionPackets_preserves].
  destruct (negb (fst (attack p) =? -1)), (negb (fst (damage p) =? -1));
    constructor; cbn; auto.
Qed.

Lemma process_record_preserves s p : receive_preserves s (process_record s p).
Proof.
  unfold process_record.
  eapply receive_preserves_trans; [| apply handle_packet_preserves].
  apply emit_preserves; reflexivity.
Qed.

Lemma set_network_data_preserves buf s :
  receive_preserves s (set_network_data buf s).
Proof. constructor; auto. Qed.

Lemma record_loop_preserves fuel :
  forall data_length i s s',
    record_loop fuel data_length i s = Done s' -> receive_preserves s s'.
Proof.
  induction fuel as [| fuel IH]; intros L i s s'; cbn [record_loop].
  - destruct (to_uint i <? to_uint L); [discriminate |].
    intros [= <-]. apply receive_preserves_refl.
  - destruct (to_uint i <? to_uint L).
    2: { intros [= <-]. apply receive_preserves_refl. }
    destruct (address_of (network_data s) i) as [data |]; [| discriminate].
    destruct (deserialize data) as [p |]; [| discriminate].
    intros H. apply IH in H.
    eapply receive_preserves_trans; [| exact H].
    apply (process_record_preserves s p).
Qed.

Lemma sessions_loop_preserves rx iter :
  forall s s', sessions_loop rx iter s = Done s' -> receive_preserves s s'.
Proof.
  induction iter as [| [id sock] iter IH]; intros s s'; cbn [sessions_loop].
  - intros [= <-]. apply receive_preserves_refl.
  - destruct (receiveData (rx id) (network_data s)) as [[L buf] |];
      [| discriminate].
    destruct (L <=? 0).
    + intros H. apply IH in H.
      eapply receive_preserves_trans; [| exact H].
      apply set_network_data_preserves.
    + destruct (record_loop (Z.to_nat L) L 0 (set_network_data buf s))
        as [s1 |] eqn:E; [| discriminate].
      intros H. apply IH in H. apply record_loop_preserves in E.
      eapply receive_preserves_trans; [| exact H].
      eapply receive_preserves_trans; [| exact E].
      apply set_network_data_preserves.
Qed.

Lemma receiveFromClients_preserves rx s s' :
  receiveFromClients rx s = Done s' -> receive_preserves s s'.
Proof. apply sessions_loop_preserves. Qed.

(** ** The loop over the sessions *)

Lemma receiveData_fits available recvbuf :
  Z.of_nat (length available) <= MAX_PACKET_SIZE ->
  receiveData available recvbuf =
  Some (Z.of_nat (length available),
        available ++ skipn (length available) recvbuf).
Proof.
  intros H. unfold receiveData.
  destruct (Z.leb_spec (Z.of_nat (length available)) MAX_PACKET_SIZE);
    [reflexivity | lia].
Qed.

Lemma overwrite_length (available recvbuf : list byte) :
  (length available <= length recvbuf)%nat ->
  length (available ++ skipn (length available) recvbuf) = length recvbuf.
Proof. intros H. rewrite length_app, length_skipn. lia. Qed.

Lemma MAX_WALKABLE_le : MAX_WALKABLE <= MAX_PACKET_SIZE.
Proof. discriminate. Qed.

Lemma poll_session_buffer_ok available s :
  Z.of_nat (length available) <= MAX_PACKET_SIZE ->
  buffer_ok s -> buffer_ok (poll_session available s).
Proof.
  unfold buffer_ok, poll_session. intros Hlen Hbuf. cbv zeta.
  destruct (process_records_frame
              (records_from (records_started (Z.of_nat (length available)))
                 (network_data
                    (set_network_data
                       (available ++ skipn (length available) (network_data s)) s)))
              (set_network_data
                 (available ++ skipn (length available) (network_data s)) s))
    as (_ & -> & _).
  cbn [network_data set_network_data].
  rewrite overwrite_length by lia. exact Hbuf.
Qed.

Lemma poll_session_nothing s : poll_session [] s = s.
Proof. destruct s. reflexivity. Qed.

(** One round for a session whose bytes can be walked inside the buffer. *)
Lemma sessions_loop_step rx id sock iter s :
  buffer_ok s ->
  Z.of_nat (length (rx id)) <= MAX_WALKABLE ->
  sessions_loop rx ((id, sock) :: iter) s =
  sessions_loop rx iter (poll_session (rx id) s).
Proof.
  intros Hbuf Hlen. pose proof MAX_WALKABLE_le as Hw.
  cbn [sessions_loop]. rewrite receiveData_fits by lia.
  destruct (Z.leb_spec (Z.of_nat (length (rx id))) 0) as [Hz | Hpos].
  - assert (E : rx id = []) by (destruct (rx id); [reflexivity | cbn in Hz; lia]).
    rewrite E. cbn [length app skipn]. rewrite poll_session_nothing.
    destruct s; reflexivity.
  - rewrite record_loop_started; [reflexivity | lia |].
    unfold buffer_ok in *. cbn [network_data set_network_data].
    rewrite overwrite_length by lia. exact Hbuf.
Qed.

(** The loop over the sessions ends and handles the sessions in the order
    of the table whenever what each of them delivers can be walked. *)
Lemma sessions_loop_total rx iter :
  forall s,
    buffer_ok s ->
    (forall id, In id (map fst iter) -> Z.of_nat (length (rx id)) <= MAX_WALKABLE) ->
    sessions_loop rx iter s = Done (poll_sessions rx iter s).
Proof.
  induction iter as [| [id sock] iter IH]; intros s Hbuf Hrx; [reflexivity |].
  pose proof MAX_WALKABLE_le.
  rewrite sessions_loop_step by (auto; apply Hrx; left; reflexivity).
  rewrite IH.
  - reflexivity.
  - apply poll_session_buffer_ok; [| exact Hbuf].
    specialize (Hrx id (or_introl eq_refl)). lia.
  - intros id' Hin. apply Hrx. right. exact Hin.
Qed.

Lemma get_new_clients_buffer pending s :
  network_data (get_new_clients pending s) = network_data s.
Proof. destruct pending; reflexivity. Qed.

(** [update] ends whenever the bytes of every session can be walked. *)
Lemma update_total inp s :
  buffer_ok s ->
  (forall id, Z.of_nat (length (rx inp id)) <= MAX_WALKABLE) ->
  update inp s =
  Done (poll_sessions (rx inp)
          (sessions (network (get_new_clients (pending inp) s)))
          (get_new_clients (pending inp) s)).
Proof.
  intros Hbuf Hrx. unfold update, receiveFromClients.
  apply sessions_loop_total; [| auto].
  unfold buffer_ok. rewrite get_new_clients_buffer. exact Hbuf.
Qed.

Lemma get_new_clients_game_mode pending s :
  game_mode (get_new_clients pending s) = game_mode s.
Proof. destruct pending; reflexivity. Qed.

Lemma update_game_mode inp s s' :
  update inp s = Done s' -> game_mode s = true -> game_mode s' = true.
Proof.
  unfold update. intros H Hg. apply receiveFromClients_preserves in H.
  apply (rp_game_mode _ _ H). rewrite get_new_clients_game_mode. exact Hg.
Qed.

Lemma run_game_mode inputs :
  forall s s', run inputs s = Done s' -> game_mode s = true -> game_mode s' = true.
Proof.
  induction inputs as [| inp inputs IH]; intros s s'; cbn [run].
  - intros [= <-] H. exact H.
  - destruct (update inp s) as [s1 |] eqn:E; [| discriminate].
    intros H Hg. apply (IH _ _ H). apply (update_game_mode _ _ _ E Hg).
Qed.

Lemma bool_unchanged_or_true (b b' : bool) :
  (b = true -> b' = true) -> b' = b \/ b' = true.
Proof. destruct b, b'; auto. Qed.

Lemma poll_sessions_buffer_ok rx iter :
  (forall id, Z.of_nat (length (rx id)) <= MAX_PACKET_SIZE) ->
  forall s, buffer_ok s -> buffer_ok (poll_sessions rx iter s).
Proof.
  intros Hrx. induction iter as [| [id sock] iter IH]; intros s Hbuf.
  - exact Hbuf.
  - cbn [poll_sessions fold_left fst]. apply IH.
    apply poll_session_buffer_ok; [apply Hrx | exact Hbuf].
Qed.

(** Frames that can be walked run to their end and keep the buffer's size. *)
Lemma run_total inputs :
  forall s, buffer_ok s -> walkable inputs ->
  exists s', run inputs s = Done s' /\ buffer_ok s'.
Proof.
  induction inputs as [| inp inputs IH]; intros s Hbuf Hw.
  - exists s. split; [reflexivity | exact Hbuf].
  - cbn [run].
    assert (Hinp : forall id, Z.of_nat (length (rx inp id)) <= MAX_WALKABLE)
      by (apply Hw; left; reflexivity).
    rewrite (update_total inp s Hbuf Hinp).
    apply IH; [| intros i Hi; apply Hw; right; exact Hi].
    apply poll_sessions_buffer_ok.
    + intros id. pose proof MAX_WALKABLE_le. specialize (Hinp id). lia.
    + unfold buffer_ok. rewrite get_new_clients_buffer. exact Hbuf.
Qed.

(** C10. game_mode is initialised to true by the constructor, and no
    receive, merge or broadcast ever sets it to false: a broadcast leaves
    it as it is, and handling one record, handling any sequence of decoded
    records, a call of receiveFromClients and any number of calls of
    update leave it unchanged or set it to true. *)
Theorem game_mode_never_cleared :
  (forall uninit, game_mode (ServerGame_ctor uninit) = true) /\
  (forall s, game_mode (sendActionPackets s) = game_mode s) /\
  (forall p s,
     game_mode (handle_packet p s) = game_mode s \/
     game_mode (handle_packet p s) = true) /\
  (forall ps s,
     game_mode (process_records ps s) = game_mode s \/
     game_mode (process_records ps s) = true) /\
  (forall rx s s',
     receiveFromClients rx s = Done s' ->
     game_mode s' = game_mode s \/ game_mode s' = true) /\
  (forall inputs s s',
     run inputs s = Done s' ->
     game_mode s' = game_mode s \/ game_mode s' = true).
Proof.
  split; [reflexivity |]. split; [reflexivity |].
  split; [| split; [| split]].
  - intros p s. apply bool_unchanged_or_true, handle_packet_game_mode.
  - intros ps s. apply bool_unchanged_or_true, process_records_game_mode.
  - intros rx s s' H. apply bool_unchanged_or_true.
    apply receiveFromClients_preserves in H. apply (rp_game_mode _ _ H).
  - intros inputs s s' H. apply bool_unchanged_or_true.
    apply (run_game_mode _ _ _ H).
Qed.

Lemma zero_mem_length : Z.of_nat (length zero_mem) = MAX_PACKET_SIZE.
Proof.
  unfold zero_mem. rewrite repeat_length. apply Z2Nat.id. discriminate.
Qed.

Lemma fresh_server_buffer_ok : buffer_ok fresh_server.
Proof. exact zero_mem_length. Qed.

Lemma one_session_buffer_ok : buffer_ok one_session.
Proof. exact zero_mem_length. Qed.

Lemma one_session_waiting_buffer_ok : buffer_ok one_session_waiting.
Proof. exact zero_mem_length. Qed.

Lemma game_mode_never_cleared_witness :
  exists s',
    run [mkTick None (fun _ => serialize action_3_4)] one_session_waiting = Done s' /\
    (game_mode s' = game_mode one_session_waiting \/ game_mode s' = true).
Proof.
  assert (Hrx : forall id : Z,
             Z.of_nat (length (rx (mkTick None (fun _ => serialize action_3_4)) id))
             <= MAX_WALKABLE) by (intros id; discriminate).
  pose proof (update_total (mkTick None (fun _ => serialize action_3_4))
                one_session_waiting one_session_waiting_buffer_ok Hrx) as E.
  assert (R : run [mkTick None (fun _ => serialize action_3_4)] one_session_waiting
              = Done (poll_sessions
                        (rx (mkTick None (fun _ => serialize action_3_4)))
                        (sessions (network (get_new_clients
                           (pending (mkTick None (fun _ => serialize action_3_4)))
                           one_session_waiting)))
                        (get_new_clients
                           (pending (mkTick None (fun _ => serialize action_3_4)))
                           one_session_waiting)))
    by (cbn [run]; rewrite E; reflexivity).
  eexists. split; [exact R |].
  destruct game_mode_never_cleared as (_ & _ & _ & _ & _ & Hrun).
  exact (Hrun _ _ _ R).
Defined.

(** ** Session identifiers *)

Lemma sessions_insert_last id sock m :
  Forall (fun e => fst e < id) m ->
  sessions_insert id sock m = m ++ [(id, sock)].
Proof.
  induction 1 as [| [k v] m Hk _ IH]; [reflexivity |].
  cbn [sessions_insert app]. cbn [fst] in Hk.
  destruct (Z.ltb_spec id k); [lia |].
  destruct (Z.eqb_spec id k); [lia |].
  rewrite IH. reflexivity.
Qed.

Lemma to_uint_succ v : to_uint (to_uint v + 1) = to_uint (v + 1).
Proof. unfold to_uint, UINT_MOD. apply Z.add_mod_idemp_l. lia. Qed.

Lemma get_new_clients_accept sock s :
  let s' := get_new_clients (Some sock) s in
  client_id s' = to_uint (client_id s + 1) /\
  assigned_ids (trace s') = assigned_ids (trace s) ++ [client_id s] /\
  sessions (network s') = sessions_insert (client_id s) sock (sessions (network s)).
Proof.
  cbv zeta. unfold get_new_clients, acceptNewClient.
  cbn. rewrite assigned_ids_app. repeat split.
Qed.

Lemma get_new_clients_none s : get_new_clients None s = s.
Proof. reflexivity. Qed.

(** The identifiers counted up from [n]: each is [n + j] reduced to an
    [unsigned int]. *)
Lemma count_up_snoc (f : nat -> Z) n :
  map f (seq 0 (S n)) = map f (seq 0 n) ++ [f n].
Proof. rewrite seq_S, map_app. reflexivity. Qed.

Lemma numbered_ctor uninit : numbered 0 [] (ServerGame_ctor uninit).
Proof. constructor; reflexivity. Qed.

Lemma combine_keys_below n socks :
  Forall (fun e : Z * SOCKET => fst e < Z.of_nat n)
         (combine (map Z.of_nat (seq 0 n)) socks).
Proof.
  apply Forall_forall. intros [k v] Hin. apply in_combine_l in Hin.
  apply in_map_iff in Hin. destruct Hin as (j & <- & Hj).
  apply in_seq in Hj. cbn [fst]. lia.
Qed.

Lemma combine_snoc {A B : Type} (l1 : list A) (l2 : list B) a b :
  length l1 = length l2 ->
  combine (l1 ++ [a]) (l2 ++ [b]) = combine l1 l2 ++ [(a, b)].
Proof.
  revert l2. induction l1 as [| x l1 IH]; intros [| y l2] H;
    try discriminate; [reflexivity |].
  cbn. rewrite IH by (cbn in H; lia). reflexivity.
Qed.

Lemma numbered_accept n socks sock s :
  numbered n socks s ->
  numbered (S n) (socks ++ [sock]) (get_new_clients (Some sock) s).
Proof.
  intros [Hc Ha Hl Hs].
  destruct (get_new_clients_accept sock s) as (Ec & Ea & Es).
  constructor.
  - rewrite Ec, Hc, to_uint_succ. f_equal. lia.
  - rewrite Ea, Ha, Hc, count_up_snoc. reflexivity.
  - rewrite length_app, Hl. cbn. lia.
  - intros Hn. rewrite Es, Hc, Hs by lia.
    rewrite to_uint_small by (unfold UINT_MOD in *; lia).
    rewrite sessions_insert_last by apply combine_keys_below.
    rewrite seq_S, map_app. cbn [map Nat.add].
    rewrite combine_snoc by (rewrite length_map, length_seq; lia).
    reflexivity.
Qed.

Lemma numbered_preserved n socks s s' :
  receive_preserves s s' -> numbered n socks s -> numbered n socks s'.
Proof.
  intros [P1 P2 _ _ P3 _] [Hc Ha Hl Hs].
  constructor; try congruence.
  intros Hn. rewrite P2. apply Hs, Hn.
Qed.

Lemma update_numbered inp n socks s s' :
  update inp s = Done s' ->
  numbered n socks s ->
  numbered (n + length (accepted_sockets [inp]))
           (socks ++ accepted_sockets [inp]) s'.
Proof.
  unfold update. intros H Hn. apply receiveFromClients_preserves in H.
  apply (numbered_preserved _ _ _ _ H).
  unfold accepted_sockets. cbn [flat_map]. rewrite app_nil_r.
  destruct (pending inp) as [sock |].
  - cbn [length]. replace (n + 1)%nat with (S n) by lia.
    apply numbered_accept, Hn.
  - cbn [length]. rewrite Nat.add_0_r, app_nil_r, get_new_clients_none.
    exact Hn.
Qed.

Lemma accepted_sockets_cons inp inputs :
  accepted_sockets (inp :: inputs) =
  accepted_sockets [inp] ++ accepted_sockets inputs.
Proof. unfold accepted_sockets. cbn [flat_map]. rewrite app_nil_r. reflexivity. Qed.

Lemma run_numbered inputs :
  forall n socks s s',
    run inputs s = Done s' ->
    numbered n socks s ->
    numbered (n + length (accepted_sockets inputs))
             (socks ++ accepted_sockets inputs) s'.
Proof.
  induction inputs as [| inp inputs IH]; intros n socks s s'; cbn [run].
  - intros [= <-] Hn. cbn. rewrite Nat.add_0_r, app_nil_r. exact Hn.
  - destruct (update inp s) as [s1 |] eqn:E; [| discriminate].
    intros H Hn.
    pose proof (IH _ _ _ _ H (update_numbered _ _ _ _ _ E Hn)) as Hn'.
    rewrite (accepted_sockets_cons inp inputs).
    rewrite length_app, Nat.add_assoc, app_assoc. exact Hn'.
Qed.

Lemma nth_count_up (f : nat -> Z) n i d :
  (i < n)%nat -> nth i (map f (seq 0 n)) d = f i.
Proof.
  intros Hi.
  rewrite (nth_indep _ d (f 0%nat)) by (rewrite length_map, length_seq; exact Hi).
  rewrite map_nth, seq_nth by exact Hi. reflexivity.
Qed.

Lemma count_up_small n :
  Z.of_nat n <= UINT_MOD ->
  map (fun j => to_uint (Z.of_nat j)) (seq 0 n) = map Z.of_nat (seq 0 n).
Proof.
  intros Hn. apply map_ext_in. intros j Hj. apply in_seq in Hj.
  apply to_uint_small. lia.
Qed.

Lemma count_up_NoDup n : NoDup (map Z.of_nat (seq 0 n)).
Proof.
  apply Injective_map_NoDup; [| apply seq_NoDup].
  intros a b. apply Nat2Z.inj.
Qed.

(** C7, within the range of the counter.  Session identifiers are assigned
    starting at 0 and incrementing by 1 per accepted connection, in the
    32-bit unsigned counter client_id: the k-th accepted connection
    (counting from zero) is announced and registered under k modulo 2^32.
    Among the first 2^32 accepted connections the k-th receives identifier
    k itself, no identifier is assigned twice, and the table holds exactly
    these identifiers with the handles in the order of acceptance. *)
Theorem identifiers_count_up (uninit : list byte) (inputs : list tick_input)
  (s' : ServerGame) :
  run inputs (ServerGame_ctor uninit) = Done s' ->
  let socks := accepted_sockets inputs in
  let k := length socks in
  assigned_ids (trace s') = map (fun j => Z.of_nat j mod UINT_MOD) (seq 0 k) /\
  client_id s' = Z.of_nat k mod UINT_MOD /\
  (Z.of_nat k <= UINT_MOD ->
     assigned_ids (trace s') = map Z.of_nat (seq 0 k) /\
     NoDup (assigned_ids (trace s')) /\
     sessions (network s') = combine (map Z.of_nat (seq 0 k)) socks).
Proof.
  intros H. cbv zeta.
  destruct (run_numbered _ _ _ _ _ H (numbered_ctor uninit)) as [Hc Ha _ Hs].
  cbn [Nat.add app] in *.
  split; [exact Ha |]. split; [exact Hc |].
  intros Hk. rewrite Ha, count_up_small by exact Hk.
  split; [reflexivity |]. split; [apply count_up_NoDup | apply Hs, Hk].
Qed.

Lemma accept_ticks_walkable n : walkable (repeat accept_tick n).
Proof.
  intros inp Hin id. apply repeat_spec in Hin. subst inp. discriminate.
Qed.

Lemma identifiers_count_up_witness :
  exists s',
    run [accept_tick; accept_tick] (ServerGame_ctor zero_mem) = Done s' /\
    assigned_ids (trace s') = [0; 1] /\
    sessions (network s') = [(0, 100); (1, 100)].
Proof.
  destruct (run_total [accept_tick; accept_tick] (ServerGame_ctor zero_mem)
              fresh_server_buffer_ok (accept_ticks_walkable 2)) as (s' & E & _).
  exists s'. split; [exact E |].
  destruct (identifiers_count_up zero_mem [accept_tick; accept_tick] s' E)
    as (_ & _ & Hk).
  destruct (Hk ltac:(discriminate)) as (Ha & _ & Hs).
  split; [exact Ha | exact Hs].
Defined.

Lemma accept_ticks_sockets n :
  length (accepted_sockets (repeat accept_tick n)) = n.
Proof.
  induction n as [| n IH]; [reflexivity |].
  cbn [repeat]. rewrite accepted_sockets_cons, length_app, IH. reflexivity.
Qed.

(** C7 as stated fails once the counter has wrapped: of 2^32 + 1 accepted
    connections, the one numbered 2^32 (counting from zero) receives
    identifier 0, not 2^32, and 0 is the identifier the very first
    connection had received. *)
Lemma identifier_reused_after_wrap :
  exists s',
    run (repeat accept_tick (Z.to_nat 4294967297)) fresh_server = Done s' /\
    nth (Z.to_nat 4294967296) (assigned_ids (trace s')) (-1) = 0 /\
    nth 0 (assigned_ids (trace s')) (-1) = 0.
Proof.
  destruct (run_total (repeat accept_tick (Z.to_nat 4294967297)) fresh_server
              fresh_server_buffer_ok (accept_ticks_walkable _)) as (s' & E & _).
  exists s'. split; [exact E |].
  destruct (run_numbered _ _ _ _ _ E (numbered_ctor zero_mem)) as [_ Ha _ _].
  rewrite accept_ticks_sockets in Ha. rewrite Ha. clear Ha E.
  split.
  - rewrite nth_count_up by (apply Z2Nat.inj_lt; lia).
    rewrite Z2Nat.id by lia. reflexivity.
  - rewrite nth_count_up by (apply (Z2Nat.inj_lt 0); lia). reflexivity.
Qed.

(** ** A receive that ends inside a record *)

Lemma records_from_length n mem : length (records_from n mem) = n.
Proof.
  revert mem. induction n as [| n IH]; intros mem; [reflexivity |].
  cbn [records_from length]. rewrite IH. reflexivity.
Qed.

(** A receive of [L] bytes makes the loop decode one packet for every
    started record, whole or not. *)
Lemma poll_session_decodes available s :
  exists evs,
    trace (poll_session available s) = trace s ++ evs /\
    length (decoded evs) = records_started (Z.of_nat (length available)).
Proof.
  unfold poll_session. cbv zeta.
  destruct (process_records_trace
              (records_from (records_started (Z.of_nat (length available)))
                 (network_data
                    (set_network_data
                       (available ++ skipn (length available) (network_data s)) s)))
              (set_network_data
                 (available ++ skipn (length available) (network_data s)) s))
    as (evs & Ht & _ & Hd).
  exists evs. split; [exact Ht |].
  rewrite Hd. apply records_from_length.
Qed.

(** When the receive does not end on a record boundary, that is one packet
    more than it holds whole records. *)
Lemma fragment_adds_a_record L :
  0 <= L -> L mod sizeof_Packet <> 0 ->
  records_started L = S (records_whole L).
Proof.
  unfold records_started, records_whole, sizeof_Packet. intros HL Hr.
  pose proof (Z.div_mod L 88 ltac:(lia)).
  pose proof (Z.mod_pos_bound L 88 ltac:(lia)).
  assert (0 <= L / 88) by (apply Z.div_pos; lia).
  replace ((L + 88 - 1) / 88) with (L / 88 + 1).
  - rewrite Z2Nat.inj_add by lia. change (Z.to_nat 1) with 1%nat. lia.
  - apply (Z.div_unique_pos (L + 88 - 1) 88 (L / 88 + 1) (L mod 88 - 1)); lia.
Qed.

(** C3 at a receive of sizeof(Packet) + 1 bytes, one whole ACTION_EVENT
    record followed by the single byte 1, into a zeroed buffer: the receive
    holds one whole record, yet the loop decodes two packets, the second
    put together from the trailing byte and the 87 bytes that lay behind
    it in network_data; that packet is merged (other_attack becomes (0,0))
    and answered by a second broadcast. *)
Theorem trailing_fragment_decoded :
  Z.of_nat (length (rx fragment_tick 0)) = sizeof_Packet + 1 /\
  records_whole (sizeof_Packet + 1) = 1%nat /\
  observe (fun s => decoded (trace s)) (update fragment_tick one_session) =
    Some [action_3_4; mkPacket ACTION_EVENT (0, 0) (0, 0) false mat4_zero] /\
  observe (fun s => length (broadcasts (trace s)))
          (update fragment_tick one_session) = Some 2%nat /\
  observe other_attack (update fragment_tick one_session) = Some (0, 0).
Proof.
  split; [| split; [| split; [| split]]]; by_running.
Qed.

(** ** Whole records *)

Lemma concat_records_length (chunks : list (list byte)) :
  Forall (fun c => Z.of_nat (length c) = sizeof_Packet) chunks ->
  Z.of_nat (length (concat chunks)) = sizeof_Packet * Z.of_nat (length chunks).
Proof.
  induction 1 as [| c chunks Hc _ IH]; [reflexivity |].
  cbn [concat]. rewrite length_app.
  change (length (c :: chunks)) with (S (length chunks)). lia.
Qed.

Lemma records_started_whole k :
  records_started (sizeof_Packet * Z.of_nat k) = k.
Proof.
  unfold records_started, sizeof_Packet.
  replace (88 * Z.of_nat k + 88 - 1) with (Z.of_nat k * 88 + 87) by lia.
  rewrite Z.div_add_l by lia. change (87 / 88) with 0. lia.
Qed.

(** A session that delivers whole records: the records are handled one
    after the other in arrival order. *)
Lemma poll_session_whole chunks s :
  Forall (fun c => Z.of_nat (length c) = sizeof_Packet) chunks ->
  poll_session (concat chunks) s =
  process_records
    (map of_object_bytes chunks)
    (set_network_data
       (concat chunks ++ skipn (length (concat chunks)) (network_data s)) s).
Proof.
  intros Hc. unfold poll_session. cbv zeta.
  cbn [network_data set_network_data].
  rewrite (concat_records_length _ Hc), records_started_whole.
  rewrite records_from_concat by exact Hc. reflexivity.
Qed.

(** A receive of exactly three records is decoded into those three
    packets, in arrival order. *)
Example three_whole_records_decoded :
  Z.of_nat (length (rx three_records_tick 0)) = 3 * sizeof_Packet /\
  observe (fun s => decoded (trace s)) (update three_records_tick one_session) =
    Some [action_3_4; action_5_6; action_3_4].
Proof.
  split; by_running.
Qed.

(** C5, record by record.  Within one frame, the whole records that a
    session delivers are decoded and merged one at a time in arrival
    order, and what a record triggers (for an Init or ActionEvent record,
    its broadcast) is sent right after that record has been decoded and
    merged and before the next record of the buffer is decoded; then the
    loop goes on to the next session. *)
Theorem records_merged_then_broadcast
  (rx : Z -> list byte) (id : Z) (sock : SOCKET) (iter : list (Z * SOCKET))
  (chunks : list (list byte)) (s : ServerGame) :
  buffer_ok s ->
  Forall (fun c => Z.of_nat (length c) = sizeof_Packet) chunks ->
  rx id = concat chunks ->
  Z.of_nat (length (rx id)) <= MAX_WALKABLE ->
  let packets := map of_object_bytes chunks in
  let s1 := process_records packets
              (set_network_data
                 (rx id ++ skipn (length (rx id)) (network_data s)) s) in
  sessions_loop rx ((id, sock) :: iter) s = sessions_loop rx iter s1 /\
  exists evs,
    trace s1 = trace s ++ evs /\
    decoded evs = packets /\
    map kind_of evs = flat_map iteration_kinds packets.
Proof.
  intros Hbuf Hc Hrx Hlen. cbv zeta. split.
  - rewrite sessions_loop_step by assumption.
    rewrite Hrx, poll_session_whole by exact Hc. reflexivity.
  - destruct (process_records_trace (map of_object_bytes chunks)
                (set_network_data
                   (rx id ++ skipn (length (rx id)) (network_data s)) s))
      as (evs & Ht & Hk & Hd).
    exists evs. repeat split; assumption.
Qed.

(** C5 as stated fails: with two records available for session 0 in one
    frame, the broadcast answering the first record is sent before the
    second record is decoded and merged.  (The first event of the trace is
    the announcement of session 0 from the frame before.) *)
Lemma broadcast_before_second_merge :
  observe (fun s => decoded (trace s)) (update two_records_tick one_session) =
    Some [action_3_4; action_5_6] /\
  observe (fun s => map kind_of (trace s)) (update two_records_tick one_session) =
    Some [KPrintf; KDeserialized; KSendToAll; KDeserialized; KSendToAll] /\
  observe (fun s => no_decode_after_send false (trace s))
          (update two_records_tick one_session) = Some false.
Proof.
  split; [| split]; by_running.
Qed.

Lemma two_records_chunks :
  Forall (fun c => Z.of_nat (length c) = sizeof_Packet)
         [serialize action_3_4; serialize action_5_6].
Proof. repeat constructor. Qed.

Lemma records_merged_then_broadcast_witness :
  buffer_ok one_session /\
  rx two_records_tick 0 = concat [serialize action_3_4; serialize action_5_6] /\
  Z.of_nat (length (rx two_records_tick 0)) <= MAX_WALKABLE /\
  exists s1 evs,
    sessions_loop (rx two_records_tick) [(0, 100)] one_session =
      sessions_loop (rx two_records_tick) [] s1 /\
    trace s1 = trace one_session ++ evs /\
    decoded evs = map of_object_bytes [serialize action_3_4; serialize action_5_6].
Proof.
  assert (Hrx : rx two_records_tick 0 =
                concat [serialize action_3_4; serialize action_5_6])
    by (cbn [concat rx two_records_tick]; rewrite app_nil_r; reflexivity).
  assert (Hlen : Z.of_nat (length (rx two_records_tick 0)) <= MAX_WALKABLE)
    by discriminate.
  split; [exact one_session_buffer_ok |]. split; [exact Hrx |].
  split; [exact Hlen |].
  destruct (records_merged_then_broadcast (rx two_records_tick) 0 100 []
              [serialize action_3_4; serialize action_5_6] one_session
              one_session_buffer_ok two_records_chunks Hrx Hlen)
    as (Hloop & evs & Ht & Hd & _).
  eexists. exists evs. split; [exact Hloop |]. split; [exact Ht | exact Hd].
Defined.

(** ** A session without data *)

Lemma sessions_loop_nothing rx id sock iter s :
  rx id = [] ->
  sessions_loop rx ((id, sock) :: iter) s = sessions_loop rx iter s.
Proof.
  intros E. cbn [sessions_loop]. rewrite E.
  unfold receiveData. change (length (@nil byte)) with 0%nat.
  cbn [Z.of_nat app skipn].
  change (0 <=? MAX_PACKET_SIZE) with true. cbv iota.
  change (0 <=? 0) with true. cbv iota.
  destruct s; reflexivity.
Qed.

(** ** An undersized record *)

(** C6 fails on the code.  After a call that brought two whole records, a
    call brings a single byte for session 0, fewer than sizeof(Packet).
    No error arises and nothing is discarded: the loop of
    receiveFromClients starts a record at offset 0 because 0 is below the
    length received, and deserialize copies the byte together with the 87
    bytes left behind it in network_data.  The third packet decoded this
    way is merged: other_attack changes from (5,6) to (3,4) and other_done
    from false to true. *)
Theorem undersized_record_is_merged :
  Z.of_nat (length (rx one_byte_tick 0)) < sizeof_Packet /\
  observe (fun s => (other_attack s, other_done s))
          (run [two_records_tick] one_session) = Some ((5, 6), false) /\
  observe (fun s => (other_attack s, other_done s))
          (run [two_records_tick; one_byte_tick] one_session) =
    Some ((3, 4), true) /\
  observe (fun s => decoded (trace s))
          (run [two_records_tick; one_byte_tick] one_session) =
    Some [action_3_4; action_5_6; action_3_4].
Proof.
  split; [| split; [| split]]; by_running.
Qed.

(** * Further properties of the code *)

(** ** The codec, continued *)

Lemma action_5_6_ok : Packet_ok action_5_6.
Proof.
  unfold Packet_ok, mat4_ok, vec4_ok, is_uint, is_int, INT_MIN, INT_MAX, UINT_MOD.
  unfold action_5_6, mat4_identity, one_f, ACTION_EVENT. cbn. lia.
Qed.

(** X1. Encoding loses nothing: two different packets never have the same
    byte record. *)
Theorem distinct_packets_distinct_records (p q : Packet) :
  Packet_ok p -> Packet_ok q -> p <> q -> serialize p <> serialize q.
Proof.
  intros Hp Hq Hne E. apply Hne.
  pose proof (roundtrip_in_memory p [] Hp) as Rp.
  pose proof (roundtrip_in_memory q [] Hq) as Rq.
  rewrite E in Rp. rewrite Rp in Rq. injection Rq as ->. reflexivity.
Qed.

Lemma distinct_packets_distinct_records_witness :
  Packet_ok action_3_4 /\ Packet_ok action_5_6 /\ action_3_4 <> action_5_6 /\
  serialize action_3_4 <> serialize action_5_6.
Proof.
  assert (Hne : action_3_4 <> action_5_6) by discriminate.
  split; [exact action_3_4_ok |]. split; [exact action_5_6_ok |].
  split; [exact Hne |].
  exact (distinct_packets_distinct_records
           action_3_4 action_5_6 action_3_4_ok action_5_6_ok Hne).
Defined.

(** ** The broadcast, continued *)

Lemma sendActionPackets_outgoing s :
  outgoing (sendActionPackets s) = consumed s /\
  consumed (sendActionPackets s) = consumed s /\
  session_ids (sendActionPackets s) = session_ids s.
Proof. repeat split. Qed.

(** ** The receive loop on a sequence of records *)

(** One iteration of the loop, member by member. *)
Lemma process_record_members s p :
  let s' := process_record s p in
  other_attack s' =
    (if is_action p && negb (fst (attack p) =? -1)
     then attack p else other_attack s) /\
  other_damage s' =
    (if is_action p && negb (fst (damage p) =? -1)
     then damage p else other_damage s) /\
  other_done s' = (if is_action p then done p else other_done s) /\
  other_headPose s' = (if is_action p then headPose p else other_headPose s) /\
  game_mode s' =
    (game_mode s || (is_action p && negb (fst (attack p) =? -1))) /\
  my_attack s' = (if answered p then (-1, -1) else my_attack s) /\
  my_damage s' = (if answered p then (-1, -1) else my_damage s) /\
  my_done s' = my_done s /\
  my_headPose s' = my_headPose s /\
  client_id s' = client_id s /\
  network s' = network s /\
  network_data s' = network_data s.
Proof.
  cbv zeta. unfold process_record, handle_packet, is_action, answered.
  destruct (Z.eqb_spec (packet_type p) INIT_CONNECTION) as [E0 | N0].
  - rewrite E0. change (INIT_CONNECTION =? ACTION_EVENT) with false.
    cbn. rewrite orb_false_r. repeat split.
  - destruct (packet_type p =? ACTION_EVENT).
    + destruct (fst (attack p) =? -1), (fst (damage p) =? -1); cbn;
        rewrite ?orb_true_r, ?orb_false_r; repeat split.
    + cbn. rewrite orb_false_r. repeat split.
Qed.

Lemma process_record_sends s p :
  broadcasts (trace (process_record s p)) =
    broadcasts (trace s) ++
    (if answered p then [(serialize (outgoing s), session_ids s)] else []) /\
  outgoing (process_record s p) =
    (if answered p then consumed s else outgoing s) /\
  consumed (process_record s p) = consumed s /\
  session_ids (process_record s p) = session_ids s.
Proof.
  unfold process_record, handle_packet, answered.
  destruct (packet_type p =? INIT_CONNECTION).
  - rewrite sendActionPackets_trace, !broadcasts_app. cbn.
    rewrite !broadcasts_app. cbn. rewrite !app_nil_r. repeat split.
  - destruct (packet_type p =? ACTION_EVENT).
    + rewrite sendActionPackets_trace, !broadcasts_app.
      destruct (negb (fst (attack p) =? -1)), (negb (fst (damage p) =? -1));
        cbn; rewrite !broadcasts_app; cbn; rewrite !app_nil_r; repeat split.
    + cbn. rewrite !broadcasts_app. cbn. rewrite !app_nil_r. repeat split.
Qed.

Lemma last_cons {A : Type} (x : A) (l : list A) (d : A) :
  last (x :: l) d = last l x.
Proof.
  revert x d. induction l as [| y l IH]; intros x d; [reflexivity |].
  change (last (x :: y :: l) d) with (last (y :: l) d).
  rewrite (IH y d), (IH y x). reflexivity.
Qed.

(** X2. Latest wins.  After the loop has handled a sequence of records,
    other_done and other_headPose are those of the last ACTION_EVENT record
    of the sequence, other_attack and other_damage are those of the last
    ACTION_EVENT record whose attack, respectively damage, has a first
    coordinate other than -1, and game_mode is true if it was or if some
    ACTION_EVENT record carried such an attack; without such a record the
    member keeps its value.  Records of other types take no part. *)
Theorem latest_record_wins (ps : list Packet) (s : ServerGame) :
  let acts := filter is_action ps in
  let s' := process_records ps s in
  other_attack s' = latest_present attack acts (other_attack s) /\
  other_damage s' = latest_present damage acts (other_damage s) /\
  other_done s' = last (map done acts) (other_done s) /\
  other_headPose s' = last (map headPose acts) (other_headPose s) /\
  game_mode s' =
    (game_mode s || existsb (fun p => negb (fst (attack p) =? -1)) acts).
Proof.
  cbv zeta. revert s. induction ps as [| p ps IH]; intros s.
  - cbn. rewrite orb_false_r. repeat split.
  - cbn [process_records fold_left]. fold (process_records ps (process_record s p)).
    destruct (IH (process_record s p)) as (Ha & Hd & Hdn & Hh & Hg).
    destruct (process_record_members s p)
      as (Pa & Pd & Pdn & Ph & Pg & _).
    rewrite Ha, Hd, Hdn, Hh, Hg, Pa, Pd, Pdn, Ph, Pg.
    cbn [filter]. destruct (is_action p); cbn [andb].
    + cbn [map existsb latest_present fold_left]. rewrite !last_cons.
      fold (latest_present attack (filter is_action ps)).
      fold (latest_present damage (filter is_action ps)).
      rewrite orb_assoc.
      destruct (fst (attack p) =? -1), (fst (damage p) =? -1);
        repeat split.
    + rewrite orb_false_r. repeat split.
Qed.

(** X3. The broadcasts of one call of the loop.  Every record of type
    INIT_CONNECTION or ACTION_EVENT is answered by exactly one broadcast to
    the registered sessions and no other record is; the first of these
    broadcasts carries the outgoing members, and every later one carries
    the pair (-1,-1) as attack and damage with the same my_done and
    my_headPose: my_attack and my_damage are sent at most once. *)
Theorem broadcasts_of_records (ps : list Packet) (s : ServerGame) :
  broadcasts (trace (process_records ps s)) =
  broadcasts (trace s) ++
  expected_broadcasts (length (filter answered ps)) s.
Proof.
  revert s. induction ps as [| p ps IH]; intros s.
  - cbn. rewrite app_nil_r. reflexivity.
  - cbn [process_records fold_left]. fold (process_records ps (process_record s p)).
    rewrite IH. destruct (process_record_sends s p) as (Hb & Ho & Hc & Hi).
    rewrite Hb. cbn [filter]. destruct (answered p).
    + rewrite <- app_assoc. f_equal. cbn [length expected_broadcasts app].
      f_equal. unfold expected_broadcasts.
      destruct (length (filter answered ps)) as [| k]; [reflexivity |].
      rewrite Ho, Hc, Hi. reflexivity.
    + rewrite app_nil_r. f_equal. unfold expected_broadcasts.
      destruct (length (filter answered ps)) as [| k]; [reflexivity |].
      rewrite Ho, Hc, Hi. reflexivity.
Qed.

Lemma same_state_refl s : same_state s s.
Proof. unfold same_state. repeat split. Qed.

Lemma process_record_same_state s t p :
  same_state s t -> same_state (process_record s p) (process_record t p).
Proof.
  unfold same_state.
  intros (E1 & E2 & E3 & E4 & E5 & E6 & E7 & E8 & E9 & E10 & E11 & E12).
  destruct (process_record_members s p)
    as (A1 & A2 & A3 & A4 & A5 & A6 & A7 & A8 & A9 & A10 & A11 & A12).
  destruct (process_record_members t p)
    as (B1 & B2 & B3 & B4 & B5 & B6 & B7 & B8 & B9 & B10 & B11 & B12).
  rewrite A1, A2, A3, A4, A5, A6, A7, A8, A9, A10, A11, A12.
  rewrite B1, B2, B3, B4, B5, B6, B7, B8, B9, B10, B11, B12.
  rewrite E1, E2, E3, E4, E5, E6, E7, E8, E9, E10, E11, E12.
  repeat split.
Qed.


(** ** Relations kept by the loops *)

Section LoopRelation.

Variable R : ServerGame -> ServerGame -> Prop.
Hypothesis R_refl : forall s, R s s.
Hypothesis R_trans : forall s1 s2 s3, R s1 s2 -> R s2 s3 -> R s1 s3.
Hypothesis R_record : forall s p, R s (process_record s p).
Hypothesis R_buffer : forall buf s, R s (set_network_data buf s).

Lemma record_loop_relates fuel :
  forall data_length i s s',
    record_loop fuel data_length i s = Done s' -> R s s'.
Proof.
  induction fuel as [| fuel IH]; intros L i s s'; cbn [record_loop].
  - destruct (to_uint i <? to_uint L); [discriminate |].
    intros [= <-]. apply R_refl.
  - destruct (to_uint i <? to_uint L).
    2: { intros [= <-]. apply R_refl. }
    destruct (address_of (network_data s) i) as [data |]; [| discriminate].
    destruct (deserialize data) as [p |]; [| discriminate].
    intros H. apply IH in H.
    apply (R_trans _ (process_record s p)); [apply R_record | exact H].
Qed.

Lemma sessions_loop_relates rx iter :
  forall s s', sessions_loop rx iter s = Done s' -> R s s'.
Proof.
  induction iter as [| [id sock] iter IH]; intros s s'; cbn [sessions_loop].
  - intros [= <-]. apply R_refl.
  - destruct (receiveData (rx id) (network_data s)) as [[L buf] |];
      [| discriminate].
    destruct (L <=? 0).
    + intros H. apply IH in H.
      apply (R_trans _ (set_network_data buf s)); [apply R_buffer | exact H].
    + destruct (record_loop (Z.to_nat L) L 0 (set_network_data buf s))
        as [s1 |] eqn:E; [| discriminate].
      intros H. apply IH in H. apply record_loop_relates in E.
      apply (R_trans _ (set_network_data buf s)); [apply R_buffer |].
      apply (R_trans _ s1); assumption.
Qed.

End LoopRelation.

Lemma outgoing_kept_or_consumed_refl s : outgoing_kept_or_consumed s s.
Proof. constructor; left; reflexivity. Qed.

Lemma outgoing_kept_or_consumed_trans s1 s2 s3 :
  outgoing_kept_or_consumed s1 s2 -> outgoing_kept_or_consumed s2 s3 ->
  outgoing_kept_or_consumed s1 s3.
Proof.
  intros [A1 A2] [B1 B2]. constructor.
  - destruct B1 as [-> | ->]; [exact A1 | right; reflexivity].
  - destruct B2 as [-> | ->]; [exact A2 | right; reflexivity].
Qed.

Lemma process_record_kept_or_consumed s p :
  outgoing_kept_or_consumed s (process_record s p).
Proof.
  destruct (process_record_members s p)
    as (_ & _ & _ & _ & _ & A6 & A7 & _).
  constructor; [rewrite A6 | rewrite A7];
    destruct (answered p); [right | left | right | left]; reflexivity.
Qed.

(** X4. What receiving leaves alone.  A call of receiveFromClients that
    ends has changed neither client_id nor the session table nor my_done
    nor my_headPose, and it leaves my_attack and my_damage either as they
    were or consumed, that is equal to (-1,-1): receiving never puts a
    value of its own into an outgoing member. *)
Theorem receiving_leaves_outgoing (rx : Z -> list byte) (s s' : ServerGame) :
  receiveFromClients rx s = Done s' ->
  client_id s' = client_id s /\
  network s' = network s /\
  my_done s' = my_done s /\
  my_headPose s' = my_headPose s /\
  (my_attack s' = my_attack s \/ my_attack s' = (-1, -1)) /\
  (my_damage s' = my_damage s \/ my_damage s' = (-1, -1)).
Proof.
  intros H.
  pose proof (receiveFromClients_preserves rx s s' H) as [P1 P2 P3 P4 _ _].
  assert (K : outgoing_kept_or_consumed s s').
  { revert H. unfold receiveFromClients.
    apply (sessions_loop_relates outgoing_kept_or_consumed).
    - apply outgoing_kept_or_consumed_refl.
    - apply outgoing_kept_or_consumed_trans.
    - apply process_record_kept_or_consumed.
    - intros buf t. constructor; left; reflexivity. }
  destruct K as [K1 K2]. repeat split; assumption.
Qed.

(** A receive that session 0 can be seen to survive. *)
Lemma two_records_received :
  receiveFromClients (rx two_records_tick) one_session =
  Done (poll_sessions (rx two_records_tick)
          (sessions (network one_session)) one_session).
Proof.
  unfold receiveFromClients. apply sessions_loop_total.
  - exact one_session_buffer_ok.
  - intros id _. discriminate.
Qed.

Lemma receiving_leaves_outgoing_witness :
  exists s',
    receiveFromClients (rx two_records_tick) one_session = Done s' /\
    my_done s' = my_done one_session /\
    my_headPose s' = my_headPose one_session.
Proof.
  eexists. split; [exact two_records_received |].
  destruct (receiving_leaves_outgoing _ _ _ two_records_received)
    as (_ & _ & Hd & Hh & _).
  split; [exact Hd | exact Hh].
Defined.

(** ** A receive that fills the buffer *)

(** The first iterations of the loop, as long as records start below
    [data_length] and lie inside the array. *)
Lemma record_loop_prefix n :
  forall fuel data_length i s,
    0 <= i ->
    0 <= data_length <= MAX_PACKET_SIZE ->
    i + sizeof_Packet * Z.of_nat n < data_length + sizeof_Packet ->
    i + sizeof_Packet * Z.of_nat n <= Z.of_nat (length (network_data s)) ->
    Z.of_nat (length (network_data s)) <= MAX_PACKET_SIZE ->
    record_loop (n + fuel) data_length i s =
    record_loop fuel data_length (i + sizeof_Packet * Z.of_nat n)
      (process_records
         (records_from n (skipn (Z.to_nat i) (network_data s))) s).
Proof.
  unfold sizeof_Packet, MAX_PACKET_SIZE.
  induction n as [| n IH]; intros fuel L i s Hi HL Hlt Hbuf Hmax.
  - cbn [Nat.add records_from process_records fold_left Z.of_nat].
    rewrite Z.mul_0_r, Z.add_0_r. reflexivity.
  - assert (Hcond : (to_uint i <? to_uint L) = true).
    { rewrite !to_uint_small by (unfold UINT_MOD; lia).
      apply Z.ltb_lt. lia. }
    cbn [Nat.add record_loop]. rewrite Hcond.
    unfold address_of.
    replace ((0 <=? i) && (i <=? Z.of_nat (length (network_data s)))) with true
      by (symmetry; apply andb_true_iff; split; apply Z.leb_le; lia).
    rewrite deserialize_enough
      by (rewrite length_skipn; unfold sizeof_Packet; lia).
    rewrite to_int_small by (unfold sizeof_Packet, INT_MAX; lia).
    fold (process_record s
            (of_object_bytes
               (firstn (Z.to_nat sizeof_Packet)
                       (skipn (Z.to_nat i) (network_data s))))).
    set (p := of_object_bytes _).
    destruct (process_record_frame s p) as (_ & Hnd & _).
    rewrite IH; unfold sizeof_Packet; rewrite ?Hnd; try lia.
    cbn [records_from process_records fold_left]. fold p.
    rewrite skipn_skipn.
    replace (Z.to_nat sizeof_Packet + Z.to_nat i)%nat with (Z.to_nat (i + 88))
      by (unfold sizeof_Packet; lia).
    replace (i + 88 + 88 * Z.of_nat n) with (i + 88 * Z.of_nat (S n)) by lia.
    reflexivity.
Qed.

Lemma records_in_buffer_bytes :
  sizeof_Packet * Z.of_nat records_in_buffer = MAX_WALKABLE.
Proof. reflexivity. Qed.

(** X5. Reading past the end of network_data.  When one receive brings
    more than 999944 bytes (the 11363 whole records that fit into the
    1000000 bytes of network_data), the loop still starts a record at
    offset 999944 and deserialize copies 88 bytes from there, 32 of them
    from beyond the end of the array: the round for that session ends in
    an out-of-bounds read instead of a state. *)
Theorem full_buffer_read_past_end
  (rx : Z -> list byte) (id : Z) (sock : SOCKET) (iter : list (Z * SOCKET))
  (s : ServerGame) :
  buffer_ok s ->
  MAX_WALKABLE < Z.of_nat (length (rx id)) <= MAX_PACKET_SIZE ->
  sessions_loop rx ((id, sock) :: iter) s = Fault OutOfBounds.
Proof.
  intros Hbuf [Hlo Hhi]. unfold buffer_ok in Hbuf.
  cbn [sessions_loop]. rewrite receiveData_fits by exact Hhi.
  assert (Hw : MAX_WALKABLE = 999944) by reflexivity.
  assert (Hm : MAX_PACKET_SIZE = 1000000) by reflexivity.
  destruct (Z.leb_spec (Z.of_nat (length (rx id))) 0) as [Hz | _]; [lia |].
  set (L := Z.of_nat (length (rx id))) in *.
  set (s0 := set_network_data (rx id ++ skipn (length (rx id)) (network_data s)) s).
  assert (Hlen0 : Z.of_nat (length (network_data s0)) = MAX_PACKET_SIZE).
  { unfold s0. cbn [network_data set_network_data].
    rewrite overwrite_length by lia. exact Hbuf. }
  assert (Hn : Z.of_nat records_in_buffer = 11363) by reflexivity.
  replace (Z.to_nat L)
    with (records_in_buffer + S (Z.to_nat L - S records_in_buffer))%nat by lia.
  rewrite record_loop_prefix; unfold sizeof_Packet; try lia.
  rewrite Hn. change (0 + 88 * 11363) with 999944.
  set (s1 := process_records _ s0).
  assert (Hlen1 : Z.of_nat (length (network_data s1)) = MAX_PACKET_SIZE).
  { unfold s1.
    destruct (process_records_frame
                (records_from records_in_buffer
                   (skipn (Z.to_nat 0) (network_data s0))) s0) as (_ & -> & _).
    exact Hlen0. }
  cbn [record_loop].
  assert (Hcond : (to_uint 999944 <? to_uint L) = true).
  { rewrite !to_uint_small by (unfold UINT_MOD; lia). apply Z.ltb_lt. lia. }
  rewrite Hcond. unfold address_of.
  replace ((0 <=? 999944) && (999944 <=? Z.of_nat (length (network_data s1))))
    with true by (symmetry; apply andb_true_iff; split; apply Z.leb_le; lia).
  rewrite deserialize_short
    by (rewrite length_skipn; unfold sizeof_Packet; lia).
  reflexivity.
Qed.

Lemma full_buffer_read_past_end_witness :
  buffer_ok one_session /\
  MAX_WALKABLE < Z.of_nat (length zero_mem) <= MAX_PACKET_SIZE /\
  sessions_loop (fun _ => zero_mem) [(0, 100)] one_session = Fault OutOfBounds.
Proof.
  assert (H : MAX_WALKABLE < Z.of_nat (length zero_mem) <= MAX_PACKET_SIZE).
  { rewrite zero_mem_length. split; [reflexivity | discriminate]. }
  split; [exact one_session_buffer_ok |]. split; [exact H |].
  exact (full_buffer_read_past_end (fun _ => zero_mem) 0 100 [] one_session
           one_session_buffer_ok H).
Defined.

(** ** A whole frame *)

Lemma poll_sessions_decodes rx iter :
  forall s,
  exists evs,
    trace (poll_sessions rx iter s) = trace s ++ evs /\
    length (decoded evs) =
      list_sum (map (fun e : Z * SOCKET =>
                       records_started (Z.of_nat (length (rx (fst e))))) iter).
Proof.
  induction iter as [| [id sock] iter IH]; intros s.
  - exists []. cbn. rewrite app_nil_r. split; reflexivity.
  - cbn [poll_sessions fold_left fst].
    fold (poll_sessions rx iter (poll_session (rx id) s)).
    destruct (IH (poll_session (rx id) s)) as (evs2 & Ht2 & Hd2).
    destruct (poll_session_decodes (rx id) s) as (evs1 & Ht1 & Hd1).
    exists (evs1 ++ evs2). split.
    + rewrite Ht2, Ht1, app_assoc. reflexivity.
    + rewrite decoded_app, length_app, Hd1, Hd2. reflexivity.
Qed.

Lemma poll_sessions_network rx iter :
  forall s, network (poll_sessions rx iter s) = network s.
Proof.
  induction iter as [| [id sock] iter IH]; intros s; [reflexivity |].
  cbn [poll_sessions fold_left fst].
  fold (poll_sessions rx iter (poll_session (rx id) s)).
  rewrite IH. unfold poll_session. cbv zeta.
  destruct (process_records_frame
              (records_from (records_started (Z.of_nat (length (rx id))))
                 (network_data
                    (set_network_data
                       (rx id ++ skipn (length (rx id)) (network_data s)) s)))
              (set_network_data
                 (rx id ++ skipn (length (rx id)) (network_data s)) s))
    as (-> & _).
  reflexivity.
Qed.

Lemma poll_sessions_keeps_buffer rx iter :
  (forall id, In id (map fst iter) ->
     Z.of_nat (length (rx id)) <= MAX_PACKET_SIZE) ->
  forall s, buffer_ok s -> buffer_ok (poll_sessions rx iter s).
Proof.
  induction iter as [| [id sock] iter IH]; intros Hrx s Hbuf; [exact Hbuf |].
  cbn [poll_sessions fold_left fst].
  fold (poll_sessions rx iter (poll_session (rx id) s)).
  apply IH.
  - intros id' Hin. apply Hrx. right. exact Hin.
  - apply poll_session_buffer_ok; [| exact Hbuf].
    apply Hrx. left. reflexivity.
Qed.

(** X6. A frame ends.  When no registered session (the client accepted in
    this very call included) delivers more than 999944 bytes, update ends
    in a state: no loop runs on, nothing is read outside network_data, the
    session table is the one left by the accept step, and the loop has
    decoded, session after session, one packet for every started stretch
    of sizeof(Packet) bytes of each receive. *)
Theorem update_ends (inp : tick_input) (s : ServerGame) :
  buffer_ok s ->
  (forall id, In id (session_ids (get_new_clients (pending inp) s)) ->
     Z.of_nat (length (rx inp id)) <= MAX_WALKABLE) ->
  exists s' evs,
    update inp s = Done s' /\
    buffer_ok s' /\
    network s' = network (get_new_clients (pending inp) s) /\
    trace s' = trace (get_new_clients (pending inp) s) ++ evs /\
    length (decoded evs) =
      list_sum (map (fun e : Z * SOCKET =>
                       records_started (Z.of_nat (length (rx inp (fst e)))))
                    (sessions (network (get_new_clients (pending inp) s)))).
Proof.
  intros Hbuf Hrx.
  set (s0 := get_new_clients (pending inp) s) in *.
  assert (Hb0 : buffer_ok s0).
  { unfold buffer_ok, s0. rewrite get_new_clients_buffer. exact Hbuf. }
  destruct (poll_sessions_decodes (rx inp) (sessions (network s0)) s0)
    as (evs & Ht & Hd).
  exists (poll_sessions (rx inp) (sessions (network s0)) s0), evs.
  split; [| split; [| split; [| split]]].
  - unfold update, receiveFromClients. fold s0.
    apply sessions_loop_total; [exact Hb0 | exact Hrx].
  - apply poll_sessions_keeps_buffer; [| exact Hb0].
    intros id Hin. pose proof MAX_WALKABLE_le.
    specialize (Hrx id Hin). lia.
  - apply poll_sessions_network.
  - exact Ht.
  - exact Hd.
Qed.

Lemma update_ends_witness :
  buffer_ok one_session /\
  exists s' evs,
    update two_records_tick one_session = Done s' /\
    trace s' = trace one_session ++ evs /\
    length (decoded evs) = 2%nat.
Proof.
  split; [exact one_session_buffer_ok |].
  destruct (update_ends two_records_tick one_session one_session_buffer_ok)
    as (s' & evs & E & _ & _ & Ht & Hd).
  - intros id _. discriminate.
  - exists s', evs. split; [exact E |]. split; [exact Ht | exact Hd].
Defined.

(** ** From one peer to the other *)

(** X7. What one peer broadcasts, the other merges.  The bytes of a
    broadcast decode to a packet of type ACTION_EVENT; merging that packet
    at a receiver sets the receiver's other_done and other_headPose to the
    sender's my_done and my_headPose, and sets its other_attack (and
    game_mode to true) and other_damage to the sender's my_attack and
    my_damage exactly when their first coordinate is not -1, leaving them
    as they were otherwise. *)
Theorem broadcast_merged_by_peer (sender receiver : ServerGame) :
  Packet_ok (outgoing sender) ->
  exists p,
    broadcasts (trace (sendActionPackets sender)) =
      broadcasts (trace sender) ++
      [(serialize (outgoing sender), session_ids sender)] /\
    deserialize (serialize (outgoing sender)) = Some p /\
    let r := handle_packet p receiver in
    other_done r = my_done sender /\
    other_headPose r = my_headPose sender /\
    other_attack r =
      (if fst (my_attack sender) =? -1
       then other_attack receiver else my_attack sender) /\
    game_mode r =
      (if fst (my_attack sender) =? -1 then game_mode receiver else true) /\
    other_damage r =
      (if fst (my_damage sender) =? -1
       then other_damage receiver else my_damage sender).
Proof.
  intros Hok. exists (outgoing sender). split; [| split].
  - rewrite sendActionPackets_trace, broadcasts_app. reflexivity.
  - rewrite <- (app_nil_r (serialize (outgoing sender))).
    apply roundtrip_in_memory, Hok.
  - cbv zeta.
    destruct (action_record_merge (outgoing sender) receiver eq_refl)
      as (Ha & Hg & Hd & Hdn & Hh & _).
    rewrite Ha, Hg, Hd, Hdn, Hh. repeat split.
Qed.

Lemma outgoing_in_range s :
  is_int (fst (my_attack s)) -> is_int (snd (my_attack s)) ->
  is_int (fst (my_damage s)) -> is_int (snd (my_damage s)) ->
  mat4_ok (my_headPose s) ->
  Packet_ok (outgoing s).
Proof.
  intros. unfold Packet_ok, outgoing.
  cbn [packet_type attack damage headPose].
  split; [unfold is_uint, ACTION_EVENT, UINT_MOD; lia |].
  repeat (split; [assumption |]). assumption.
Qed.

Lemma mat4_identity_ok : mat4_ok mat4_identity.
Proof.
  unfold mat4_ok, vec4_ok, is_uint, mat4_identity, one_f, UINT_MOD. cbn. lia.
Qed.

Lemma broadcast_merged_by_peer_witness :
  Packet_ok (outgoing (set_my_attack (3, 4) waiting_server)) /\
  exists p,
    deserialize (serialize (outgoing (set_my_attack (3, 4) waiting_server))) =
      Some p /\
    other_attack (handle_packet p waiting_server) = (3, 4) /\
    game_mode (handle_packet p waiting_server) = true.
Proof.
  assert (Hok : Packet_ok (outgoing (set_my_attack (3, 4) waiting_server))).
  { apply outgoing_in_range; try (unfold is_int, INT_MIN, INT_MAX; cbn; lia).
    exact mat4_identity_ok. }
  split; [exact Hok |].
  destruct (broadcast_merged_by_peer
              (set_my_attack (3, 4) waiting_server) waiting_server Hok)
    as (p & _ & Hd & Hm).
  cbv zeta in Hm. destruct Hm as (_ & _ & Ha & Hg & _).
  exists p. split; [exact Hd |]. split; [exact Ha | exact Hg].
Defined.

(** ** Boards *)

Lemma length_list_set {A : Type} n (v : A) l :
  length (list_set n v l) = length l.
Proof.
  revert n. induction l as [| a l IH]; intros [| n]; cbn; try reflexivity.
  now rewrite IH.
Qed.

Lemma nth_list_set_same {A : Type} n (v d : A) l :
  (n < length l)%nat -> nth n (list_set n v l) d = v.
Proof.
  revert n. induction l as [| a l IH]; intros [| n] H; cbn in *; try lia.
  - reflexivity.
  - apply IH. lia.
Qed.

Lemma nth_list_set_other {A : Type} n m (v d : A) l :
  n <> m -> nth m (list_set n v l) d = nth m l d.
Proof.
  revert n m. induction l as [| a l IH]; intros [| n] [| m] H; cbn;
    try reflexivity; try contradiction.
  apply IH. intros E. apply H. now rewrite E.
Qed.

Lemma list_set_unchanged {A : Type} n (d : A) l :
  list_set n (nth n l d) l = l.
Proof.
  revert n. induction l as [| a l IH]; intros [| n]; cbn; try reflexivity.
  now rewrite IH.
Qed.

Lemma in_grid_spec x y :
  in_grid x y = true <-> (0 <= x < 10 /\ 0 <= y < 10).
Proof.
  unfold in_grid, GRID_SIZE. rewrite !andb_true_iff, !Z.leb_le, !Z.ltb_lt. lia.
Qed.

Lemma board_row_length b x :
  board_ok b -> 0 <= x < 10 -> length (nth (Z.to_nat x) b []) = 10%nat.
Proof.
  intros [Hl Hr] Hx. rewrite Forall_forall in Hr. apply Hr.
  apply nth_In. lia.
Qed.

Lemma board_read_cell b x y :
  in_grid x y = true -> board_read b x y = Ok (cell b x y).
Proof. intros H. unfold board_read. rewrite H. reflexivity. Qed.

Lemma board_read_outside b x y :
  in_grid x y = false -> board_read b x y = Err OutOfBounds.
Proof. intros H. unfold board_read. rewrite H. reflexivity. Qed.

(** Writing a cell of a board: the board keeps its shape, the cell holds
    the value, every other cell is as before. *)
Lemma board_write_cell b x y v :
  board_ok b -> in_grid x y = true ->
  exists b',
    board_write b x y v = Ok b' /\
    board_ok b' /\
    cell b' x y = v /\
    (forall x' y', in_grid x' y' = true -> (x', y') <> (x, y) ->
       cell b' x' y' = cell b x' y').
Proof.
  intros Hb Hg. pose proof Hg as Hxy. apply in_grid_spec in Hxy.
  destruct Hxy as [Hx Hy]. unfold board_write. rewrite Hg.
  eexists. split; [reflexivity |].
  pose proof (board_row_length b x Hb Hx) as Hrow.
  destruct Hb as [Hl Hr]. split; [| split].
  - split; [rewrite length_list_set; exact Hl |].
    rewrite Forall_forall in *. intros row Hin.
    apply In_nth with (d := []) in Hin. destruct Hin as (k & Hk & <-).
    rewrite length_list_set in Hk.
    destruct (Nat.eq_dec (Z.to_nat x) k) as [<- | Hne].
    + rewrite nth_list_set_same by lia. rewrite length_list_set. exact Hrow.
    + rewrite nth_list_set_other by exact Hne. apply Hr. apply nth_In. exact Hk.
  - unfold cell. rewrite nth_list_set_same by lia.
    apply nth_list_set_same. lia.
  - intros x' y' Hg' Hne. apply in_grid_spec in Hg'. unfold cell.
    destruct (Z.eq_dec x' x) as [-> | Hx'].
    + rewrite nth_list_set_same by lia.
      apply nth_list_set_other. intros E. apply Hne.
      f_equal. lia.
    + rewrite nth_list_set_other by lia. reflexivity.
Qed.

Lemma board_write_outside b x y v :
  in_grid x y = false -> board_write b x y v = Err OutOfBounds.
Proof. intros H. unfold board_write. rewrite H. reflexivity. Qed.

(** Writing the value a cell already holds leaves the board as it is. *)
Lemma board_write_same_value b x y :
  in_grid x y = true -> board_write b x y (cell b x y) = Ok b.
Proof.
  intros Hg. unfold board_write, cell. rewrite Hg.
  rewrite (list_set_unchanged (Z.to_nat y) 0).
  rewrite (list_set_unchanged (Z.to_nat x) []). reflexivity.
Qed.

(** ** Firing a shot *)


Lemma empty_board_ok : board_ok empty_board.
Proof. split; [reflexivity | repeat constructor]. Qed.

(** What a press of button Y does when the cell under the cursor is empty
    and it is this player's turn. *)
Lemma UpdateButtonY_fires a :
  board_ok (rivalBoard (scene a)) ->
  in_grid (x_cord (scene a)) (y_cord (scene a)) = true ->
  cell (rivalBoard (scene a)) (x_cord (scene a)) (y_cord (scene a)) = EMPTY ->
  playerMode a = MY ->
  exists a',
    UpdateButtonY a = Ok a' /\
    playerMode a' = RIVAL /\
    game_mode (server a') = false /\
    my_attack (server a') = (x_cord (scene a), y_cord (scene a)) /\
    my_damage (server a') = my_damage (server a) /\
    my_done (server a') = my_done (server a) /\
    my_headPose (server a') = my_headPose (server a) /\
    trace (server a') = trace (server a) /\
    network (server a') = network (server a) /\
    board_ok (rivalBoard (scene a')) /\
    cell (rivalBoard (scene a')) (x_cord (scene a)) (y_cord (scene a)) = MISSED /\
    (forall x y, in_grid x y = true ->
       (x, y) <> (x_cord (scene a), y_cord (scene a)) ->
       cell (rivalBoard (scene a')) x y = cell (rivalBoard (scene a)) x y) /\
    myBoard (scene a') = myBoard (scene a) /\
    x_cord (scene a') = x_cord (scene a) /\
    y_cord (scene a') = y_cord (scene a) /\
    played a' = played a ++ ["../audio/Fire.mp3"%string].
Proof.
  intros Hb Hg Hc Hp. unfold UpdateButtonY.
  rewrite board_read_cell by exact Hg. cbn [bind].
  rewrite Hc, Hp. cbn.
  destruct (board_write_cell (rivalBoard (scene a)) (x_cord (scene a))
              (y_cord (scene a)) MISSED Hb Hg) as (b' & Hw & Hb' & Hcell & Hoth).
  rewrite Hw. cbn. eexists. split; [reflexivity |]. cbn.
  repeat split; try assumption; apply Hb'.
Qed.

Lemma sendActionPackets_twice s :
  broadcasts (trace (sendActionPackets (sendActionPackets s))) =
  broadcasts (trace s) ++
  [(serialize (outgoing s), session_ids s);
   (serialize (consumed s), session_ids s)].
Proof.
  rewrite !sendActionPackets_trace, <- app_assoc, broadcasts_app. reflexivity.
Qed.

(** X9. A shot goes out once.  When the cell under the cursor is empty on
    rivalBoard and playerMode is MY, a press of button Y marks that cell
    MISSED, hands the turn over (playerMode RIVAL, game_mode false) and
    puts the cursor into my_attack; of the broadcasts that follow, the
    first carries the cursor as attack and the second carries (-1,-1). *)
Theorem shot_goes_out_once (a : ExampleApp) :
  board_ok (rivalBoard (scene a)) ->
  in_grid (x_cord (scene a)) (y_cord (scene a)) = true ->
  cell (rivalBoard (scene a)) (x_cord (scene a)) (y_cord (scene a)) = EMPTY ->
  playerMode a = MY ->
  exists a',
    UpdateButtonY a = Ok a' /\
    playerMode a' = RIVAL /\
    game_mode (server a') = false /\
    cell (rivalBoard (scene a')) (x_cord (scene a)) (y_cord (scene a)) = MISSED /\
    broadcasts (trace (sendActionPackets (sendActionPackets (server a')))) =
      broadcasts (trace (server a)) ++
      [(serialize (mkPacket ACTION_EVENT
                     (x_cord (scene a), y_cord (scene a))
                     (my_damage (server a)) (my_done (server a))
                     (my_headPose (server a))),
        session_ids (server a));
       (serialize (mkPacket ACTION_EVENT (-1, -1) (-1, -1)
                     (my_done (server a)) (my_headPose (server a))),
        session_ids (server a))].
Proof.
  intros Hb Hg Hc Hp.
  destruct (UpdateButtonY_fires a Hb Hg Hc Hp)
    as (a' & E & H1 & H2 & H3 & H4 & H5 & H6 & H7 & H8 & _ & H9 & _).
  exists a'. repeat (split; [assumption |]).
  rewrite sendActionPackets_twice. unfold outgoing, consumed, session_ids.
  rewrite H3, H4, H5, H6, H7, H8. reflexivity.
Qed.

Lemma app_at_start_fires :
  board_ok (rivalBoard (scene app_at_start)) /\
  in_grid (x_cord (scene app_at_start)) (y_cord (scene app_at_start)) = true /\
  cell (rivalBoard (scene app_at_start))
       (x_cord (scene app_at_start)) (y_cord (scene app_at_start)) = EMPTY /\
  playerMode app_at_start = MY.
Proof. split; [exact empty_board_ok |]. repeat split. Qed.

Lemma shot_goes_out_once_witness :
  board_ok (rivalBoard (scene app_at_start)) /\
  exists a',
    UpdateButtonY app_at_start = Ok a' /\
    playerMode a' = RIVAL /\
    game_mode (server a') = false.
Proof.
  destruct app_at_start_fires as (Hb & Hg & Hc & Hp).
  split; [exact Hb |].
  destruct (shot_goes_out_once app_at_start Hb Hg Hc Hp)
    as (a' & E & H1 & H2 & _).
  exists a'. split; [exact E |]. split; [exact H1 | exact H2].
Defined.


(** ** The frame after [server->update()] *)

Arguments update : simpl never.
Arguments to_int : simpl never.

Lemma received_attack_none a :
  fst (other_attack (server a)) = -1 -> received_attack a = Ok a.
Proof. intros H. unfold received_attack. rewrite H. reflexivity. Qed.

Lemma received_attack_outside a :
  fst (other_attack (server a)) <> -1 ->
  in_grid (fst (other_attack (server a))) (snd (other_attack (server a))) = false ->
  received_attack a = Err OutOfBounds.
Proof.
  intros Hx Hg. unfold received_attack.
  destruct (Z.eqb_spec (fst (other_attack (server a))) (-1)); [contradiction |].
  cbn [negb]. rewrite board_read_outside by exact Hg. reflexivity.
Qed.

Lemma received_attack_inside a :
  fst (other_attack (server a)) <> -1 ->
  in_grid (fst (other_attack (server a))) (snd (other_attack (server a))) = true ->
  board_ok (myBoard (scene a)) ->
  exists b,
    board_write (myBoard (scene a))
      (fst (other_attack (server a))) (snd (other_attack (server a)))
      (if cell (myBoard (scene a)) (fst (other_attack (server a)))
               (snd (other_attack (server a))) =? MARKED
       then SHOOTED else MISSED) = Ok b /\
    received_attack a =
      Ok (if cell (myBoard (scene a)) (fst (other_attack (server a)))
                  (snd (other_attack (server a))) =? MARKED
          then attack_hit b a else on_scene (set_myBoard b) a).
Proof.
  intros Hx Hg Hb. unfold received_attack.
  destruct (Z.eqb_spec (fst (other_attack (server a))) (-1)); [contradiction |].
  cbn [negb]. rewrite board_read_cell by exact Hg. cbn [bind].
  destruct (cell (myBoard (scene a)) (fst (other_attack (server a)))
                 (snd (other_attack (server a))) =? MARKED).
  - destruct (board_write_cell (myBoard (scene a)) _ _ SHOOTED Hb Hg)
      as (b & Hw & _).
    exists b. rewrite Hw. split; reflexivity.
  - destruct (board_write_cell (myBoard (scene a)) _ _ MISSED Hb Hg)
      as (b & Hw & _).
    exists b. rewrite Hw. split; reflexivity.
Qed.

Lemma received_damage_none a :
  fst (other_damage (server a)) = -1 -> received_damage a = Ok a.
Proof. intros H. unfold received_damage. rewrite H. reflexivity. Qed.

Lemma received_damage_inside a :
  fst (other_damage (server a)) <> -1 ->
  in_grid (fst (other_damage (server a))) (snd (other_damage (server a))) = true ->
  board_ok (rivalBoard (scene a)) ->
  exists b,
    board_write (rivalBoard (scene a))
      (fst (other_damage (server a))) (snd (other_damage (server a)))
      SHOOTED = Ok b /\
    received_damage a = Ok (damage_done b a).
Proof.
  intros Hx Hg Hb. unfold received_damage.
  destruct (Z.eqb_spec (fst (other_damage (server a))) (-1)); [contradiction |].
  cbn [negb].
  destruct (board_write_cell (rivalBoard (scene a)) _ _ SHOOTED Hb Hg)
    as (b & Hw & _).
  exists b. rewrite Hw. split; reflexivity.
Qed.

(** X10. An attack is answered.  When update leaves an attack (x, y) with
    x other than -1 on a cell of the board, the frame marks that cell of
    myBoard and no other: a MARKED cell becomes SHOOTED, the attack is
    copied into my_damage for the next broadcast, other_attack is reset to
    (-1,-1) and numDamages grows by one; any other cell becomes MISSED
    while other_attack, my_damage and numDamages stay as they are. *)
Theorem attack_is_answered
  (inp : tick_input) (head : mat4) (a : ExampleApp) (srv : ServerGame) (x y : Z) :
  update inp (server a) = Done srv ->
  other_attack srv = (x, y) ->
  x <> -1 ->
  in_grid x y = true ->
  fst (other_damage srv) = -1 ->
  board_ok (myBoard (scene a)) ->
  exists a',
    renderScene_server inp head a = Ok a' /\
    (forall x' y', in_grid x' y' = true -> (x', y') <> (x, y) ->
       cell (myBoard (scene a')) x' y' = cell (myBoard (scene a)) x' y') /\
    (cell (myBoard (scene a)) x y = MARKED ->
       cell (myBoard (scene a')) x y = SHOOTED /\
       my_damage (server a') = (x, y) /\
       other_attack (server a') = (-1, -1) /\
       numDamages (scene a') = to_int (numDamages (scene a) + 1)) /\
    (cell (myBoard (scene a)) x y <> MARKED ->
       cell (myBoard (scene a')) x y = MISSED /\
       my_damage (server a') = my_damage srv /\
       other_attack (server a') = (x, y) /\
       numDamages (scene a') = numDamages (scene a)).
Proof.
  intros Hu Ha Hx Hg Hd Hb. unfold renderScene_server. rewrite Hu.
  cbn [of_result bind]. cbv zeta.
  set (a0 := set_server srv a).
  assert (Hoa : other_attack (server a0) = (x, y)) by exact Ha.
  destruct (received_attack_inside a0) as (b & Hw & Hr).
  { rewrite Hoa. exact Hx. }
  { rewrite Hoa. exact Hg. }
  { exact Hb. }
  rewrite Hoa in Hw, Hr. cbn [fst snd] in Hw, Hr.
  change (myBoard (scene a0)) with (myBoard (scene a)) in Hw, Hr.
  rewrite Hr. cbn [bind].
  destruct (board_write_cell (myBoard (scene a)) x y
              (if cell (myBoard (scene a)) x y =? MARKED then SHOOTED else MISSED)
              Hb Hg) as (b' & Hw' & _ & Hcell & Hoth).
  rewrite Hw in Hw'. injection Hw' as <-.
  destruct (Z.eqb_spec (cell (myBoard (scene a)) x y) MARKED) as [Hm | Hm].
  - rewrite received_damage_none by exact Hd. cbn [bind].
    eexists. split; [reflexivity |].
    split; [| split].
    + intros x' y' Hg' Hne.
      destruct (game_mode (server (attack_hit b a0))); cbn; apply Hoth; assumption.
    + intros _.
      destruct (game_mode (server (attack_hit b a0))); cbn;
        rewrite ?Ha; cbn; repeat split; exact Hcell.
    + intros Hn. contradiction.
  - rewrite received_damage_none by exact Hd. cbn [bind].
    eexists. split; [reflexivity |].
    split; [| split].
    + intros x' y' Hg' Hne.
      destruct (game_mode (server (on_scene (set_myBoard b) a0))); cbn;
        apply Hoth; assumption.
    + intros Hn. contradiction.
    + intros _.
      destruct (game_mode (server (on_scene (set_myBoard b) a0))); cbn;
        rewrite ?Ha; repeat split; exact Hcell.
Qed.

Lemma of_object_bytes_serialize p :
  Packet_ok p -> of_object_bytes (serialize p) = p.
Proof.
  intros Hp. pose proof (roundtrip_in_memory p [] Hp) as R.
  rewrite app_nil_r in R.
  rewrite deserialize_enough in R by (rewrite length_serialize; reflexivity).
  rewrite firstn_serialize in R. injection R as R. exact R.
Qed.

(** A frame in which the only session delivers exactly one record. *)
Lemma update_one_record inp s id sock p :
  buffer_ok s ->
  sessions (network s) = [(id, sock)] ->
  pending inp = None ->
  rx inp id = serialize p ->
  Packet_ok p ->
  update inp s =
  Done (process_record
          (set_network_data
             (serialize p ++ skipn (length (serialize p)) (network_data s)) s) p).
Proof.
  intros Hbuf Hs Hp Hrx Hok. unfold update, receiveFromClients.
  rewrite Hp, get_new_clients_none, Hs.
  rewrite sessions_loop_step
    by (try exact Hbuf; rewrite Hrx, length_serialize; discriminate).
  cbn [sessions_loop]. f_equal. rewrite Hrx.
  pose proof (poll_session_whole [serialize p] s) as W.
  cbn [concat map] in W. rewrite app_nil_r in W.
  rewrite W by (repeat constructor).
  rewrite of_object_bytes_serialize by exact Hok. reflexivity.
Qed.

Lemma update_one_action inp s id sock p :
  buffer_ok s ->
  sessions (network s) = [(id, sock)] ->
  pending inp = None ->
  rx inp id = serialize p ->
  Packet_ok p ->
  packet_type p = ACTION_EVENT ->
  exists srv,
    update inp s = Done srv /\
    other_attack srv =
      (if fst (attack p) =? -1 then other_attack s else attack p) /\
    other_damage srv =
      (if fst (damage p) =? -1 then other_damage s else damage p) /\
    other_done srv = done p /\
    my_damage srv = (-1, -1) /\
    my_done srv = my_done s.
Proof.
  intros Hbuf Hs Hp Hrx Hok Hty.
  eexists. split; [apply (update_one_record inp s id sock p); assumption |].
  match goal with |- context [process_record ?t p] => set (s0 := t) end.
  destruct (process_record_members s0 p)
    as (A1 & A2 & A3 & _ & _ & _ & A7 & A8 & _).
  rewrite A1, A2, A3, A7, A8. unfold is_action, answered. rewrite Hty.
  change (ACTION_EVENT =? INIT_CONNECTION) with false.
  rewrite Z.eqb_refl. cbn [andb orb].
  destruct (fst (attack p) =? -1), (fst (damage p) =? -1); repeat split.
Qed.

Lemma attack_is_answered_witness :
  exists srv a',
    update (mkTick None (fun _ => serialize action_3_4)) (server app_at_start)
      = Done srv /\
    other_attack srv = (3, 4) /\
    renderScene_server (mkTick None (fun _ => serialize action_3_4))
      mat4_identity app_at_start = Ok a' /\
    cell (myBoard (scene a')) 3 4 = MISSED /\
    other_attack (server a') = (3, 4).
Proof.
  destruct (update_one_action (mkTick None (fun _ => serialize action_3_4))
              one_session 0 100 action_3_4 one_session_buffer_ok
              eq_refl eq_refl eq_refl action_3_4_ok eq_refl)
    as (srv & Hu & Ha & Hd & _).
  cbn in Ha, Hd.
  destruct (attack_is_answered
              (mkTick None (fun _ => serialize action_3_4)) mat4_identity
              app_at_start srv 3 4 Hu Ha ltac:(discriminate) eq_refl
              ltac:(rewrite Hd; reflexivity) empty_board_ok)
    as (a' & Hr & _ & _ & Hmiss).
  destruct (Hmiss ltac:(discriminate)) as (Hc & _ & Ho & _).
  exists srv, a'. repeat split; assumption.
Defined.

(** X11. An attack outside the board.  One well-formed ACTION_EVENT record
    whose attack (x, y) has x other than -1 and does not name a cell of the
    10 x 10 board, say (3,-7) or (10,0), is merged by update as it is, and
    the frame then indexes myBoard with it: the frame ends in an access
    outside the array. *)
Theorem attack_outside_board
  (inp : tick_input) (head : mat4) (a : ExampleApp)
  (id : Z) (sock : SOCKET) (p : Packet) :
  buffer_ok (server a) ->
  sessions (network (server a)) = [(id, sock)] ->
  pending inp = None ->
  rx inp id = serialize p ->
  Packet_ok p ->
  packet_type p = ACTION_EVENT ->
  fst (attack p) <> -1 ->
  in_grid (fst (attack p)) (snd (attack p)) = false ->
  renderScene_server inp head a = Err OutOfBounds.
Proof.
  intros Hbuf Hs Hp Hrx Hok Hty Hx Hg.
  destruct (update_one_action inp (server a) id sock p Hbuf Hs Hp Hrx Hok Hty)
    as (srv & Hu & Ha & _).
  destruct (Z.eqb_spec (fst (attack p)) (-1)) as [E | _]; [contradiction |].
  unfold renderScene_server. rewrite Hu. cbn [of_result bind]. cbv zeta.
  rewrite received_attack_outside; [reflexivity | |];
    cbn [server set_server]; rewrite Ha; assumption.
Qed.

Lemma action_3_m7_ok : Packet_ok action_3_m7.
Proof.
  unfold Packet_ok, mat4_ok, vec4_ok, is_uint, is_int, INT_MIN, INT_MAX, UINT_MOD.
  unfold action_3_m7, mat4_identity, one_f, ACTION_EVENT. cbn. lia.
Qed.

Lemma attack_outside_board_witness :
  Packet_ok action_3_m7 /\
  attack action_3_m7 = (3, -7) /\
  renderScene_server (mkTick None (fun _ => serialize action_3_m7))
    mat4_identity app_at_start = Err OutOfBounds.
Proof.
  split; [exact action_3_m7_ok |]. split; [reflexivity |].
  assert (Hx : fst (attack action_3_m7) <> -1) by discriminate.
  exact (attack_outside_board
           (mkTick None (fun _ => serialize action_3_m7)) mat4_identity
           app_at_start 0 100 action_3_m7 one_session_buffer_ok
           eq_refl eq_refl eq_refl action_3_m7_ok eq_refl Hx eq_refl).
Defined.

(** X12. A reported damage is recorded once.  When update leaves a damage
    (x, y) with x other than -1 on a cell of the board, the frame marks
    that cell of rivalBoard SHOOTED and no other, numHits grows by one, and
    other_damage becomes (-1, y): only its first coordinate is reset, which
    is enough for the damage not to be applied again. *)
Theorem damage_is_recorded
  (inp : tick_input) (head : mat4) (a : ExampleApp) (srv : ServerGame) (x y : Z) :
  update inp (server a) = Done srv ->
  fst (other_attack srv) = -1 ->
  other_damage srv = (x, y) ->
  x <> -1 ->
  in_grid x y = true ->
  board_ok (rivalBoard (scene a)) ->
  exists a',
    renderScene_server inp head a = Ok a' /\
    cell (rivalBoard (scene a')) x y = SHOOTED /\
    (forall x' y', in_grid x' y' = true -> (x', y') <> (x, y) ->
       cell (rivalBoard (scene a')) x' y' = cell (rivalBoard (scene a)) x' y') /\
    numHits (scene a') = to_int (numHits (scene a) + 1) /\
    other_damage (server a') = (-1, y) /\
    myBoard (scene a') = myBoard (scene a) /\
    numDamages (scene a') = numDamages (scene a).
Proof.
  intros Hu Ha Hd Hx Hg Hb. unfold renderScene_server. rewrite Hu.
  cbn [of_result bind]. cbv zeta.
  set (a0 := set_server srv a).
  rewrite received_attack_none by exact Ha. cbn [bind].
  assert (Hod : other_damage (server a0) = (x, y)) by exact Hd.
  destruct (received_damage_inside a0) as (b & Hw & Hr).
  { rewrite Hod. exact Hx. }
  { rewrite Hod. exact Hg. }
  { exact Hb. }
  rewrite Hod in Hw. cbn [fst snd] in Hw.
  change (rivalBoard (scene a0)) with (rivalBoard (scene a)) in Hw.
  rewrite Hr. cbn [bind].
  destruct (board_write_cell (rivalBoard (scene a)) x y SHOOTED Hb Hg)
    as (b' & Hw' & _ & Hcell & Hoth).
  rewrite Hw in Hw'. injection Hw' as <-.
  eexists. split; [reflexivity |].
  destruct (game_mode (server (damage_done b a0))); cbn; rewrite ?Hd; cbn;
    repeat split; try exact Hcell; exact Hoth.
Qed.

Lemma damage_5_6_ok : Packet_ok damage_5_6.
Proof.
  unfold Packet_ok, mat4_ok, vec4_ok, is_uint, is_int, INT_MIN, INT_MAX, UINT_MOD.
  unfold damage_5_6, mat4_identity, one_f, ACTION_EVENT. cbn. lia.
Qed.

Lemma damage_is_recorded_witness :
  exists srv a',
    update (mkTick None (fun _ => serialize damage_5_6)) (server app_at_start)
      = Done srv /\
    other_damage srv = (5, 6) /\
    renderScene_server (mkTick None (fun _ => serialize damage_5_6))
      mat4_identity app_at_start = Ok a' /\
    cell (rivalBoard (scene a')) 5 6 = SHOOTED /\
    other_damage (server a') = (-1, 6).
Proof.
  destruct (update_one_action (mkTick None (fun _ => serialize damage_5_6))
              one_session 0 100 damage_5_6 one_session_buffer_ok
              eq_refl eq_refl eq_refl damage_5_6_ok eq_refl)
    as (srv & Hu & Ha & Hd & _).
  cbn in Ha, Hd.
  destruct (damage_is_recorded
              (mkTick None (fun _ => serialize damage_5_6)) mat4_identity
              app_at_start srv 5 6 Hu ltac:(rewrite Ha; reflexivity) Hd
              ltac:(discriminate) eq_refl empty_board_ok)
    as (a' & Hr & Hc & _ & _ & Ho & _).
  exists srv, a'. repeat split; assumption.
Defined.

(** ** Frames without input *)

Lemma sessions_loop_quiet iter :
  forall s, sessions_loop (fun _ => []) iter s = Done s.
Proof.
  induction iter as [| [id sock] iter IH]; intros s; [reflexivity |].
  rewrite sessions_loop_nothing by reflexivity. apply IH.
Qed.

Lemma update_quiet s : update quiet_tick s = Done s.
Proof.
  unfold update, receiveFromClients. cbn [pending rx quiet_tick].
  rewrite get_new_clients_none. apply sessions_loop_quiet.
Qed.

Lemma set_server_same a : set_server (server a) a = a.
Proof. destruct a. reflexivity. Qed.

Lemma set_myBoard_same a : on_scene (set_myBoard (myBoard (scene a))) a = a.
Proof. destruct a as [[] ? ? ? ? ? ? ? ? ? ? ? ? ? ? ? ?]. reflexivity. Qed.

(** A frame without input in a settled state. *)
Lemma quiet_frame_of_settled head a :
  settled a ->
  renderScene_server quiet_tick head a =
  Ok (on_server (set_my_headPose head)
        (if game_mode (server a) then set_playerMode MY a else a)).
Proof.
  intros (Hd & Ha & Hb & Hr). unfold renderScene_server.
  rewrite update_quiet. cbn [of_result bind]. cbv zeta.
  rewrite set_server_same.
  assert (E : received_attack a = Ok a).
  { destruct Ha as [Ha | [Hg Hc]]; [apply received_attack_none, Ha |].
    unfold received_attack.
    destruct (negb (fst (other_attack (server a)) =? -1)); [| reflexivity].
    rewrite board_read_cell by exact Hg. cbn [bind]. rewrite Hc.
    change (MISSED =? MARKED) with false. cbv iota.
    pose proof (board_write_same_value (myBoard (scene a)) _ _ Hg) as W.
    rewrite Hc in W. rewrite W.
    cbn [bind]. rewrite set_myBoard_same. reflexivity. }
  rewrite E. cbn [bind]. rewrite received_damage_none by exact Hd.
  reflexivity.
Qed.

Lemma app_at_start_settled : settled app_at_start.
Proof.
  unfold settled. split; [reflexivity |]. split; [left; reflexivity |].
  split; exact empty_board_ok.
Qed.

(** ** Resetting the scene *)

Lemma fold_left_flat_map {A B C : Type} (f : A -> C -> A) (g : B -> list C) l :
  forall a,
    fold_left f (flat_map g l) a =
    fold_left (fun a x => fold_left f (g x) a) l a.
Proof.
  induction l as [| x l IH]; intros a; [reflexivity |].
  cbn [flat_map fold_left]. rewrite fold_left_app. apply IH.
Qed.

Lemma fold_left_map {A B C : Type} (f : A -> C -> A) (h : B -> C) l :
  forall a, fold_left f (map h l) a = fold_left (fun a y => f a (h y)) l a.
Proof.
  induction l as [| x l IH]; intros a; [reflexivity |]. cbn. apply IH.
Qed.

Lemma fold_left_same {A B : Type} (f g : A -> B -> A) l :
  (forall a x, f a x = g a x) ->
  forall a, fold_left f l a = fold_left g l a.
Proof.
  intros E. induction l as [| x l IH]; intros a; [reflexivity |].
  cbn. rewrite E. apply IH.
Qed.

Lemma reset_boards_cells my rival :
  reset_boards my rival = fold_left reset_cell all_cells (Ok (my, rival)).
Proof.
  unfold reset_boards, all_cells. rewrite fold_left_flat_map.
  apply fold_left_same. intros bs x. rewrite fold_left_map. reflexivity.
Qed.

Lemma in_grid_indices x : In x grid_indices <-> 0 <= x < 10.
Proof.
  unfold grid_indices, GRID_SIZE. rewrite in_map_iff. split.
  - intros (i & <- & Hi). apply in_seq in Hi. lia.
  - intros Hx. exists (Z.to_nat x). split; [lia |]. apply in_seq. lia.
Qed.

Lemma in_all_cells x y : In (x, y) all_cells <-> in_grid x y = true.
Proof.
  unfold all_cells. rewrite in_flat_map, in_grid_spec. split.
  - intros (x' & Hx & Hin). apply in_map_iff in Hin.
    destruct Hin as (y' & [= <- <-] & Hy).
    apply in_grid_indices in Hx, Hy. lia.
  - intros [Hx Hy]. exists x. split; [apply in_grid_indices, Hx |].
    apply in_map_iff. exists y. split; [reflexivity | apply in_grid_indices, Hy].
Qed.

Lemma cell_eq_dec (c d : Z * Z) : {c = d} + {c <> d}.
Proof. decide equality; apply Z.eq_dec. Qed.

Lemma reset_cells_fold cs :
  Forall (fun c => in_grid (fst c) (snd c) = true) cs ->
  forall my rival,
    board_ok my -> board_ok rival ->
    exists my' rival',
      fold_left reset_cell cs (Ok (my, rival)) = Ok (my', rival') /\
      board_ok my' /\ board_ok rival' /\
      forall x y, in_grid x y = true ->
        (In (x, y) cs -> cell my' x y = EMPTY /\ cell rival' x y = EMPTY) /\
        (~ In (x, y) cs ->
           cell my' x y = cell my x y /\ cell rival' x y = cell rival x y).
Proof.
  induction 1 as [| [cx cy] cs Hc _ IH]; intros my rival Hm Hr.
  - exists my, rival. split; [reflexivity |]. split; [exact Hm |].
    split; [exact Hr |]. intros x y _. split; [intros [] | auto].
  - cbn [fst snd] in Hc. cbn [fold_left].
    destruct (board_write_cell my cx cy EMPTY Hm Hc) as (my1 & W1 & Hm1 & C1 & O1).
    destruct (board_write_cell rival cx cy EMPTY Hr Hc) as (rv1 & W2 & Hr1 & C2 & O2).
    assert (E : reset_cell (Ok (my, rival)) (cx, cy) = Ok (my1, rv1)).
    { unfold reset_cell. cbn [bind fst snd]. rewrite W1. cbn [bind].
      rewrite W2. reflexivity. }
    rewrite E. destruct (IH my1 rv1 Hm1 Hr1) as (my' & rv' & F & Hm' & Hr' & P).
    exists my', rv'. split; [exact F |]. split; [exact Hm' |].
    split; [exact Hr' |]. intros x y Hg. destruct (P x y Hg) as [Pin Pout].
    split.
    + intros Hin. destruct (in_dec cell_eq_dec (x, y) cs) as [Hi | Hn].
      * apply Pin, Hi.
      * destruct Hin as [[= <- <-] | Hi]; [| contradiction].
        destruct (Pout Hn) as [-> ->]. split; assumption.
    + intros Hn. destruct (Pout (fun H => Hn (or_intror H))) as [-> ->].
      split; [apply O1 | apply O2]; try exact Hg;
        intros Eq; apply Hn; left; symmetry; exact Eq.
Qed.

Lemma reset_result (sc : Scene) :
  board_ok (myBoard sc) ->
  board_ok (rivalBoard sc) ->
  exists sc',
    reset sc = Ok sc' /\
    board_ok (myBoard sc') /\ board_ok (rivalBoard sc') /\
    (forall x y, in_grid x y = true ->
       cell (myBoard sc') x y = EMPTY /\ cell (rivalBoard sc') x y = EMPTY) /\
    ship_A sc' = [] /\ ship_B sc' = [] /\ ship_C sc' = [] /\
    ship_S sc' = [] /\ ship_P sc' = [] /\
    numHits sc' = 0 /\ numDamages sc' = 0 /\ selectedIdx sc' = 0 /\
    x_cord sc' = x_cord sc /\ y_cord sc' = y_cord sc /\
    shipMessage sc' = shipMessage sc /\
    directionMessage sc' = directionMessage sc.
Proof.
  intros Hm Hr. unfold reset. cbv zeta. cbn [myBoard rivalBoard set_ship_A
    set_ship_B set_ship_C set_ship_S set_ship_P set_my_board_matrices
    set_rival_board_matrices set_my_board_positions
    set_rival_board_positions].
  rewrite reset_boards_cells.
  destruct (reset_cells_fold all_cells) with (my := myBoard sc) (rival := rivalBoard sc)
    as (my' & rv' & F & Hm' & Hr' & P); try assumption.
  { apply Forall_forall. intros [x y] Hin. apply in_all_cells, Hin. }
  rewrite F. cbn [bind fst snd]. eexists. split; [reflexivity |]. cbn.
  split; [exact Hm' |]. split; [exact Hr' |]. split.
  - intros x y Hg. apply (P x y Hg). apply in_all_cells, Hg.
  - repeat split.
Qed.

(** X14. Scene::reset.  Whatever the boards hold, reset ends without an
    access outside them and leaves every cell of myBoard and of rivalBoard
    EMPTY, the five warships without cells and numHits, numDamages and
    selectedIdx at zero; the cursor and the messages are not touched. *)
Theorem reset_clears_scene (sc : Scene) :
  board_ok (myBoard sc) ->
  board_ok (rivalBoard sc) ->
  exists sc',
    reset sc = Ok sc' /\
    board_ok (myBoard sc') /\ board_ok (rivalBoard sc') /\
    (forall x y, in_grid x y = true ->
       cell (myBoard sc') x y = EMPTY /\ cell (rivalBoard sc') x y = EMPTY) /\
    ship_A sc' = [] /\ ship_B sc' = [] /\ ship_C sc' = [] /\
    ship_S sc' = [] /\ ship_P sc' = [] /\
    numHits sc' = 0 /\ numDamages sc' = 0 /\ selectedIdx sc' = 0 /\
    x_cord sc' = x_cord sc /\ y_cord sc' = y_cord sc /\
    shipMessage sc' = shipMessage sc /\
    directionMessage sc' = directionMessage sc.
Proof.
  exact (reset_result sc).
Qed.

Lemma reset_clears_scene_witness :
  board_ok (myBoard scene_at_start) /\
  exists sc',
    reset scene_at_start = Ok sc' /\
    cell (myBoard sc') 3 4 = EMPTY /\ numHits sc' = 0.
Proof.
  split; [exact empty_board_ok |].
  destruct (reset_clears_scene scene_at_start empty_board_ok empty_board_ok)
    as (sc' & E & _ & _ & Hc & _ & _ & _ & _ & _ & Hn & _).
  exists sc'. split; [exact E |]. split; [| exact Hn].
  apply (Hc 3 4). reflexivity.
Defined.

(** ** The block that restarts the game *)

Lemma renderScene_end_restarts a :
  gameMode a = END ->
  board_ok (myBoard (scene a)) ->
  board_ok (rivalBoard (scene a)) ->
  exists a1,
    renderScene_end true a = Ok a1 /\
    server a1 = server a /\
    gameMode a1 = PREPARE /\
    playerMode a1 = MY /\
    selectingMode a1 = SELECTING /\
    board_ok (myBoard (scene a1)) /\ board_ok (rivalBoard (scene a1)) /\
    (forall x y, in_grid x y = true ->
       cell (myBoard (scene a1)) x y = EMPTY /\
       cell (rivalBoard (scene a1)) x y = EMPTY) /\
    (forall c, in_fleet (scene a1) c = false) /\
    numHits (scene a1) = 0 /\ numDamages (scene a1) = 0.
Proof.
  intros Hg Hm Hr. unfold renderScene_end. rewrite Hg. cbn [GameMode_eqb].
  destruct (reset_result (scene a) Hm Hr)
    as (sc' & E & Hm' & Hr' & Hc & HA & HB & HC & HS & HP & Hh & Hd & _).
  rewrite E. cbn [bind]. eexists. split; [reflexivity |]. cbn.
  repeat split; try assumption; try apply Hm'; try apply Hr'; try apply Hc;
    try assumption.
  intros c. unfold in_fleet. cbn. rewrite HA, HB, HC, HS, HP. reflexivity.
Qed.

(** The steps of the frame after [server->update()], when it ends in a
    state. *)
Lemma frame_steps inp head a a' :
  renderScene_server inp head a = Ok a' ->
  exists srv a1 a2,
    update inp (server a) = Done srv /\
    received_attack (set_server srv a) = Ok a1 /\
    received_damage a1 = Ok a2 /\
    a' = on_server (set_my_headPose head)
           (if game_mode (server a2) then set_playerMode MY a2 else a2).
Proof.
  unfold renderScene_server.
  destruct (update inp (server a)) as [srv | f] eqn:Eu; [| discriminate].
  cbn [of_result bind]. cbv zeta.
  destruct (received_attack (set_server srv a)) as [a1 | f] eqn:E1;
    [| discriminate].
  cbn [bind].
  destruct (received_damage a1) as [a2 | f] eqn:E2; [| discriminate].
  cbn [bind]. intros [= <-]. exists srv, a1, a2.
  split; [reflexivity |]. split; [exact E1 |]. split; [exact E2 | reflexivity].
Qed.

Lemma received_attack_forms a a1 :
  board_ok (myBoard (scene a)) ->
  received_attack a = Ok a1 ->
  a1 = a \/
  exists b,
    in_grid (fst (other_attack (server a))) (snd (other_attack (server a))) = true /\
    board_ok b /\
    (forall x y, in_grid x y = true ->
       (x, y) <> (fst (other_attack (server a)), snd (other_attack (server a))) ->
       cell b x y = cell (myBoard (scene a)) x y) /\
    ((cell (myBoard (scene a)) (fst (other_attack (server a)))
           (snd (other_attack (server a))) = MARKED /\
      cell b (fst (other_attack (server a))) (snd (other_attack (server a)))
        = SHOOTED /\
      a1 = attack_hit b a) \/
     (cell (myBoard (scene a)) (fst (other_attack (server a)))
           (snd (other_attack (server a))) <> MARKED /\
      cell b (fst (other_attack (server a))) (snd (other_attack (server a)))
        = MISSED /\
      a1 = on_scene (set_myBoard b) a)).
Proof.
  intros Hb.
  destruct (Z.eq_dec (fst (other_attack (server a))) (-1)) as [E | N].
  { rewrite received_attack_none by exact E. intros [= <-]. left. reflexivity. }
  destruct (in_grid (fst (other_attack (server a)))
                    (snd (other_attack (server a)))) eqn:Hg.
  2: { rewrite received_attack_outside by assumption. discriminate. }
  destruct (received_attack_inside a N Hg Hb) as (b & Hw & ->).
  destruct (board_write_cell (myBoard (scene a)) _ _
              (if cell (myBoard (scene a)) (fst (other_attack (server a)))
                       (snd (other_attack (server a))) =? MARKED
               then SHOOTED else MISSED) Hb Hg)
    as (b' & Hw' & Hbok & Hcell & Hoth).
  rewrite Hw in Hw'. injection Hw' as <-.
  intros [= <-]. right. exists b. split; [reflexivity |].
  split; [exact Hbok |]. split; [exact Hoth |].
  destruct (Z.eqb_spec (cell (myBoard (scene a)) (fst (other_attack (server a)))
                             (snd (other_attack (server a)))) MARKED).
  - left. repeat split; assumption.
  - right. repeat split; assumption.
Qed.

(** ** Confirming the fleet *)

Lemma index_cell i :
  0 <= i < 100 ->
  in_grid (Z.rem i 10) (Z.quot (i - Z.rem i 10) 10) = true /\
  Z.rem i 10 + 10 * Z.quot (i - Z.rem i 10) 10 = i.
Proof.
  intros Hi. rewrite Z.rem_mod_nonneg by lia.
  pose proof (Z.div_mod i 10 ltac:(lia)).
  pose proof (Z.mod_pos_bound i 10 ltac:(lia)).
  assert (0 <= i / 10 < 10).
  { split; [apply Z.div_pos; lia | apply Z.div_lt_upper_bound; lia]. }
  replace (i - i mod 10) with (i / 10 * 10) by lia.
  rewrite Z.quot_div_nonneg by lia. rewrite Z.div_mul by lia.
  split; [apply in_grid_spec; lia | lia].
Qed.

Lemma mark_cells_fold sc idx :
  Forall (fun i => 0 <= i < 100) idx ->
  forall b,
    board_ok b ->
    exists b',
      fold_left (fun b i => mark_cell b sc i) idx (Ok b) = Ok b' /\
      board_ok b' /\
      forall x y, in_grid x y = true ->
        (In (x + 10 * y) idx -> in_fleet sc (x, y) = true ->
           cell b' x y = MARKED) /\
        (~ In (x + 10 * y) idx \/ in_fleet sc (x, y) = false ->
           cell b' x y = cell b x y).
Proof.
  induction 1 as [| i idx Hi _ IH]; intros b Hb.
  - exists b. split; [reflexivity |]. split; [exact Hb |].
    intros x y _. split; [intros [] | reflexivity].
  - cbn [fold_left]. destruct (index_cell i Hi) as [Hg Hsum].
    assert (Hstep : exists b1,
              mark_cell (Ok b) sc i = Ok b1 /\ board_ok b1 /\
              forall x y, in_grid x y = true ->
                cell b1 x y =
                  (if (x + 10 * y =? i) && in_fleet sc (x, y)
                   then MARKED else cell b x y)).
    { unfold mark_cell. cbn [bind]. cbv zeta.
      destruct (in_fleet sc (Z.rem i 10, Z.quot (i - Z.rem i 10) 10)) eqn:Hf.
      - destruct (board_write_cell b _ _ MARKED Hb Hg)
          as (b1 & W & Hb1 & C & O).
        exists b1. split; [exact W |]. split; [exact Hb1 |].
        intros x y Hxy. pose proof Hxy as Hxy'. apply in_grid_spec in Hxy'.
        pose proof Hg as Hg'. apply in_grid_spec in Hg'.
        destruct (Z.eqb_spec (x + 10 * y) i) as [E | N].
        + assert (x = Z.rem i 10 /\ y = Z.quot (i - Z.rem i 10) 10)
            as [-> ->] by lia.
          rewrite Hf. exact C.
        + cbn [andb]. apply O; [exact Hxy |]. intros [= -> ->]. lia.
      - exists b. split; [reflexivity |]. split; [exact Hb |].
        intros x y Hxy. pose proof Hxy as Hxy'. apply in_grid_spec in Hxy'.
        pose proof Hg as Hg'. apply in_grid_spec in Hg'.
        destruct (Z.eqb_spec (x + 10 * y) i) as [E | N]; [| reflexivity].
        assert (x = Z.rem i 10 /\ y = Z.quot (i - Z.rem i 10) 10)
          as [-> ->] by lia.
        rewrite Hf. reflexivity. }
    destruct Hstep as (b1 & E1 & Hb1 & C1). rewrite E1.
    destruct (IH b1 Hb1) as (b' & F & Hb' & P).
    exists b'. split; [exact F |]. split; [exact Hb' |].
    intros x y Hxy. destruct (P x y Hxy) as [Pin Pout].
    specialize (C1 x y Hxy). split.
    + intros Hin Hf. destruct (in_dec Z.eq_dec (x + 10 * y) idx) as [Hi' | Hn].
      * apply Pin; assumption.
      * destruct Hin as [E | Hi']; [| contradiction].
        rewrite Pout by (left; exact Hn). rewrite C1.
        rewrite <- E, Z.eqb_refl, Hf. reflexivity.
    + intros [Hn | Hf].
      * rewrite Pout by (left; intros Hi'; apply Hn; right; exact Hi').
        rewrite C1. destruct (Z.eqb_spec (x + 10 * y) i) as [E | N];
          [| reflexivity].
        exfalso. apply Hn. left. symmetry. exact E.
      * rewrite Pout by (right; exact Hf). rewrite C1, Hf, andb_false_r.
        reflexivity.
Qed.

Lemma mark_fleet_result sc :
  board_ok (myBoard sc) ->
  exists b,
    mark_fleet sc = Ok b /\ board_ok b /\
    forall x y, in_grid x y = true ->
      cell b x y =
        (if in_fleet sc (x, y) then MARKED else cell (myBoard sc) x y).
Proof.
  intros Hb. unfold mark_fleet.
  destruct (mark_cells_fold sc (map Z.of_nat (seq 0 100))) with (b := myBoard sc)
    as (b & F & Hbok & P); [| exact Hb |].
  { apply Forall_forall. intros i Hin. apply in_map_iff in Hin.
    destruct Hin as (k & <- & Hk). apply in_seq in Hk. lia. }
  exists b. split; [exact F |]. split; [exact Hbok |].
  intros x y Hxy. destruct (P x y Hxy) as [Pin Pout].
  destruct (in_fleet sc (x, y)) eqn:Hf.
  - apply Pin; [| reflexivity]. apply in_grid_spec in Hxy.
    apply in_map_iff. exists (Z.to_nat (x + 10 * y)). split; [lia |].
    apply in_seq. lia.
  - apply Pout. right. reflexivity.
Qed.

Lemma UpdateButtonX_marks (a : ExampleApp) :
  selectingMode a = SELECTING ->
  gameMode a = PREPARE ->
  length (ship_A (scene a)) = 5%nat ->
  length (ship_B (scene a)) = 4%nat ->
  length (ship_C (scene a)) = 3%nat ->
  length (ship_S (scene a)) = 2%nat ->
  length (ship_P (scene a)) = 2%nat ->
  board_ok (myBoard (scene a)) ->
  exists a',
    UpdateButtonX a = Ok a' /\
    selectingMode a' = DONE /\
    my_done (server a') = true /\
    board_ok (myBoard (scene a')) /\
    (forall x y, in_grid x y = true ->
       cell (myBoard (scene a')) x y =
         (if in_fleet (scene a) (x, y) then MARKED
          else cell (myBoard (scene a)) x y)) /\
    rivalBoard (scene a') = rivalBoard (scene a).
Proof.
  intros Hs Hg HA HB HC HS HP Hb. unfold UpdateButtonX.
  rewrite Hs, Hg, HA, HB, HC, HS, HP. cbn [SelectingMode_eqb GameMode_eqb andb Nat.eqb].
  cbv zeta.
  destruct (mark_fleet_result (scene a) Hb) as (b & E & Hbok & Hc).
  change (scene (set_buttonAPressed false (set_selectingMode DONE a)))
    with (scene a).
  rewrite E. cbn [bind]. eexists. split; [reflexivity |]. cbn.
  repeat split; try apply Hbok. exact Hc.
Qed.

(** X16. The fleet is confirmed as a whole.  In mode PREPARE while
    selecting, with the five warships holding 5, 4, 3, 2 and 2 cells,
    button X marks on myBoard exactly the cells of the warships, leaves
    every other cell and rivalBoard as they are, never indexes outside the
    board, ends the selection and sets my_done. *)
Theorem fleet_is_marked (a : ExampleApp) :
  selectingMode a = SELECTING ->
  gameMode a = PREPARE ->
  length (ship_A (scene a)) = 5%nat ->
  length (ship_B (scene a)) = 4%nat ->
  length (ship_C (scene a)) = 3%nat ->
  length (ship_S (scene a)) = 2%nat ->
  length (ship_P (scene a)) = 2%nat ->
  board_ok (myBoard (scene a)) ->
  exists a',
    UpdateButtonX a = Ok a' /\
    selectingMode a' = DONE /\
    my_done (server a') = true /\
    board_ok (myBoard (scene a')) /\
    (forall x y, in_grid x y = true ->
       cell (myBoard (scene a')) x y =
         (if in_fleet (scene a) (x, y) then MARKED
          else cell (myBoard (scene a)) x y)) /\
    rivalBoard (scene a') = rivalBoard (scene a).
Proof.
  exact (UpdateButtonX_marks a).
Qed.

(** X17. my_done stands for a complete fleet.  Button X sets my_done only
    in mode PREPARE while selecting and only when the warships hold 5, 4,
    3, 2 and 2 cells; in every other case it leaves the server and both
    boards as they are. *)
Theorem my_done_needs_fleet (a a' : ExampleApp) :
  UpdateButtonX a = Ok a' ->
  (selectingMode a = SELECTING /\ gameMode a = PREPARE /\
   length (ship_A (scene a)) = 5%nat /\ length (ship_B (scene a)) = 4%nat /\
   length (ship_C (scene a)) = 3%nat /\ length (ship_S (scene a)) = 2%nat /\
   length (ship_P (scene a)) = 2%nat /\ my_done (server a') = true) \/
  (server a' = server a /\ myBoard (scene a') = myBoard (scene a) /\
   rivalBoard (scene a') = rivalBoard (scene a) /\
   selectingMode a' = selectingMode a).
Proof.
  unfold UpdateButtonX.
  destruct (SelectingMode_eqb (selectingMode a) SELECTING
            && GameMode_eqb (gameMode a) PREPARE) eqn:Hm.
  2: { intros H. injection H as <-. right. repeat split; reflexivity. }
  apply andb_true_iff in Hm. destruct Hm as [Hs Hg].
  destruct ((length (ship_A (scene a)) =? 5)%nat
            && (length (ship_B (scene a)) =? 4)%nat
            && (length (ship_C (scene a)) =? 3)%nat
            && (length (ship_S (scene a)) =? 2)%nat
            && (length (ship_P (scene a)) =? 2)%nat) eqn:Hl.
  2: { intros H. injection H as <-. right. repeat split; reflexivity. }
  apply andb_true_iff in Hl. destruct Hl as [Hl HP].
  apply andb_true_iff in Hl. destruct Hl as [Hl HS].
  apply andb_true_iff in Hl. destruct Hl as [Hl HC].
  apply andb_true_iff in Hl. destruct Hl as [HA HB].
  apply Nat.eqb_eq in HA, HB, HC, HS, HP.
  cbv zeta.
  destruct (mark_fleet (scene (set_buttonAPressed false (set_selectingMode DONE a))))
    as [b | f]; cbn [bind]; [| discriminate].
  intros H. injection H as <-. left.
  split; [destruct (selectingMode a); [reflexivity | discriminate] |].
  split; [destruct (gameMode a); [reflexivity | discriminate ..] |].
  repeat (split; [assumption |]). reflexivity.
Qed.

Lemma fleet_is_marked_witness :
  exists a',
    UpdateButtonX app_with_fleet = Ok a' /\
    my_done (server a') = true /\
    cell (myBoard (scene a')) 0 4 = MARKED /\
    cell (myBoard (scene a')) 0 5 = EMPTY.
Proof.
  destruct (fleet_is_marked app_with_fleet eq_refl eq_refl eq_refl eq_refl
              eq_refl eq_refl eq_refl empty_board_ok)
    as (a' & E & _ & Hd & _ & Hc & _).
  exists a'. split; [exact E |]. split; [exact Hd |].
  split; [exact (Hc 0 4 eq_refl) | exact (Hc 0 5 eq_refl)].
Defined.

Lemma my_done_needs_fleet_witness :
  exists a',
    UpdateButtonX app_at_start = Ok a' /\
    server a' = server app_at_start /\
    myBoard (scene a') = myBoard (scene app_at_start).
Proof.
  exists (on_scene (set_shipMessage EmptyString) app_at_start).
  split; [reflexivity |].
  destruct (my_done_needs_fleet app_at_start
              (on_scene (set_shipMessage EmptyString) app_at_start) eq_refl)
    as [(_ & _ & H & _) | (Hs & Hb & _)].
  - discriminate H.
  - split; assumption.
Defined.

(** ** Placing the warships *)

Lemma found_In v c : found v c = true <-> In c v.
Proof.
  unfold found. rewrite existsb_exists. split.
  - intros (c' & Hin & Hc). apply andb_true_iff in Hc.
    destruct Hc as [H1 H2]. apply Z.eqb_eq in H1, H2.
    destruct c, c'. cbn in H1, H2. subst. exact Hin.
  - intros Hin. exists c. split; [exact Hin |].
    rewrite !Z.eqb_refl. reflexivity.
Qed.

Lemma in_fleet_ships sc c :
  in_fleet sc c = true <-> exists w, In c (ship_of w sc).
Proof.
  unfold in_fleet. rewrite !orb_true_iff, !found_In. split.
  - intros [[[[H | H] | H] | H] | H];
      [exists A_Ship | exists B_Ship | exists C_Ship | exists S_Ship
       | exists P_Ship]; exact H.
  - intros ([] & H); cbn in H; tauto.
Qed.

Lemma ship_of_set_ship_same w v sc : ship_of w (set_ship w v sc) = v.
Proof. destruct w; reflexivity. Qed.

Lemma ship_of_set_ship_other w w' v sc :
  w' <> w -> ship_of w' (set_ship w v sc) = ship_of w' sc.
Proof. destruct w, w'; intros H; try reflexivity; contradiction. Qed.

Lemma ship_of_set_directionMessage w m sc :
  ship_of w (set_directionMessage m sc) = ship_of w sc.
Proof. destruct w; reflexivity. Qed.

Lemma WarshipMode_eq_dec (w w' : WarshipMode) : {w = w'} + {w <> w'}.
Proof. decide equality. Qed.

Lemma fleet_ok_message m sc :
  fleet_ok sc -> fleet_ok (set_directionMessage m sc).
Proof.
  intros [N A G]. constructor.
  - intros w. rewrite ship_of_set_directionMessage. apply N.
  - intros w w' c. rewrite !ship_of_set_directionMessage. apply A.
  - intros w c. rewrite ship_of_set_directionMessage. apply G.
Qed.

Lemma fleet_ok_clear w sc : fleet_ok sc -> fleet_ok (set_ship w [] sc).
Proof.
  intros [N A G]. constructor.
  - intros w1. destruct (WarshipMode_eq_dec w1 w) as [-> | D].
    + rewrite ship_of_set_ship_same. constructor.
    + rewrite ship_of_set_ship_other by exact D. apply N.
  - intros w1 w2 c D.
    destruct (WarshipMode_eq_dec w1 w) as [-> | D1].
    + rewrite ship_of_set_ship_same. intros [].
    + rewrite (ship_of_set_ship_other w w1) by exact D1.
      destruct (WarshipMode_eq_dec w2 w) as [-> | D2].
      * rewrite ship_of_set_ship_same. intros _ [].
      * rewrite ship_of_set_ship_other by exact D2. apply A, D.
  - intros w1 c. destruct (WarshipMode_eq_dec w1 w) as [-> | D].
    + rewrite ship_of_set_ship_same. intros [].
    + rewrite ship_of_set_ship_other by exact D. apply G.
Qed.

Lemma fleet_ok_push w c sc :
  fleet_ok sc ->
  checkAvailability sc c = true ->
  in_grid (fst c) (snd c) = true ->
  fleet_ok (set_ship w (ship_of w sc ++ [c]) sc).
Proof.
  intros [N A G] Hc Hg.
  assert (Hfree : forall w1, ~ In c (ship_of w1 sc)).
  { intros w1 Hin. unfold checkAvailability in Hc.
    destruct (in_fleet sc c) eqn:Hf; [discriminate |].
    assert (in_fleet sc c = true) by (apply in_fleet_ships; exists w1; exact Hin).
    congruence. }
  constructor.
  - intros w1. destruct (WarshipMode_eq_dec w1 w) as [-> | D].
    + rewrite ship_of_set_ship_same. apply NoDup_app.
      * apply N.
      * constructor; [intros [] | constructor].
      * intros c' Hin [<- | []]. exact (Hfree w Hin).
    + rewrite ship_of_set_ship_other by exact D. apply N.
  - intros w1 w2 c' D.
    destruct (WarshipMode_eq_dec w1 w) as [-> | D1].
    + rewrite ship_of_set_ship_same.
      rewrite ship_of_set_ship_other by (intros E; apply D; symmetry; exact E).
      intros Hin. apply in_app_or in Hin. destruct Hin as [Hin | [<- | []]].
      * apply (A w w2 c' D Hin).
      * apply Hfree.
    + rewrite (ship_of_set_ship_other w w1) by exact D1.
      destruct (WarshipMode_eq_dec w2 w) as [-> | D2].
      * rewrite ship_of_set_ship_same. intros Hin Hin2.
        apply in_app_or in Hin2. destruct Hin2 as [Hin2 | [<- | []]].
        -- exact (A w1 w c' D Hin Hin2).
        -- exact (Hfree w1 Hin).
      * rewrite ship_of_set_ship_other by exact D2. apply A, D.
  - intros w1 c'. destruct (WarshipMode_eq_dec w1 w) as [-> | D].
    + rewrite ship_of_set_ship_same. intros Hin.
      apply in_app_or in Hin. destruct Hin as [Hin | [<- | []]].
      * exact (G w c' Hin).
      * exact Hg.
    + rewrite ship_of_set_ship_other by exact D. apply G.
Qed.

Lemma but_ship_set_ship w v sc : but_ship w (set_ship w v sc) = but_ship w sc.
Proof. destruct w; reflexivity. Qed.

Lemma but_ship_set_directionMessage w m sc :
  but_ship w (set_directionMessage m sc) = but_ship w sc.
Proof. destruct w; reflexivity. Qed.

Lemma but_ship_cursor w sc :
  x_cord (but_ship w sc) = x_cord sc /\ y_cord (but_ship w sc) = y_cord sc.
Proof. destruct w; split; reflexivity. Qed.

Lemma but_ship_twice w sc : but_ship w (but_ship w sc) = but_ship w sc.
Proof. destruct w; reflexivity. Qed.

Lemma clear_then_message w sc :
  set_directionMessage EmptyString (set_ship w [] sc) = but_ship w sc.
Proof. destruct w; reflexivity. Qed.

Lemma place_loop_but_ship w at_step msg n :
  forall i sc,
    but_ship w (place_loop n i w at_step msg sc) = but_ship w sc.
Proof.
  induction n as [| n IH]; intros i sc; cbn [place_loop].
  - reflexivity.
  - destruct (checkAvailability sc (at_step sc i)).
    + rewrite IH. apply but_ship_set_ship.
    + rewrite but_ship_set_directionMessage. apply but_ship_set_ship.
Qed.

Lemma place_loop_spec w at_step msg :
  (forall s v k, at_step (set_ship w v s) k = at_step s k) ->
  forall n i sc,
    fleet_ok sc ->
    (forall k, (k < n)%nat ->
       in_grid (fst (at_step sc (i + Z.of_nat k)))
               (snd (at_step sc (i + Z.of_nat k))) = true) ->
    fleet_ok (place_loop n i w at_step msg sc) /\
    (forall w', w' <> w ->
       ship_of w' (place_loop n i w at_step msg sc) = ship_of w' sc) /\
    (ship_of w (place_loop n i w at_step msg sc) = [] \/
     ship_of w (place_loop n i w at_step msg sc) =
       ship_of w sc ++ map (fun k => at_step sc (i + Z.of_nat k)) (seq 0 n)).
Proof.
  intros Hat. induction n as [| n IH]; intros i sc Hok Hg; cbn [place_loop].
  - split; [exact Hok |]. split; [reflexivity |]. right.
    cbn. rewrite app_nil_r. reflexivity.
  - destruct (checkAvailability sc (at_step sc i)) eqn:Hc.
    + assert (Hg0 : in_grid (fst (at_step sc i)) (snd (at_step sc i)) = true).
      { specialize (Hg 0%nat ltac:(lia)). rewrite Z.add_0_r in Hg. exact Hg. }
      pose proof (fleet_ok_push w _ sc Hok Hc Hg0) as Hok'.
      destruct (IH (i + 1) _ Hok') as (R1 & R2 & R3).
      { intros k Hk. rewrite Hat.
        replace (i + 1 + Z.of_nat k) with (i + Z.of_nat (S k)) by lia.
        apply Hg. lia. }
      split; [exact R1 |]. split.
      * intros w' D. rewrite R2 by exact D.
        apply ship_of_set_ship_other, D.
      * destruct R3 as [R3 | R3]; [left; exact R3 | right].
        rewrite R3, ship_of_set_ship_same, <- app_assoc. f_equal.
        cbn [app seq map]. rewrite <- seq_shift, map_map.
        rewrite Z.add_0_r. f_equal.
        apply map_ext. intros k. rewrite Hat. f_equal. lia.
    + split; [apply fleet_ok_message, fleet_ok_clear, Hok |]. split.
      * intros w' D. rewrite ship_of_set_directionMessage.
        apply ship_of_set_ship_other, D.
      * left. rewrite ship_of_set_directionMessage.
        apply ship_of_set_ship_same.
Qed.

Lemma placeWarship_but_ship d w size sc :
  but_ship w (placeWarship d w size sc) = but_ship w sc.
Proof.
  unfold placeWarship. destruct d.
  - apply but_ship_set_directionMessage.
  - destruct (_ <=? _); cbv zeta.
    + rewrite place_loop_but_ship, but_ship_set_directionMessage.
      apply but_ship_set_ship.
    + apply but_ship_set_directionMessage.
  - destruct (_ <=? _); cbv zeta.
    + rewrite place_loop_but_ship, but_ship_set_directionMessage.
      apply but_ship_set_ship.
    + apply but_ship_set_directionMessage.
  - destruct (_ <=? _); cbv zeta.
    + rewrite place_loop_but_ship, but_ship_set_ship.
      apply but_ship_set_directionMessage.
    + apply but_ship_set_directionMessage.
  - destruct (_ <=? _); cbv zeta.
    + rewrite place_loop_but_ship, but_ship_set_ship.
      apply but_ship_set_directionMessage.
    + apply but_ship_set_directionMessage.
Qed.

Lemma placeWarship_cursor d w size sc :
  x_cord (placeWarship d w size sc) = x_cord sc /\
  y_cord (placeWarship d w size sc) = y_cord sc.
Proof.
  pose proof (placeWarship_but_ship d w size sc) as H.
  destruct (but_ship_cursor w (placeWarship d w size sc)) as [X Y].
  destruct (but_ship_cursor w sc) as [X' Y'].
  rewrite <- X, <- Y, H. split; assumption.
Qed.

(** A placement reads the scene only through what [but_ship] keeps, unless
    the warship does not fit and only the message is set. *)
Lemma placeWarship_reads d w size sc :
  placeWarship d w size sc = placeWarship d w size (but_ship w sc) \/
  exists m, forall s,
      x_cord s = x_cord sc -> y_cord s = y_cord sc ->
      placeWarship d w size s = set_directionMessage m s.
Proof.
  unfold placeWarship. destruct (but_ship_cursor w sc) as [X Y].
  destruct d.
  - right. exists EmptyString. reflexivity.
  - rewrite Y.
    destruct (to_uint (size - 1) <=? to_uint (y_cord sc)) eqn:E; cbv zeta.
    + left. rewrite !clear_then_message, but_ship_twice. reflexivity.
    + right. eexists. intros s _ ->. rewrite E. reflexivity.
  - rewrite X.
    destruct (to_uint (size - 1) <=? to_uint (to_int (9 - x_cord sc))) eqn:E;
      cbv zeta.
    + left. rewrite !clear_then_message, but_ship_twice. reflexivity.
    + right. eexists. intros s -> _. rewrite E. reflexivity.
  - rewrite Y.
    destruct (to_uint (size - 1) <=? to_uint (to_int (9 - y_cord sc))) eqn:E;
      cbv zeta.
    + left. fold (but_ship w sc). fold (but_ship w (but_ship w sc)).
      rewrite but_ship_twice. reflexivity.
    + right. eexists. intros s _ ->. rewrite E. reflexivity.
  - rewrite X.
    destruct (to_uint (size - 1) <=? to_uint (x_cord sc)) eqn:E; cbv zeta.
    + left. fold (but_ship w sc). fold (but_ship w (but_ship w sc)).
      rewrite but_ship_twice. reflexivity.
    + right. eexists. intros s -> _. rewrite E. reflexivity.
Qed.

Lemma placeWarship_twice d w size sc :
  placeWarship d w size (placeWarship d w size sc) = placeWarship d w size sc.
Proof.
  destruct (placeWarship_cursor d w size sc) as [X Y].
  destruct (placeWarship_reads d w size sc) as [H | (m & H)].
  - destruct (placeWarship_reads d w size (placeWarship d w size sc))
      as [H' | (m' & H')].
    + rewrite H', placeWarship_but_ship. symmetry. exact H.
    + rewrite (H' sc) in H by (symmetry; assumption).
      rewrite (H' (but_ship w sc)) in H.
      2, 3: destruct (but_ship_cursor w sc) as [X' Y']; congruence.
      rewrite (H' _ eq_refl eq_refl). rewrite (H' sc) by (symmetry; assumption).
      reflexivity.
  - rewrite (H _ X Y). rewrite (H sc eq_refl eq_refl). reflexivity.
Qed.

Lemma fleet_ok_but_ship w sc : fleet_ok sc -> fleet_ok (but_ship w sc).
Proof. intros H. apply fleet_ok_clear, fleet_ok_message, H. Qed.

Lemma ship_of_but_ship_same w sc : ship_of w (but_ship w sc) = [].
Proof. apply ship_of_set_ship_same. Qed.

Lemma ship_of_but_ship_other w w' sc :
  w' <> w -> ship_of w' (but_ship w sc) = ship_of w' sc.
Proof.
  intros D. unfold but_ship. rewrite ship_of_set_ship_other by exact D.
  apply ship_of_set_directionMessage.
Qed.

(** A loop of [placeWarship] that starts from the cleared warship and
    walks cells of the board. *)
Lemma placed_line d w size sc at_step msg :
  (forall s v k, at_step (set_ship w v s) k = at_step s k) ->
  fleet_ok sc ->
  (forall k, 0 <= k < size ->
     at_step (but_ship w sc) k = ahead d (x_cord sc) (y_cord sc) k /\
     in_grid (fst (ahead d (x_cord sc) (y_cord sc) k))
             (snd (ahead d (x_cord sc) (y_cord sc) k)) = true) ->
  fleet_ok (place_loop (Z.to_nat size) 0 w at_step msg (but_ship w sc)) /\
  (forall w', w' <> w ->
     ship_of w' (place_loop (Z.to_nat size) 0 w at_step msg (but_ship w sc))
       = ship_of w' sc) /\
  (ship_of w (place_loop (Z.to_nat size) 0 w at_step msg (but_ship w sc)) = [] \/
   ship_of w (place_loop (Z.to_nat size) 0 w at_step msg (but_ship w sc))
     = line d size sc).
Proof.
  intros Hat Hok Hcells.
  destruct (place_loop_spec w at_step msg Hat (Z.to_nat size) 0 (but_ship w sc)
              (fleet_ok_but_ship w sc Hok)) as (R1 & R2 & R3).
  { intros k Hk. destruct (Hcells (Z.of_nat k) ltac:(lia)) as [E G].
    rewrite Z.add_0_l, E. exact G. }
  split; [exact R1 |]. split.
  - intros w' D. rewrite R2 by exact D. apply ship_of_but_ship_other, D.
  - destruct R3 as [R3 | R3]; [left; exact R3 | right].
    rewrite R3, ship_of_but_ship_same. cbn [app]. unfold line.
    apply map_ext_in. intros k Hk. apply in_seq in Hk.
    rewrite Z.add_0_l. apply Hcells. lia.
Qed.

Lemma to_uint_minus_one : to_uint (0 - 1) = UINT_MOD - 1.
Proof. reflexivity. Qed.

Lemma fits_ahead size v :
  0 <= size < UINT_MOD -> 0 <= v <= 9 ->
  (to_uint (size - 1) <=? to_uint v) = true ->
  1 <= size <= v + 1.
Proof.
  intros Hs Hv H. apply Z.leb_le in H.
  rewrite (to_uint_small v) in H by (unfold UINT_MOD; lia).
  destruct (Z.eq_dec size 0) as [-> | N].
  - rewrite to_uint_minus_one in H. unfold UINT_MOD in H. lia.
  - rewrite to_uint_small in H by lia. lia.
Qed.

Lemma to_int_digit v : 0 <= v <= 9 -> to_int v = v.
Proof. intros H. apply to_int_small. unfold INT_MAX. lia. Qed.

Lemma to_uint_digit v : 0 <= v <= 9 -> to_uint v = v.
Proof. intros H. apply to_uint_small. unfold UINT_MOD. lia. Qed.

Lemma placeWarship_fleet d w size sc :
  in_grid (x_cord sc) (y_cord sc) = true ->
  0 <= size < UINT_MOD ->
  fleet_ok sc ->
  fleet_ok (placeWarship d w size sc) /\
  (forall w', w' <> w ->
     ship_of w' (placeWarship d w size sc) = ship_of w' sc) /\
  (ship_of w (placeWarship d w size sc) = ship_of w sc \/
   ship_of w (placeWarship d w size sc) = [] \/
   ship_of w (placeWarship d w size sc) = line d size sc).
Proof.
  intros Hg Hs Hok. apply in_grid_spec in Hg. destruct Hg as [Hx Hy].
  assert (Hmsg : forall m,
    fleet_ok (set_directionMessage m sc) /\
    (forall w', w' <> w ->
       ship_of w' (set_directionMessage m sc) = ship_of w' sc) /\
    (ship_of w (set_directionMessage m sc) = ship_of w sc \/
     ship_of w (set_directionMessage m sc) = [] \/
     ship_of w (set_directionMessage m sc) = line d size sc)).
  { intros m. split; [apply fleet_ok_message, Hok |]. split.
    - intros w' _. apply ship_of_set_directionMessage.
    - left. apply ship_of_set_directionMessage. }
  assert (Hloop : forall at_step msg,
    (forall s v k, at_step (set_ship w v s) k = at_step s k) ->
    (forall k, 0 <= k < size ->
       at_step (but_ship w sc) k = ahead d (x_cord sc) (y_cord sc) k /\
       in_grid (fst (ahead d (x_cord sc) (y_cord sc) k))
               (snd (ahead d (x_cord sc) (y_cord sc) k)) = true) ->
    fleet_ok (place_loop (Z.to_nat size) 0 w at_step msg (but_ship w sc)) /\
    (forall w', w' <> w ->
       ship_of w' (place_loop (Z.to_nat size) 0 w at_step msg (but_ship w sc))
         = ship_of w' sc) /\
    (ship_of w (place_loop (Z.to_nat size) 0 w at_step msg (but_ship w sc))
       = ship_of w sc \/
     ship_of w (place_loop (Z.to_nat size) 0 w at_step msg (but_ship w sc)) = [] \/
     ship_of w (place_loop (Z.to_nat size) 0 w at_step msg (but_ship w sc))
       = line d size sc)).
  { intros at_step msg Hat Hcells.
    destruct (placed_line d w size sc at_step msg Hat Hok Hcells)
      as (R1 & R2 & R3).
    split; [exact R1 |]. split; [exact R2 |]. right. exact R3. }
  destruct (but_ship_cursor w sc) as [X Y].
  unfold placeWarship. destruct d.
  - apply Hmsg.
  - destruct (to_uint (size - 1) <=? to_uint (y_cord sc)) eqn:E;
      [| apply Hmsg].
    cbv zeta. rewrite clear_then_message.
    pose proof (fits_ahead size (y_cord sc) Hs ltac:(lia) E) as Hfit.
    apply Hloop.
    + intros s v k. destruct w; reflexivity.
    + intros k Hk. cbv beta. rewrite X, Y. unfold ahead.
      rewrite to_uint_digit by lia. rewrite to_int_digit by lia.
      split; [reflexivity |]. apply in_grid_spec. cbn [fst snd]. lia.
  - destruct (to_uint (size - 1) <=? to_uint (to_int (9 - x_cord sc))) eqn:E;
      [| apply Hmsg].
    cbv zeta. rewrite clear_then_message.
    rewrite to_int_digit in E by lia.
    pose proof (fits_ahead size (9 - x_cord sc) Hs ltac:(lia) E) as Hfit.
    apply Hloop.
    + intros s v k. destruct w; reflexivity.
    + intros k Hk. cbv beta. rewrite X, Y. unfold ahead.
      rewrite to_uint_digit by lia. rewrite to_int_digit by lia.
      split; [reflexivity |]. apply in_grid_spec. cbn [fst snd]. lia.
  - destruct (to_uint (size - 1) <=? to_uint (to_int (9 - y_cord sc))) eqn:E;
      [| apply Hmsg].
    cbv zeta. fold (but_ship w sc).
    rewrite to_int_digit in E by lia.
    pose proof (fits_ahead size (9 - y_cord sc) Hs ltac:(lia) E) as Hfit.
    apply Hloop.
    + intros s v k. destruct w; reflexivity.
    + intros k Hk. cbv beta. rewrite X, Y. unfold ahead.
      rewrite to_uint_digit by lia. rewrite to_int_digit by lia.
      split; [reflexivity |]. apply in_grid_spec. cbn [fst snd]. lia.
  - destruct (to_uint (size - 1) <=? to_uint (x_cord sc)) eqn:E;
      [| apply Hmsg].
    cbv zeta. fold (but_ship w sc).
    pose proof (fits_ahead size (x_cord sc) Hs ltac:(lia) E) as Hfit.
    apply Hloop.
    + intros s v k. destruct w; reflexivity.
    + intros k Hk. cbv beta. rewrite X, Y. unfold ahead.
      rewrite to_uint_digit by lia. rewrite to_int_digit by lia.
      split; [reflexivity |]. apply in_grid_spec. cbn [fst snd]. lia.
Qed.

(** X18. Placing keeps the fleet in order.  With the cursor on the board
    and a fleet whose warships lie on the board and share no cell,
    [placeWarship] leaves such a fleet: the other warships are as before,
    and the placed one is as before, empty, or the [size] cells from the
    cursor in the chosen direction; nothing but this warship and the
    message on the direction changes. *)
Theorem placeWarship_keeps_fleet
  (d : DirectionMode) (w : WarshipMode) (size : Z) (sc : Scene) :
  in_grid (x_cord sc) (y_cord sc) = true ->
  0 <= size < UINT_MOD ->
  fleet_ok sc ->
  fleet_ok (placeWarship d w size sc) /\
  (forall w', w' <> w ->
     ship_of w' (placeWarship d w size sc) = ship_of w' sc) /\
  (ship_of w (placeWarship d w size sc) = ship_of w sc \/
   ship_of w (placeWarship d w size sc) = [] \/
   ship_of w (placeWarship d w size sc) = line d size sc) /\
  but_ship w (placeWarship d w size sc) = but_ship w sc.
Proof.
  intros Hg Hs Hok.
  destruct (placeWarship_fleet d w size sc Hg Hs Hok) as (R1 & R2 & R3).
  split; [exact R1 |]. split; [exact R2 |]. split; [exact R3 |].
  apply placeWarship_but_ship.
Qed.

(** X19. Placing again changes nothing.  [UpdateWarshipPosition] applied
    to its own result returns it, so the call at the end of a frame adds
    nothing to the one [UpdateButtonB] has made in the same frame. *)
Theorem UpdateWarshipPosition_twice (a : ExampleApp) :
  UpdateWarshipPosition (UpdateWarshipPosition a) = UpdateWarshipPosition a /\
  UpdateWarshipPosition (UpdateButtonB a) = UpdateButtonB a.
Proof.
  assert (H : forall a,
    UpdateWarshipPosition (UpdateWarshipPosition a) = UpdateWarshipPosition a).
  { intros b. unfold UpdateWarshipPosition.
    destruct (warshipMode b) eqn:Ew; unfold on_scene; cbn;
      rewrite Ew, placeWarship_twice; reflexivity. }
  split; [apply H |]. unfold UpdateButtonB. cbv zeta. apply H.
Qed.

Lemma scene_with_fleet_ok : fleet_ok scene_with_fleet.
Proof.
  constructor.
  - intros []; cbn; repeat constructor; cbn; intuition discriminate.
  - intros [] [] c D H1 H2; try (exact (D eq_refl));
      cbn in H1, H2; intuition congruence.
  - intros [] c H; cbn in H; intuition (subst; reflexivity).
Qed.

Lemma placeWarship_keeps_fleet_witness :
  fleet_ok (placeWarship DOWN P_Ship 2 scene_with_fleet) /\
  ship_of A_Ship (placeWarship DOWN P_Ship 2 scene_with_fleet)
    = ship_of A_Ship scene_with_fleet.
Proof.
  assert (Hs : 0 <= 2 < UINT_MOD) by (unfold UINT_MOD; lia).
  pose proof (placeWarship_keeps_fleet DOWN P_Ship 2 scene_with_fleet
                eq_refl Hs scene_with_fleet_ok) as H.
  split; [exact (proj1 H) |].
  apply (proj1 (proj2 H)). discriminate.
Defined.

(** ** Counting the cells of the fleet *)

Lemma NoDup_flat_map {A B : Type} (f : A -> list B) (l : list A) :
  NoDup l ->
  (forall x, In x l -> NoDup (f x)) ->
  (forall x y c, In x l -> In y l -> In c (f x) -> In c (f y) -> x = y) ->
  NoDup (flat_map f l).
Proof.
  induction l as [| a l IH]; intros Hl Hf Hd; cbn [flat_map].
  - constructor.
  - apply NoDup_cons_iff in Hl. destruct Hl as [Ha Hl].
    apply NoDup_app.
    + apply Hf. left. reflexivity.
    + apply IH; [exact Hl | |].
      * intros x Hx. apply Hf. right. exact Hx.
      * intros x y c Hx Hy. apply Hd; right; assumption.
    + intros c Hc Hin. apply in_flat_map in Hin.
      destruct Hin as (y & Hy & Hcy). apply Ha.
      rewrite (Hd a y c); [exact Hy | left; reflexivity | right; exact Hy
                           | exact Hc | exact Hcy].
Qed.

Lemma NoDup_grid_indices : NoDup grid_indices.
Proof.
  unfold grid_indices. apply Injective_map_NoDup.
  - intros x y. apply Nat2Z.inj.
  - apply seq_NoDup.
Qed.

Lemma NoDup_all_cells : NoDup all_cells.
Proof.
  unfold all_cells. apply NoDup_flat_map.
  - apply NoDup_grid_indices.
  - intros x _. apply Injective_map_NoDup.
    + intros y y' H. injection H as ->. reflexivity.
    + apply NoDup_grid_indices.
  - intros x x' c _ _ H H'. apply in_map_iff in H, H'.
    destruct H as (y & <- & _). destruct H' as (y' & E & _).
    injection E as -> _. reflexivity.
Qed.

Lemma filter_length_flip {A : Type} (f g : A -> bool) (l : list A) (c : A) :
  NoDup l -> In c l ->
  (forall x, In x l -> x <> c -> f x = g x) ->
  f c = true -> g c = false ->
  length (filter f l) = S (length (filter g l)).
Proof.
  intros Hl Hin Hsame Hf Hg. induction l as [| a l IH]; [destruct Hin |].
  apply NoDup_cons_iff in Hl. destruct Hl as [Ha Hl]. cbn [filter].
  destruct Hin as [-> | Hin].
  - rewrite Hf, Hg. cbn [length]. f_equal. f_equal.
    apply filter_ext_in. intros x Hx. apply Hsame; [right; exact Hx |].
    intros ->. exact (Ha Hx).
  - rewrite (Hsame a) by
      (first [left; reflexivity | intros ->; exact (Ha Hin)]).
    assert (IH' := IH Hl Hin (fun x Hx => Hsame x (or_intror Hx))).
    destruct (g a); cbn [length]; rewrite IH'; reflexivity.
Qed.

Lemma marked_cells_same b b' :
  (forall x y, in_grid x y = true ->
     (cell b' x y =? MARKED) = (cell b x y =? MARKED)) ->
  marked_cells b' = marked_cells b.
Proof.
  intros H. unfold marked_cells. f_equal. apply filter_ext_in.
  intros [x y] Hin. apply in_all_cells in Hin. cbn [fst snd]. apply H, Hin.
Qed.

Lemma marked_cells_sunk b b' x y :
  in_grid x y = true ->
  (forall x' y', in_grid x' y' = true -> (x', y') <> (x, y) ->
     cell b' x' y' = cell b x' y') ->
  cell b x y = MARKED ->
  cell b' x y <> MARKED ->
  marked_cells b = S (marked_cells b').
Proof.
  intros Hg Hother Hb Hb'. unfold marked_cells.
  apply (filter_length_flip _ _ all_cells (x, y)).
  - apply NoDup_all_cells.
  - apply in_all_cells, Hg.
  - intros [x' y'] Hin Hne. apply in_all_cells in Hin. cbn [fst snd].
    rewrite (Hother x' y' Hin Hne). reflexivity.
  - cbn [fst snd]. rewrite Hb. reflexivity.
  - cbn [fst snd]. apply Z.eqb_neq, Hb'.
Qed.

Lemma in_fleet_cells sc c : In c (fleet_cells sc) <-> in_fleet sc c = true.
Proof.
  rewrite in_fleet_ships. unfold fleet_cells. rewrite in_flat_map. split.
  - intros (w & _ & H). exists w. exact H.
  - intros (w & H). exists w. split; [| exact H].
    destruct w; cbn; tauto.
Qed.

Lemma NoDup_fleet_cells sc : fleet_ok sc -> NoDup (fleet_cells sc).
Proof.
  intros [N A G]. unfold fleet_cells. apply NoDup_flat_map.
  - unfold all_ships. repeat constructor; cbn; intuition discriminate.
  - intros w _. apply N.
  - intros w w' c _ _ H H'.
    destruct (WarshipMode_eq_dec w w') as [E | D]; [exact E |].
    destruct (A w w' c D H H').
Qed.

Lemma fleet_on_board sc :
  fleet_ok sc ->
  length (filter (in_fleet sc) all_cells) = length (fleet_cells sc).
Proof.
  intros Hok. apply Nat.le_antisymm.
  - apply NoDup_incl_length.
    + apply NoDup_filter, NoDup_all_cells.
    + intros c Hc. apply filter_In in Hc. apply in_fleet_cells, Hc.
  - apply NoDup_incl_length.
    + apply NoDup_fleet_cells, Hok.
    + intros c Hc. apply filter_In. split.
      * apply in_fleet_cells, in_fleet_ships in Hc. destruct Hc as (w & Hw).
        pose proof (fo_grid sc Hok w c Hw) as Hg.
        destruct c as [x y]. apply in_all_cells, Hg.
      * apply in_fleet_cells, Hc.
Qed.

Lemma length_fleet_cells sc :
  length (fleet_cells sc) =
    (length (ship_A sc) + length (ship_B sc) + length (ship_C sc)
     + length (ship_S sc) + length (ship_P sc))%nat.
Proof.
  unfold fleet_cells, all_ships. cbn [flat_map ship_of].
  rewrite !length_app. cbn [length]. lia.
Qed.

(** X20. A complete fleet covers sixteen cells.  When the warships lie on
    the board and share no cell, and no cell of myBoard is MARKED yet,
    confirming the complete fleet with button X leaves exactly sixteen
    MARKED cells, the number of damages at which [renderScene] declares
    the game lost. *)
Theorem complete_fleet_marks_sixteen (a : ExampleApp) :
  selectingMode a = SELECTING ->
  gameMode a = PREPARE ->
  length (ship_A (scene a)) = 5%nat ->
  length (ship_B (scene a)) = 4%nat ->
  length (ship_C (scene a)) = 3%nat ->
  length (ship_S (scene a)) = 2%nat ->
  length (ship_P (scene a)) = 2%nat ->
  board_ok (myBoard (scene a)) ->
  fleet_ok (scene a) ->
  (forall x y, in_grid x y = true -> cell (myBoard (scene a)) x y <> MARKED) ->
  exists a',
    UpdateButtonX a = Ok a' /\
    marked_cells (myBoard (scene a')) = 16%nat.
Proof.
  intros Hs Hg HA HB HC HS HP Hb Hok Hfree.
  destruct (UpdateButtonX_marks a Hs Hg HA HB HC HS HP Hb)
    as (a' & E & _ & _ & _ & Hc & _).
  exists a'. split; [exact E |].
  transitivity (length (filter (in_fleet (scene a)) all_cells)).
  - unfold marked_cells. f_equal. apply filter_ext_in.
    intros [x y] Hin. apply in_all_cells in Hin. cbn [fst snd].
    rewrite (Hc x y Hin). destruct (in_fleet (scene a) (x, y)).
    + reflexivity.
    + apply Z.eqb_neq, Hfree, Hin.
  - rewrite (fleet_on_board _ Hok), length_fleet_cells, HA, HB, HC, HS, HP.
    reflexivity.
Qed.

Lemma empty_board_cell x y : in_grid x y = true -> cell empty_board x y = EMPTY.
Proof.
  intros H. apply in_grid_spec in H. unfold cell, empty_board.
  assert (Hx : (Z.to_nat x < 10)%nat) by lia.
  assert (Hy : (Z.to_nat y < 10)%nat) by lia.
  rewrite (nth_indep _ [] (repeat EMPTY 10)) by (rewrite repeat_length; exact Hx).
  rewrite nth_repeat.
  rewrite (nth_indep _ 0 EMPTY) by (rewrite repeat_length; exact Hy).
  apply nth_repeat.
Qed.

Lemma complete_fleet_marks_sixteen_witness :
  exists a',
    UpdateButtonX app_with_fleet = Ok a' /\
    marked_cells (myBoard (scene a')) = 16%nat.
Proof.
  apply (complete_fleet_marks_sixteen app_with_fleet eq_refl eq_refl eq_refl
           eq_refl eq_refl eq_refl eq_refl empty_board_ok scene_with_fleet_ok).
  intros x y H. change (myBoard (scene app_with_fleet)) with empty_board.
  rewrite (empty_board_cell x y H). discriminate.
Defined.

Lemma received_damage_scene a a1 :
  received_damage a = Ok a1 ->
  myBoard (scene a1) = myBoard (scene a) /\
  numDamages (scene a1) = numDamages (scene a).
Proof.
  unfold received_damage.
  destruct (negb (fst (other_damage (server a)) =? -1)).
  - destruct (board_write _ _ _ _) as [b | f]; cbn [bind]; [| discriminate].
    intros H. injection H as <-. split; reflexivity.
  - intros H. injection H as <-. split; reflexivity.
Qed.

(** X21. The damages count the sunk cells.  Through a frame of
    [renderScene] the number of MARKED cells of myBoard and [numDamages]
    keep their sum: each damage counted turns one MARKED cell into
    SHOOTED, and nothing else touches either. *)
Theorem damages_count_sunk_cells
  (inp : tick_input) (head : mat4) (a a' : ExampleApp) :
  board_ok (myBoard (scene a)) ->
  0 <= numDamages (scene a) < INT_MAX ->
  renderScene_server inp head a = Ok a' ->
  Z.of_nat (marked_cells (myBoard (scene a'))) + numDamages (scene a') =
  Z.of_nat (marked_cells (myBoard (scene a))) + numDamages (scene a).
Proof.
  intros Hb Hn H.
  destruct (frame_steps inp head a a' H) as (srv & a1 & a2 & _ & E1 & E2 & ->).
  destruct (received_damage_scene a1 a2 E2) as [Hm2 Hd2].
  assert (Hs : scene (on_server (set_my_headPose head)
                        (if game_mode (server a2)
                         then set_playerMode MY a2 else a2)) = scene a2).
  { destruct (game_mode (server a2)); reflexivity. }
  rewrite Hs, Hm2, Hd2. clear Hs Hm2 Hd2 E2 a2 H.
  change (myBoard (scene a)) with (myBoard (scene (set_server srv a))) in Hb |- *.
  change (numDamages (scene a))
    with (numDamages (scene (set_server srv a))) in Hn |- *.
  destruct (received_attack_forms _ a1 Hb E1)
    as [-> | (b & Hg & Hbok & Hother & [(Hm & Hc & ->) | (Hm & Hc & ->)])].
  - reflexivity.
  - rewrite (marked_cells_sunk _ b _ _ Hg Hother Hm)
      by (rewrite Hc; discriminate).
    change (myBoard (scene (attack_hit b (set_server srv a)))) with b.
    change (numDamages (scene (attack_hit b (set_server srv a))))
      with (to_int (numDamages (scene (set_server srv a)) + 1)).
    rewrite to_int_small by lia. lia.
  - change (myBoard (scene (on_scene (set_myBoard b) (set_server srv a))))
      with b.
    change (numDamages (scene (on_scene (set_myBoard b) (set_server srv a))))
      with (numDamages (scene (set_server srv a))).
    f_equal. f_equal. apply marked_cells_same. intros x y Hxy.
    destruct (Z.eq_dec x (fst (other_attack (server (set_server srv a)))))
      as [-> | Nx];
      [destruct (Z.eq_dec y (snd (other_attack (server (set_server srv a)))))
         as [-> | Ny] |].
    + rewrite Hc. apply Z.eqb_neq in Hm. rewrite Hm. reflexivity.
    + rewrite Hother; [reflexivity | exact Hxy | intros [= E]; exact (Ny E)].
    + rewrite Hother; [reflexivity | exact Hxy | intros [= E _]; exact (Nx E)].
Qed.

Lemma damages_count_sunk_cells_witness :
  exists a',
    renderScene_server quiet_tick mat4_identity app_at_start = Ok a' /\
    Z.of_nat (marked_cells (myBoard (scene a'))) + numDamages (scene a') =
    Z.of_nat (marked_cells (myBoard (scene app_at_start)))
      + numDamages (scene app_at_start).
Proof.
  assert (Hn : 0 <= numDamages (scene app_at_start) < INT_MAX)
    by (unfold INT_MAX; cbn; lia).
  pose proof (quiet_frame_of_settled mat4_identity app_at_start
                app_at_start_settled) as Q.
  eexists. split; [exact Q |].
  exact (damages_count_sunk_cells quiet_tick mat4_identity app_at_start _
           empty_board_ok Hn Q).
Defined.

(** ** Moving the cursor *)

Lemma fleet_ok_cursor sc x :
  (fleet_ok sc -> fleet_ok (set_x_cord x sc)) /\
  (fleet_ok sc -> fleet_ok (set_y_cord x sc)).
Proof.
  split; intros [N A G]; constructor.
  - intros w. specialize (N w). destruct w; exact N.
  - intros w w' c. specialize (A w w' c). destruct w, w'; exact A.
  - intros w c. specialize (G w c). destruct w; exact G.
  - intros w. specialize (N w). destruct w; exact N.
  - intros w w' c. specialize (A w w' c). destruct w, w'; exact A.
  - intros w c. specialize (G w c). destruct w; exact G.
Qed.

Lemma ResetCurrentWarshipPosition_scene a :
  scene (ResetCurrentWarshipPosition a) = set_ship (warshipMode a) [] (scene a).
Proof. unfold ResetCurrentWarshipPosition. destruct (warshipMode a); reflexivity. Qed.

Lemma set_ship_keeps w v sc :
  x_cord (set_ship w v sc) = x_cord sc /\
  y_cord (set_ship w v sc) = y_cord sc /\
  myBoard (set_ship w v sc) = myBoard sc /\
  rivalBoard (set_ship w v sc) = rivalBoard sc.
Proof. destruct w; repeat split. Qed.

Ltac kept_same := split; [split; assumption | split; reflexivity].

Lemma trigger_left_index_kept p a :
  cursor_kept a -> cursor_kept (trigger_left_index p a) /\
  myBoard (scene (trigger_left_index p a)) = myBoard (scene a) /\
  rivalBoard (scene (trigger_left_index p a)) = rivalBoard (scene a).
Proof.
  intros [Hg Hok]. unfold trigger_left_index.
  destruct p; [| kept_same].
  destruct (triggerLeftIndexClicked a); cbn [negb];
    [kept_same |].
  cbv zeta. change (scene (set_triggerLeftIndexClicked true a)) with (scene a).
  destruct (Z.ltb_spec 0 (x_cord (scene a))); [| kept_same].
  unfold cursor_kept. rewrite ResetCurrentWarshipPosition_scene.
  destruct (set_ship_keeps
              (warshipMode (on_scene (fun sc => set_x_cord (x_cord sc - 1) sc)
                              (set_triggerLeftIndexClicked true a))) []
              (scene (on_scene (fun sc => set_x_cord (x_cord sc - 1) sc)
                        (set_triggerLeftIndexClicked true a))))
    as (-> & -> & -> & ->).
  apply in_grid_spec in Hg. split; [split | split; reflexivity].
  - apply in_grid_spec. cbn. lia.
  - apply fleet_ok_clear. cbn. apply fleet_ok_cursor, Hok.
Qed.

Lemma trigger_right_index_kept p a :
  cursor_kept a -> cursor_kept (trigger_right_index p a) /\
  myBoard (scene (trigger_right_index p a)) = myBoard (scene a) /\
  rivalBoard (scene (trigger_right_index p a)) = rivalBoard (scene a).
Proof.
  intros [Hg Hok]. unfold trigger_right_index.
  destruct p; [| kept_same].
  destruct (triggerRightIndexClicked a); cbn [negb];
    [kept_same |].
  cbv zeta. change (scene (set_triggerRightIndexClicked true a)) with (scene a).
  destruct (Z.ltb_spec (x_cord (scene a)) 9); [| kept_same].
  unfold cursor_kept. rewrite ResetCurrentWarshipPosition_scene.
  destruct (set_ship_keeps
              (warshipMode (on_scene (fun sc => set_x_cord (x_cord sc + 1) sc)
                              (set_triggerRightIndexClicked true a))) []
              (scene (on_scene (fun sc => set_x_cord (x_cord sc + 1) sc)
                        (set_triggerRightIndexClicked true a))))
    as (-> & -> & -> & ->).
  apply in_grid_spec in Hg. split; [split | split; reflexivity].
  - apply in_grid_spec. cbn. lia.
  - apply fleet_ok_clear. cbn. apply fleet_ok_cursor, Hok.
Qed.

Lemma trigger_left_middle_kept p a :
  cursor_kept a -> cursor_kept (trigger_left_middle p a) /\
  myBoard (scene (trigger_left_middle p a)) = myBoard (scene a) /\
  rivalBoard (scene (trigger_left_middle p a)) = rivalBoard (scene a).
Proof.
  intros [Hg Hok]. unfold trigger_left_middle.
  destruct p; [| kept_same].
  destruct (triggerLeftMiddleClicked a); cbn [negb];
    [kept_same |].
  cbv zeta. change (scene (set_triggerLeftMiddleClicked true a)) with (scene a).
  destruct (Z.ltb_spec 0 (y_cord (scene a))); [| kept_same].
  unfold cursor_kept. rewrite ResetCurrentWarshipPosition_scene.
  destruct (set_ship_keeps
              (warshipMode (on_scene (fun sc => set_y_cord (y_cord sc - 1) sc)
                              (set_triggerLeftMiddleClicked true a))) []
              (scene (on_scene (fun sc => set_y_cord (y_cord sc - 1) sc)
                        (set_triggerLeftMiddleClicked true a))))
    as (-> & -> & -> & ->).
  apply in_grid_spec in Hg. split; [split | split; reflexivity].
  - apply in_grid_spec. cbn. lia.
  - apply fleet_ok_clear. cbn. apply fleet_ok_cursor, Hok.
Qed.

Lemma trigger_right_middle_kept p a :
  cursor_kept a -> cursor_kept (trigger_right_middle p a) /\
  myBoard (scene (trigger_right_middle p a)) = myBoard (scene a) /\
  rivalBoard (scene (trigger_right_middle p a)) = rivalBoard (scene a).
Proof.
  intros [Hg Hok]. unfold trigger_right_middle.
  destruct p; [| kept_same].
  destruct (triggerRightMiddleClicked a); cbn [negb];
    [kept_same |].
  cbv zeta. change (scene (set_triggerRightMiddleClicked true a)) with (scene a).
  destruct (Z.ltb_spec (y_cord (scene a)) 9); [| kept_same].
  unfold cursor_kept. rewrite ResetCurrentWarshipPosition_scene.
  destruct (set_ship_keeps
              (warshipMode (on_scene (fun sc => set_y_cord (y_cord sc + 1) sc)
                              (set_triggerRightMiddleClicked true a))) []
              (scene (on_scene (fun sc => set_y_cord (y_cord sc + 1) sc)
                        (set_triggerRightMiddleClicked true a))))
    as (-> & -> & -> & ->).
  apply in_grid_spec in Hg. split; [split | split; reflexivity].
  - apply in_grid_spec. cbn. lia.
  - apply fleet_ok_clear. cbn. apply fleet_ok_cursor, Hok.
Qed.

Lemma prepare_triggers_kept a t :
  cursor_kept a -> cursor_kept (prepare_triggers a t) /\
  myBoard (scene (prepare_triggers a t)) = myBoard (scene a) /\
  rivalBoard (scene (prepare_triggers a t)) = rivalBoard (scene a).
Proof.
  intros H0. unfold prepare_triggers. cbv zeta.
  destruct (trigger_left_index_kept (left_index t) a H0) as (H1 & M1 & R1).
  destruct (trigger_right_index_kept (right_index t) _ H1) as (H2 & M2 & R2).
  destruct (trigger_left_middle_kept (left_middle t) _ H2) as (H3 & M3 & R3).
  destruct (trigger_right_middle_kept (right_middle t) _ H3) as (H4 & M4 & R4).
  split; [exact H4 |]. split; congruence.
Qed.

(** X22. The cursor stays on the board.  Whatever the triggers do over any
    number of frames of mode PREPARE, a cursor that is on the board stays
    on it and a fleet whose warships lie on the board and share no cell
    stays such a fleet; the boards are not touched. *)
Theorem cursor_stays_on_board (ts : list triggers) (a : ExampleApp) :
  in_grid (x_cord (scene a)) (y_cord (scene a)) = true ->
  fleet_ok (scene a) ->
  in_grid (x_cord (scene (fold_left prepare_triggers ts a)))
          (y_cord (scene (fold_left prepare_triggers ts a))) = true /\
  fleet_ok (scene (fold_left prepare_triggers ts a)) /\
  myBoard (scene (fold_left prepare_triggers ts a)) = myBoard (scene a) /\
  rivalBoard (scene (fold_left prepare_triggers ts a)) = rivalBoard (scene a).
Proof.
  revert a. induction ts as [| t ts IH]; intros a Hg Hok.
  - cbn [fold_left]. repeat (split; [assumption || reflexivity |]). reflexivity.
  - cbn [fold_left].
    destruct (prepare_triggers_kept a t (conj Hg Hok)) as ([Hg' Hok'] & M & R).
    destruct (IH _ Hg' Hok') as (G1 & G2 & G3 & G4).
    split; [exact G1 |]. split; [exact G2 |]. split; congruence.
Qed.

Lemma cursor_stays_on_board_witness :
  in_grid
    (x_cord (scene (fold_left prepare_triggers
                      [mkTriggers true false false true;
                       mkTriggers true false false true;
                       mkTriggers false true false false]
                      (set_scene scene_with_fleet app_at_start))))
    (y_cord (scene (fold_left prepare_triggers
                      [mkTriggers true false false true;
                       mkTriggers true false false true;
                       mkTriggers false true false false]
                      (set_scene scene_with_fleet app_at_start)))) = true.
Proof.
  exact (proj1 (cursor_stays_on_board _ (set_scene scene_with_fleet app_at_start)
                  eq_refl scene_with_fleet_ok)).
Defined.

Lemma ResetCurrentWarshipPosition_flags a :
  triggerLeftIndexClicked (ResetCurrentWarshipPosition a)
    = triggerLeftIndexClicked a /\
  triggerRightIndexClicked (ResetCurrentWarshipPosition a)
    = triggerRightIndexClicked a /\
  triggerLeftMiddleClicked (ResetCurrentWarshipPosition a)
    = triggerLeftMiddleClicked a /\
  triggerRightMiddleClicked (ResetCurrentWarshipPosition a)
    = triggerRightMiddleClicked a.
Proof.
  unfold ResetCurrentWarshipPosition.
  destruct (warshipMode a); repeat split.
Qed.

Ltac trigger_flags :=
  match goal with
  | |- context [ResetCurrentWarshipPosition ?b] =>
      destruct (ResetCurrentWarshipPosition_flags b) as (-> & -> & -> & ->)
  | _ => idtac
  end;
  cbn; repeat split; try reflexivity; try assumption.

Lemma trigger_left_index_flags p a :
  triggerLeftIndexClicked (trigger_left_index p a) = p /\
  triggerRightIndexClicked (trigger_left_index p a)
    = triggerRightIndexClicked a /\
  triggerLeftMiddleClicked (trigger_left_index p a)
    = triggerLeftMiddleClicked a /\
  triggerRightMiddleClicked (trigger_left_index p a)
    = triggerRightMiddleClicked a.
Proof.
  unfold trigger_left_index. destruct p; [| trigger_flags].
  destruct (triggerLeftIndexClicked a) eqn:E; cbn [negb]; [trigger_flags |].
  cbv zeta. destruct (0 <? x_cord (scene (set_triggerLeftIndexClicked true a)));
    trigger_flags.
Qed.

Lemma trigger_right_index_flags p a :
  triggerLeftIndexClicked (trigger_right_index p a)
    = triggerLeftIndexClicked a /\
  triggerRightIndexClicked (trigger_right_index p a) = p /\
  triggerLeftMiddleClicked (trigger_right_index p a)
    = triggerLeftMiddleClicked a /\
  triggerRightMiddleClicked (trigger_right_index p a)
    = triggerRightMiddleClicked a.
Proof.
  unfold trigger_right_index. destruct p; [| trigger_flags].
  destruct (triggerRightIndexClicked a) eqn:E; cbn [negb]; [trigger_flags |].
  cbv zeta. destruct (x_cord (scene (set_triggerRightIndexClicked true a)) <? 9);
    trigger_flags.
Qed.

Lemma trigger_left_middle_flags p a :
  triggerLeftIndexClicked (trigger_left_middle p a)
    = triggerLeftIndexClicked a /\
  triggerRightIndexClicked (trigger_left_middle p a)
    = triggerRightIndexClicked a /\
  triggerLeftMiddleClicked (trigger_left_middle p a) = p /\
  triggerRightMiddleClicked (trigger_left_middle p a)
    = triggerRightMiddleClicked a.
Proof.
  unfold trigger_left_middle. destruct p; [| trigger_flags].
  destruct (triggerLeftMiddleClicked a) eqn:E; cbn [negb]; [trigger_flags |].
  cbv zeta. destruct (0 <? y_cord (scene (set_triggerLeftMiddleClicked true a)));
    trigger_flags.
Qed.

Lemma trigger_right_middle_flags p a :
  triggerLeftIndexClicked (trigger_right_middle p a)
    = triggerLeftIndexClicked a /\
  triggerRightIndexClicked (trigger_right_middle p a)
    = triggerRightIndexClicked a /\
  triggerLeftMiddleClicked (trigger_right_middle p a)
    = triggerLeftMiddleClicked a /\
  triggerRightMiddleClicked (trigger_right_middle p a) = p.
Proof.
  unfold trigger_right_middle. destruct p; [| trigger_flags].
  destruct (triggerRightMiddleClicked a) eqn:E; cbn [negb]; [trigger_flags |].
  cbv zeta. destruct (y_cord (scene (set_triggerRightMiddleClicked true a)) <? 9);
    trigger_flags.
Qed.

Lemma trigger_left_index_held p a :
  triggerLeftIndexClicked a = p -> trigger_left_index p a = a.
Proof.
  unfold trigger_left_index. intros <-.
  destruct a as [? ? ? ? ? ? ? ? ? ? ? ? [] ? ? ? ?]; reflexivity.
Qed.

Lemma trigger_right_index_held p a :
  triggerRightIndexClicked a = p -> trigger_right_index p a = a.
Proof.
  unfold trigger_right_index. intros <-.
  destruct a as [? ? ? ? ? ? ? ? ? ? ? ? ? [] ? ? ?]; reflexivity.
Qed.

Lemma trigger_left_middle_held p a :
  triggerLeftMiddleClicked a = p -> trigger_left_middle p a = a.
Proof.
  unfold trigger_left_middle. intros <-.
  destruct a as [? ? ? ? ? ? ? ? ? ? ? ? ? ? [] ? ?]; reflexivity.
Qed.

Lemma trigger_right_middle_held p a :
  triggerRightMiddleClicked a = p -> trigger_right_middle p a = a.
Proof.
  unfold trigger_right_middle. intros <-.
  destruct a as [? ? ? ? ? ? ? ? ? ? ? ? ? ? ? [] ?]; reflexivity.
Qed.

(** X23. A held trigger moves the cursor once.  A frame of mode PREPARE
    in which the triggers are as they were in the frame before changes
    nothing: neither the cursor nor the warships move again until a
    trigger is released and pressed anew. *)
Theorem held_triggers_move_once (a : ExampleApp) (t : triggers) :
  prepare_triggers (prepare_triggers a t) t = prepare_triggers a t.
Proof.
  unfold prepare_triggers at 1. cbv zeta.
  set (a1 := prepare_triggers a t).
  assert (F : triggerLeftIndexClicked a1 = left_index t /\
              triggerRightIndexClicked a1 = right_index t /\
              triggerLeftMiddleClicked a1 = left_middle t /\
              triggerRightMiddleClicked a1 = right_middle t).
  { subst a1. unfold prepare_triggers. cbv zeta.
    destruct (trigger_left_index_flags (left_index t) a) as (A1 & _).
    destruct (trigger_right_index_flags (right_index t)
                (trigger_left_index (left_index t) a)) as (B1 & B2 & _).
    destruct (trigger_left_middle_flags (left_middle t)
                (trigger_right_index (right_index t)
                   (trigger_left_index (left_index t) a)))
      as (C1 & C2 & C3 & _).
    destruct (trigger_right_middle_flags (right_middle t)
                (trigger_left_middle (left_middle t)
                   (trigger_right_index (right_index t)
                      (trigger_left_index (left_index t) a))))
      as (D1 & D2 & D3 & D4).
    repeat split; congruence. }
  destruct F as (F1 & F2 & F3 & F4).
  rewrite (trigger_left_index_held _ a1 F1).
  rewrite (trigger_right_index_held _ a1 F2).
  rewrite (trigger_left_middle_held _ a1 F3).
  apply (trigger_right_middle_held _ a1 F4).
Qed.

(** ** Aiming *)

Lemma select_round_keeps closer sc i :
  rivalBoard (select_round closer sc i) = rivalBoard sc /\
  myBoard (select_round closer sc i) = myBoard sc.
Proof. unfold select_round. destruct (closer i); split; reflexivity. Qed.

Lemma select_rounds closer l :
  forall sc,
    rivalBoard (fold_left (select_round closer) l sc) = rivalBoard sc /\
    myBoard (fold_left (select_round closer) l sc) = myBoard sc /\
    ((In (selectedIdx (fold_left (select_round closer) l sc)) l /\
      exists i, In i l /\ closer i = true) \/
     (selectedIdx (fold_left (select_round closer) l sc) = selectedIdx sc /\
      forall i, In i l -> closer i = false)).
Proof.
  induction l as [| i l IH]; intros sc; cbn [fold_left].
  - split; [reflexivity |]. split; [reflexivity |]. right.
    split; [reflexivity | intros i []].
  - destruct (IH (select_round closer sc i)) as (R & M & S).
    destruct (select_round_keeps closer sc i) as [R' M'].
    split; [congruence |]. split; [congruence |].
    destruct S as [(Hin & j & Hj & Hc) | (Heq & Hnone)].
    + left. split; [right; exact Hin |]. exists j. split; [right |]; assumption.
    + destruct (closer i) eqn:Hc.
      * left. split.
        -- left. rewrite Heq. unfold select_round. rewrite Hc. reflexivity.
        -- exists i. split; [left; reflexivity | exact Hc].
      * right. split.
        -- rewrite Heq. unfold select_round. rewrite Hc. reflexivity.
        -- intros j [<- | Hj]; [exact Hc | apply Hnone, Hj].
Qed.

Lemma in_hundred i :
  In i (map Z.of_nat (seq 0 (Z.to_nat (GRID_SIZE * GRID_SIZE)))) <->
  0 <= i < 100.
Proof.
  change (Z.to_nat (GRID_SIZE * GRID_SIZE)) with 100%nat.
  rewrite in_map_iff. split.
  - intros (k & <- & Hk). apply in_seq in Hk. lia.
  - intros H. exists (Z.to_nat i). split; [lia |]. apply in_seq. lia.
Qed.

Lemma cursor_of_index i :
  INT_MIN <= i <= INT_MAX ->
  in_grid (to_int (to_uint i mod GRID_SIZE))
          (to_int (to_uint (to_int (i - to_int (to_uint i mod GRID_SIZE)))
                   / GRID_SIZE)) = true
  <-> 0 <= i < 100.
Proof.
  unfold INT_MIN, INT_MAX. intros Hi. rewrite in_grid_spec.
  unfold to_int, to_uint, UINT_MOD, INT_MAX, GRID_SIZE.
  repeat match goal with
         | |- context [?a <=? ?b] => destruct (Z.leb_spec a b)
         end;
    Z.div_mod_to_equations; lia.
Qed.

Lemma select_loop_spec closer sc :
  rivalBoard (select_loop closer sc) = rivalBoard sc /\
  myBoard (select_loop closer sc) = myBoard sc /\
  ((exists i, 0 <= i < 100 /\ closer i = true) ->
   0 <= selectedIdx (select_loop closer sc) < 100) /\
  ((forall i, 0 <= i < 100 -> closer i = false) ->
   selectedIdx (select_loop closer sc) = selectedIdx sc) /\
  (INT_MIN <= selectedIdx sc <= INT_MAX ->
   INT_MIN <= selectedIdx (select_loop closer sc) <= INT_MAX).
Proof.
  unfold select_loop.
  destruct (select_rounds closer
              (map Z.of_nat (seq 0 (Z.to_nat (GRID_SIZE * GRID_SIZE)))) sc)
    as (R & M & S).
  split; [exact R |]. split; [exact M |]. split; [| split].
  - intros (i & Hi & Hc). destruct S as [(Hin & _) | (_ & Hnone)].
    + apply in_hundred, Hin.
    + rewrite Hnone in Hc by (apply in_hundred, Hi). discriminate.
  - intros Hnone. destruct S as [(_ & i & Hi & Hc) | (Heq & _)].
    + rewrite Hnone in Hc by (apply in_hundred, Hi). discriminate.
    + exact Heq.
  - intros Hr. destruct S as [(Hin & _) | (Heq & _)].
    + apply in_hundred in Hin. unfold INT_MIN, INT_MAX. lia.
    + rewrite Heq. exact Hr.
Qed.

Lemma select_cell_cursor closer sc :
  INT_MIN <= selectedIdx sc <= INT_MAX ->
  rivalBoard (select_cell closer sc) = rivalBoard sc /\
  myBoard (select_cell closer sc) = myBoard sc /\
  (in_grid (x_cord (select_cell closer sc)) (y_cord (select_cell closer sc))
     = true <->
   0 <= selectedIdx (select_cell closer sc) < 100) /\
  ((exists i, 0 <= i < 100 /\ closer i = true) ->
   0 <= selectedIdx (select_cell closer sc) < 100) /\
  ((forall i, 0 <= i < 100 -> closer i = false) ->
   selectedIdx (select_cell closer sc) = selectedIdx sc).
Proof.
  intros Hr.
  destruct (select_loop_spec closer sc) as (R & M & Hsome & Hnone & Hrange).
  specialize (Hrange Hr).
  unfold select_cell. cbv zeta.
  set (sc1 := select_loop closer sc) in *. clearbody sc1.
  cbn. split; [exact R |]. split; [exact M |].
  split; [apply cursor_of_index, Hrange |]. split; assumption.
Qed.

Lemma UpdateButtonY_ends a :
  board_ok (rivalBoard (scene a)) ->
  (exists a', UpdateButtonY a = Ok a') <->
  in_grid (x_cord (scene a)) (y_cord (scene a)) = true.
Proof.
  intros Hb. unfold UpdateButtonY.
  destruct (in_grid (x_cord (scene a)) (y_cord (scene a))) eqn:Hg.
  - split; [reflexivity | intros _].
    rewrite board_read_cell by exact Hg. cbn [bind].
    destruct (_ && _).
    + cbv zeta.
      destruct (board_write_cell (rivalBoard (scene a)) (x_cord (scene a))
                  (y_cord (scene a)) MISSED Hb Hg) as (b' & Hw & _).
      cbn. cbn in Hw. rewrite Hw. cbn [bind]. eexists. reflexivity.
    + eexists. reflexivity.
  - rewrite board_read_outside by exact Hg. cbn [bind].
    split; [intros (a' & H); discriminate H | discriminate].
Qed.

(** X24. A shot aims at the board.  After the selection loop of
    [Scene::render] has taken a cell in at least one round, the cursor is
    on the board and UpdateButtonY ends in a state; when no round takes a
    cell the cursor comes from the selectedIdx left from before, whatever
    [int] it is, and UpdateButtonY ends in a state exactly when that index
    is one of the hundred cells, and otherwise indexes rivalBoard outside
    its bounds. *)
Theorem shot_aims_at_board (closer : Z -> bool) (a : ExampleApp) :
  board_ok (rivalBoard (scene a)) ->
  INT_MIN <= selectedIdx (scene a) <= INT_MAX ->
  ((exists i, 0 <= i < 100 /\ closer i = true) ->
   exists a', UpdateButtonY (on_scene (select_cell closer) a) = Ok a') /\
  ((forall i, 0 <= i < 100 -> closer i = false) ->
   (0 <= selectedIdx (scene a) < 100 ->
    exists a', UpdateButtonY (on_scene (select_cell closer) a) = Ok a') /\
   (~ 0 <= selectedIdx (scene a) < 100 ->
    UpdateButtonY (on_scene (select_cell closer) a) = Err OutOfBounds)).
Proof.
  intros Hb Hr.
  destruct (select_cell_cursor closer (scene a) Hr)
    as (R & _ & Hg & Hsome & Hnone).
  assert (Hb' : board_ok (rivalBoard (scene (on_scene (select_cell closer) a)))).
  { change (board_ok (rivalBoard (select_cell closer (scene a)))).
    rewrite R. exact Hb. }
  pose proof (UpdateButtonY_ends _ Hb') as Hends. cbn in Hends.
  split.
  - intros Hc. apply Hends, Hg, Hsome, Hc.
  - intros Hc. rewrite (Hnone Hc) in Hg. split.
    + intros Hi. apply Hends, Hg, Hi.
    + intros Hi. unfold UpdateButtonY. cbn.
      rewrite board_read_outside; [reflexivity |].
      destruct (in_grid _ _) eqn:E; [| reflexivity].
      exfalso. apply Hi, Hg. reflexivity.
Qed.

Lemma shot_aims_at_board_witness :
  exists a',
    UpdateButtonY (on_scene (select_cell (fun i => i =? 42)) app_at_start)
      = Ok a'.
Proof.
  assert (Hr : INT_MIN <= selectedIdx (scene app_at_start) <= INT_MAX)
    by (unfold INT_MIN, INT_MAX; cbn; lia).
  apply (proj1 (shot_aims_at_board (fun i => i =? 42) app_at_start
                  empty_board_ok Hr)).
  exists 42. split; [lia | reflexivity].
Defined.

(** ** A call of renderScene *)

Lemma incoming_kept_refl a : incoming_kept a a.
Proof. unfold incoming_kept. tauto. Qed.

Lemma incoming_kept_trans a b c :
  incoming_kept a b -> incoming_kept b c -> incoming_kept a c.
Proof.
  intros (A1 & A2 & A3) (B1 & B2 & B3).
  split; [congruence |]. split; [congruence |]. tauto.
Qed.

(** A step that leaves the server and both boards as they are. *)
Lemma incoming_kept_same a a' :
  server a' = server a ->
  myBoard (scene a') = myBoard (scene a) ->
  rivalBoard (scene a') = rivalBoard (scene a) ->
  incoming_kept a a'.
Proof.
  intros Hs Hm Hr. unfold incoming_kept. rewrite Hs, Hm, Hr. tauto.
Qed.

Lemma renderScene_modes_same a :
  server (renderScene_modes a) = server a /\
  myBoard (scene (renderScene_modes a)) = myBoard (scene a) /\
  rivalBoard (scene (renderScene_modes a)) = rivalBoard (scene a) /\
  my_board_matrices (scene (renderScene_modes a))
    = my_board_matrices (scene a) /\
  rival_board_matrices (scene (renderScene_modes a))
    = rival_board_matrices (scene a).
Proof.
  unfold renderScene_modes. cbv zeta.
  destruct (numHits (scene a) =? 16);
    match goal with
    | |- context [numDamages ?s =? 16] => destruct (numDamages s =? 16)
    end;
    match goal with
    | |- context [if ?c then _ else _] => destruct c
    end; repeat split.
Qed.

Lemma renderScene_modes_END a :
  gameMode a = END -> gameMode (renderScene_modes a) = END.
Proof.
  intros H. unfold renderScene_modes. cbv zeta.
  destruct (numHits (scene a) =? 16);
    match goal with
    | |- context [numDamages ?s =? 16] => destruct (numDamages s =? 16)
    end; cbn; rewrite ?H; cbn; rewrite ?andb_false_r; try reflexivity;
    exact H.
Qed.

Lemma ResetCurrentWarshipPosition_same a :
  server (ResetCurrentWarshipPosition a) = server a /\
  myBoard (scene (ResetCurrentWarshipPosition a)) = myBoard (scene a) /\
  rivalBoard (scene (ResetCurrentWarshipPosition a)) = rivalBoard (scene a).
Proof.
  unfold ResetCurrentWarshipPosition. destruct (warshipMode a); repeat split.
Qed.

Ltac trigger_same :=
  match goal with
  | |- context [ResetCurrentWarshipPosition ?b] =>
      destruct (ResetCurrentWarshipPosition_same b) as (-> & -> & ->)
  | _ => idtac
  end;
  repeat split.

Lemma prepare_triggers_same a t :
  server (prepare_triggers a t) = server a /\
  myBoard (scene (prepare_triggers a t)) = myBoard (scene a) /\
  rivalBoard (scene (prepare_triggers a t)) = rivalBoard (scene a).
Proof.
  assert (H1 : forall p b,
    server (trigger_left_index p b) = server b /\
    myBoard (scene (trigger_left_index p b)) = myBoard (scene b) /\
    rivalBoard (scene (trigger_left_index p b)) = rivalBoard (scene b)).
  { intros p b. unfold trigger_left_index.
    destruct p; [| trigger_same].
    destruct (triggerLeftIndexClicked b); cbn [negb]; [trigger_same |].
    cbv zeta.
    destruct (0 <? x_cord (scene (set_triggerLeftIndexClicked true b)));
      trigger_same. }
  assert (H2 : forall p b,
    server (trigger_right_index p b) = server b /\
    myBoard (scene (trigger_right_index p b)) = myBoard (scene b) /\
    rivalBoard (scene (trigger_right_index p b)) = rivalBoard (scene b)).
  { intros p b. unfold trigger_right_index.
    destruct p; [| trigger_same].
    destruct (triggerRightIndexClicked b); cbn [negb]; [trigger_same |].
    cbv zeta.
    destruct (x_cord (scene (set_triggerRightIndexClicked true b)) <? 9);
      trigger_same. }
  assert (H3 : forall p b,
    server (trigger_left_middle p b) = server b /\
    myBoard (scene (trigger_left_middle p b)) = myBoard (scene b) /\
    rivalBoard (scene (trigger_left_middle p b)) = rivalBoard (scene b)).
  { intros p b. unfold trigger_left_middle.
    destruct p; [| trigger_same].
    destruct (triggerLeftMiddleClicked b); cbn [negb]; [trigger_same |].
    cbv zeta.
    destruct (0 <? y_cord (scene (set_triggerLeftMiddleClicked true b)));
      trigger_same. }
  assert (H4 : forall p b,
    server (trigger_right_middle p b) = server b /\
    myBoard (scene (trigger_right_middle p b)) = myBoard (scene b) /\
    rivalBoard (scene (trigger_right_middle p b)) = rivalBoard (scene b)).
  { intros p b. unfold trigger_right_middle.
    destruct p; [| trigger_same].
    destruct (triggerRightMiddleClicked b); cbn [negb]; [trigger_same |].
    cbv zeta.
    destruct (y_cord (scene (set_triggerRightMiddleClicked true b)) <? 9);
      trigger_same. }
  unfold prepare_triggers. cbv zeta.
  destruct (H1 (left_index t) a) as (S1 & M1 & R1).
  destruct (H2 (right_index t) (trigger_left_index (left_index t) a))
    as (S2 & M2 & R2).
  destruct (H3 (left_middle t)
              (trigger_right_index (right_index t)
                 (trigger_left_index (left_index t) a))) as (S3 & M3 & R3).
  destruct (H4 (right_middle t)
              (trigger_left_middle (left_middle t)
                 (trigger_right_index (right_index t)
                    (trigger_left_index (left_index t) a))))
    as (S4 & M4 & R4).
  repeat split; congruence.
Qed.

Lemma but_ship_boards w sc :
  myBoard (but_ship w sc) = myBoard sc /\
  rivalBoard (but_ship w sc) = rivalBoard sc.
Proof. destruct w; split; reflexivity. Qed.

Lemma UpdateWarshipPosition_same a :
  server (UpdateWarshipPosition a) = server a /\
  myBoard (scene (UpdateWarshipPosition a)) = myBoard (scene a) /\
  rivalBoard (scene (UpdateWarshipPosition a)) = rivalBoard (scene a).
Proof.
  assert (H : forall d w n sc,
    myBoard (placeWarship d w n sc) = myBoard sc /\
    rivalBoard (placeWarship d w n sc) = rivalBoard sc).
  { intros d w n sc. pose proof (placeWarship_but_ship d w n sc) as E.
    destruct (but_ship_boards w (placeWarship d w n sc)) as [M R].
    destruct (but_ship_boards w sc) as [M' R'].
    rewrite <- M, <- R, E. split; assumption. }
  unfold UpdateWarshipPosition.
  destruct (warshipMode a); unfold on_scene; cbn;
    (split; [reflexivity | apply H]).
Qed.

Lemma UpdateButtonB_same a :
  server (UpdateButtonB a) = server a /\
  myBoard (scene (UpdateButtonB a)) = myBoard (scene a) /\
  rivalBoard (scene (UpdateButtonB a)) = rivalBoard (scene a).
Proof.
  unfold UpdateButtonB. cbv zeta.
  destruct (directionMode a);
    match goal with
    | |- context [UpdateWarshipPosition ?b] =>
        destruct (UpdateWarshipPosition_same b) as (-> & -> & ->)
    end; repeat split.
Qed.

Lemma UpdateButtonA_same draws a a' :
  UpdateButtonA draws a = Ok a' ->
  server a' = server a /\
  myBoard (scene a') = myBoard (scene a) /\
  rivalBoard (scene a') = rivalBoard (scene a).
Proof.
  unfold UpdateButtonA. cbv zeta.
  destruct (RandomNewPosition draws _) as [p | f]; cbn [bind]; [| discriminate].
  intros H. injection H as <-. destruct (warshipMode a); repeat split.
Qed.

Lemma UpdateButtonX_kept a a' :
  UpdateButtonX a = Ok a' -> incoming_kept a a'.
Proof.
  unfold UpdateButtonX.
  destruct (SelectingMode_eqb (selectingMode a) SELECTING
            && GameMode_eqb (gameMode a) PREPARE).
  2: { intros H. injection H as <-. apply incoming_kept_refl. }
  destruct ((length (ship_A (scene a)) =? 5)%nat
            && (length (ship_B (scene a)) =? 4)%nat
            && (length (ship_C (scene a)) =? 3)%nat
            && (length (ship_S (scene a)) =? 2)%nat
            && (length (ship_P (scene a)) =? 2)%nat).
  2: { intros H. injection H as <-. apply incoming_kept_same; reflexivity. }
  cbv zeta.
  change (scene (set_buttonAPressed false (set_selectingMode DONE a)))
    with (scene a).
  destruct (mark_fleet (scene a)) as [b | f] eqn:E; cbn [bind]; [| discriminate].
  intros H. injection H as <-. unfold incoming_kept. cbn.
  split; [reflexivity |]. split; [reflexivity |].
  intros [Hm Hr]. split; [| exact Hr].
  destruct (mark_fleet_result (scene a) Hm) as (b' & E' & Hb' & _).
  rewrite E in E'. injection E' as <-. exact Hb'.
Qed.

Lemma UpdateButtonY_kept a a' :
  UpdateButtonY a = Ok a' -> incoming_kept a a'.
Proof.
  unfold UpdateButtonY.
  destruct (in_grid (x_cord (scene a)) (y_cord (scene a))) eqn:Hg.
  2: { rewrite board_read_outside by exact Hg. discriminate. }
  rewrite board_read_cell by exact Hg. cbn [bind].
  destruct (_ && _).
  2: { intros H. injection H as <-. apply incoming_kept_refl. }
  cbv zeta. cbn.
  destruct (board_write (rivalBoard (scene a)) (x_cord (scene a))
              (y_cord (scene a)) MISSED) as [b | f] eqn:E; cbn [bind];
    [| discriminate].
  intros H. injection H as <-. unfold incoming_kept. cbn.
  split; [reflexivity |]. split; [reflexivity |].
  intros [Hm Hr]. split; [exact Hm |].
  destruct (board_write_cell (rivalBoard (scene a)) (x_cord (scene a))
              (y_cord (scene a)) MISSED Hr Hg) as (b' & E' & Hb' & _).
  rewrite E in E'. injection E' as <-. exact Hb'.
Qed.

Lemma renderScene_prepare_kept inp a a' :
  renderScene_prepare inp a = Ok a' -> incoming_kept a a'.
Proof.
  unfold renderScene_prepare.
  destruct (GameMode_eqb (gameMode a) PREPARE).
  2: { intros H. injection H as <-. apply incoming_kept_refl. }
  destruct (SelectingMode_eqb (selectingMode a) SELECTING).
  2: { intros H. injection H as <-. apply incoming_kept_refl. }
  destruct (in_prepare inp) as [c |].
  2: { intros H. injection H as <-. apply incoming_kept_refl. }
  cbv zeta.
  destruct (prepare_triggers_same a (trigger_state c)) as (S1 & M1 & R1).
  set (a1 := prepare_triggers a (trigger_state c)) in *.
  assert (K1 : incoming_kept a a1) by (apply incoming_kept_same; assumption).
  clearbody a1.
  destruct (press_A c (in_draws inp) a1) as [a2 | f] eqn:EA; cbn [bind];
    [| discriminate].
  assert (K2 : incoming_kept a1 a2).
  { unfold press_A in EA. destruct (button_A c).
    - destruct (buttonAPressed a1); cbn [negb] in EA.
      + injection EA as <-. apply incoming_kept_refl.
      + apply UpdateButtonA_same in EA. destruct EA as (S2 & M2 & R2).
        apply incoming_kept_same; assumption.
    - injection EA as <-. apply incoming_kept_same; reflexivity. }
  assert (K3 : incoming_kept a2 (press_B c a2)).
  { unfold press_B. destruct (button_B c).
    - destruct (buttonBPressed a2); cbn [negb].
      + apply incoming_kept_refl.
      + destruct (UpdateButtonB_same (set_buttonBPressed true a2))
          as (S3 & M3 & R3).
        apply incoming_kept_same; assumption.
    - apply incoming_kept_same; reflexivity. }
  set (a3 := press_B c a2) in *. clearbody a3.
  destruct (press_X c a3) as [a4 | f] eqn:EX; cbn [bind]; [| discriminate].
  assert (K4 : incoming_kept a3 a4).
  { unfold press_X in EX. destruct (button_X c).
    - destruct (buttonXPressed a3); cbn [negb] in EX.
      + injection EX as <-. apply incoming_kept_refl.
      + apply UpdateButtonX_kept in EX.
        apply (incoming_kept_trans _ (set_buttonXPressed true a3));
          [apply incoming_kept_same; reflexivity | exact EX].
    - injection EX as <-. apply incoming_kept_same; reflexivity. }
  intros H. injection H as <-.
  destruct (UpdateWarshipPosition_same a4) as (S5 & M5 & R5).
  apply (incoming_kept_trans _ a1); [exact K1 |].
  apply (incoming_kept_trans _ a2); [exact K2 |].
  apply (incoming_kept_trans _ a3); [exact K3 |].
  apply (incoming_kept_trans _ a4); [exact K4 |].
  apply incoming_kept_same; assumption.
Qed.

Lemma renderScene_warship_kept inp a :
  incoming_kept a (renderScene_warship inp a).
Proof.
  unfold renderScene_warship.
  destruct (_ || _); [| apply incoming_kept_refl].
  destruct (in_warship inp) as [c |]; [| apply incoming_kept_refl].
  destruct (button_A c); [apply incoming_kept_same; reflexivity |].
  destruct (buttonAPressed a);
    [apply incoming_kept_same; reflexivity | apply incoming_kept_refl].
Qed.

Lemma renderScene_on_kept inp a a' :
  renderScene_on inp a = Ok a' -> incoming_kept a a'.
Proof.
  unfold renderScene_on.
  destruct (GameMode_eqb (gameMode a) ON).
  2: { intros H. injection H as <-. apply incoming_kept_refl. }
  destruct (in_on inp) as [c |].
  2: { intros H. injection H as <-. apply incoming_kept_refl. }
  destruct (button_Y c).
  2: { intros H. injection H as <-. apply incoming_kept_same; reflexivity. }
  destruct (buttonYPressed a); cbn [negb].
  - intros H. injection H as <-. apply incoming_kept_refl.
  - intros H. apply UpdateButtonY_kept in H.
    apply (incoming_kept_trans _ (set_buttonYPressed true a));
      [apply incoming_kept_same; reflexivity | exact H].
Qed.

Lemma renderScene_end_kept near a a' :
  renderScene_end near a = Ok a' -> incoming_kept a a'.
Proof.
  unfold renderScene_end.
  destruct (GameMode_eqb (gameMode a) END).
  2: { intros H. injection H as <-. apply incoming_kept_refl. }
  destruct near.
  2: { intros H. injection H as <-. apply incoming_kept_refl. }
  destruct (reset (scene a)) as [sc |] eqn:E; cbn [bind]; [| discriminate].
  cbv zeta. intros H. injection H as <-. unfold incoming_kept. cbn.
  split; [reflexivity |]. split; [reflexivity |].
  intros [Hm Hr].
  destruct (reset_result (scene a) Hm Hr) as (sc' & E' & Hm' & Hr' & _).
  rewrite E in E'. injection E' as <-. split; assumption.
Qed.

Lemma select_cell_boards closer sc :
  myBoard (select_cell closer sc) = myBoard sc /\
  rivalBoard (select_cell closer sc) = rivalBoard sc.
Proof.
  destruct (select_loop_spec closer sc) as (R & M & _).
  unfold select_cell. cbv zeta.
  set (sc1 := select_loop closer sc) in *. clearbody sc1.
  cbn. split; assumption.
Qed.

Lemma render_on_result closer sc sc' :
  render_on closer sc = Ok sc' -> sc' = select_cell closer sc.
Proof.
  unfold render_on.
  set (r1 := fold_left (then_read (rival_board_matrices sc)) cell_indices
               (Ok tt)).
  clearbody r1. destruct r1 as [u |]; cbn [bind]; [| discriminate].
  cbv zeta.
  set (r2 := fold_left (render_on_cell (select_cell closer sc)) cell_indices
               (Ok tt)).
  clearbody r2. destruct r2 as [u' |]; cbn [bind]; [| discriminate].
  intros H. injection H as <-. reflexivity.
Qed.

Lemma Scene_render_kept closer a a' :
  Scene_render closer a = Ok a' -> incoming_kept a a'.
Proof.
  unfold Scene_render.
  set (r := render_prepare (scene a)). clearbody r.
  assert (E1 :
    (if GameMode_eqb (gameMode a) PREPARE
     then u <- r ;; Ok a else Ok a) = Ok a \/
    exists f, (if GameMode_eqb (gameMode a) PREPARE
               then u <- r ;; Ok a else Ok a) = Err f).
  { destruct (GameMode_eqb (gameMode a) PREPARE); [| left; reflexivity].
    destruct r as [u | f]; cbn [bind];
      [left; reflexivity | right; exists f; reflexivity]. }
  destruct E1 as [E1 | (f & E1)]; rewrite E1; cbn [bind]; [| discriminate].
  clear E1.
  destruct (GameMode_eqb (gameMode a) ON) eqn:Hon.
  - destruct (render_on closer (scene a)) as [sc |] eqn:Hq; cbn [bind];
      [| discriminate].
    apply render_on_result in Hq.
    destruct (select_cell_boards closer (scene a)) as [M R].
    assert (K : incoming_kept a (set_scene sc a)).
    { apply incoming_kept_same; cbn; rewrite ?Hq; auto. }
    change (gameMode (set_scene sc a)) with (gameMode a).
    destruct (GameMode_eqb (gameMode a) END) eqn:Hend.
    + destruct (gameMode a); discriminate.
    + intros H. injection H as <-. exact K.
  - cbn [bind]. destruct (GameMode_eqb (gameMode a) END).
    + destruct (resultMode a); intros H; injection H as <-;
        apply incoming_kept_same; reflexivity.
    + intros H. injection H as <-. apply incoming_kept_refl.
Qed.

Lemma renderScene_head_kept inp a a' :
  renderScene_head inp a = Ok a' -> incoming_kept a a'.
Proof.
  unfold renderScene_head. cbv zeta.
  destruct (renderScene_modes_same a) as (S0 & M0 & R0 & _).
  assert (K0 : incoming_kept a (renderScene_modes a))
    by (apply incoming_kept_same; assumption).
  set (a0 := renderScene_modes a) in *. clearbody a0.
  destruct (renderScene_prepare inp a0) as [a1 |] eqn:E1; cbn [bind];
    [| discriminate].
  apply renderScene_prepare_kept in E1.
  pose proof (renderScene_warship_kept inp a1) as K2.
  set (a2 := renderScene_warship inp a1) in *. clearbody a2.
  destruct (renderScene_on inp a2) as [a3 |] eqn:E3; cbn [bind];
    [| discriminate].
  apply renderScene_on_kept in E3.
  destruct (renderScene_end (in_near inp) a3) as [a4 |] eqn:E4; cbn [bind];
    [| discriminate].
  apply renderScene_end_kept in E4.
  intros E5. apply Scene_render_kept in E5.
  apply (incoming_kept_trans _ a0); [exact K0 |].
  apply (incoming_kept_trans _ a1); [exact E1 |].
  apply (incoming_kept_trans _ a2); [exact K2 |].
  apply (incoming_kept_trans _ a3); [exact E3 |].
  apply (incoming_kept_trans _ a4); assumption.
Qed.

Lemma received_damage_server a a1 :
  received_damage a = Ok a1 ->
  other_attack (server a1) = other_attack (server a) /\
  my_damage (server a1) = my_damage (server a).
Proof.
  unfold received_damage.
  destruct (negb (fst (other_damage (server a)) =? -1)).
  - destruct (board_write _ _ _ _) as [b | f]; cbn [bind]; [| discriminate].
    intros H. injection H as <-. split; reflexivity.
  - intros H. injection H as <-. split; reflexivity.
Qed.

(** The part of [renderScene] from [server->update()] on, when nothing
    arrives and an attack is pending. *)
Lemma pending_attack_tail head a a' x y :
  board_ok (myBoard (scene a)) ->
  other_attack (server a) = (x, y) ->
  x <> -1 ->
  renderScene_server quiet_tick head a = Ok a' ->
  in_grid x y = true /\
  ((cell (myBoard (scene a)) x y = MARKED /\
    cell (myBoard (scene a')) x y = SHOOTED /\
    numDamages (scene a') = to_int (numDamages (scene a) + 1) /\
    other_attack (server a') = (-1, -1) /\
    my_damage (server a') = (x, y)) \/
   (cell (myBoard (scene a)) x y <> MARKED /\
    cell (myBoard (scene a')) x y = MISSED /\
    numDamages (scene a') = numDamages (scene a) /\
    other_attack (server a') = (x, y))).
Proof.
  intros Hb Ha Hx. unfold renderScene_server.
  rewrite update_quiet. cbn [of_result bind]. cbv zeta.
  rewrite set_server_same.
  assert (Hx' : fst (other_attack (server a)) <> -1) by (rewrite Ha; exact Hx).
  destruct (in_grid x y) eqn:Hg.
  2: { rewrite received_attack_outside;
         [discriminate | exact Hx' | rewrite Ha; exact Hg]. }
  assert (Hg' : in_grid (fst (other_attack (server a)))
                        (snd (other_attack (server a))) = true)
    by (rewrite Ha; exact Hg).
  destruct (received_attack_inside a Hx' Hg' Hb) as (b & Hw & E).
  rewrite E. cbn [bind]. clear E. rewrite Ha in Hw. cbn [fst snd] in Hw.
  rewrite Ha. cbn [fst snd].
  destruct (board_write_cell (myBoard (scene a)) x y
              (if cell (myBoard (scene a)) x y =? MARKED
               then SHOOTED else MISSED) Hb Hg) as (b' & Hw' & _ & Hc & _).
  rewrite Hw in Hw'. injection Hw' as <-.
  assert (Hs : forall (a3 : ExampleApp),
    scene (on_server (set_my_headPose head)
             (if game_mode (server a3) then set_playerMode MY a3 else a3))
      = scene a3 /\
    other_attack (server (on_server (set_my_headPose head)
             (if game_mode (server a3) then set_playerMode MY a3 else a3)))
      = other_attack (server a3) /\
    my_damage (server (on_server (set_my_headPose head)
             (if game_mode (server a3) then set_playerMode MY a3 else a3)))
      = my_damage (server a3)).
  { intros a3. destruct (game_mode (server a3)); repeat split. }
  destruct (Z.eqb_spec (cell (myBoard (scene a)) x y) MARKED) as [Em | Nm].
  - destruct (received_damage (attack_hit b a)) as [a2 |] eqn:E2;
      cbn [bind]; [| discriminate].
    destruct (received_damage_scene _ _ E2) as [M2 N2].
    destruct (received_damage_server _ _ E2) as [A2 D2].
    intros H. injection H as <-. split; [reflexivity |]. left.
    split; [exact Em |].
    destruct (Hs a2) as (-> & -> & ->). rewrite M2, N2, A2, D2.
    cbn. rewrite Ha. repeat split. exact Hc.
  - destruct (received_damage (on_scene (set_myBoard b) a)) as [a2 |] eqn:E2;
      cbn [bind]; [| discriminate].
    destruct (received_damage_scene _ _ E2) as [M2 N2].
    destruct (received_damage_server _ _ E2) as [A2 _].
    intros H. injection H as <-. split; [reflexivity |]. right.
    split; [exact Nm |].
    destruct (Hs a2) as (-> & -> & _). rewrite M2, N2, A2.
    cbn. split; [exact Hc |]. split; [reflexivity | exact Ha].
Qed.

(** X13. A pending attack is applied by every call.  An attack that missed
    stays in other_attack, and the part of [renderScene] before
    [server->update()] never touches it.  So in a call in which nothing
    arrives, the attack pending at its start is applied once more, to
    myBoard as the first part of the call has left it: a cell that is
    MARKED by then (button X may have confirmed the fleet in this very
    call) becomes SHOOTED and is counted and reported as a damage, any
    other cell becomes MISSED and the attack stays pending. *)
Theorem pending_attack_applied_again
  (inp : frame_input) (a a' : ExampleApp) (x y : Z) :
  board_ok (myBoard (scene a)) ->
  board_ok (rivalBoard (scene a)) ->
  in_tick inp = quiet_tick ->
  other_attack (server a) = (x, y) ->
  x <> -1 ->
  renderScene inp a = Ok a' ->
  exists ah,
    renderScene_head inp a = Ok ah /\
    other_attack (server ah) = (x, y) /\
    in_grid x y = true /\
    ((cell (myBoard (scene ah)) x y = MARKED /\
      cell (myBoard (scene a')) x y = SHOOTED /\
      numDamages (scene a') = to_int (numDamages (scene ah) + 1) /\
      other_attack (server a') = (-1, -1) /\
      my_damage (server a') = (x, y)) \/
     (cell (myBoard (scene ah)) x y <> MARKED /\
      cell (myBoard (scene a')) x y = MISSED /\
      numDamages (scene a') = numDamages (scene ah) /\
      other_attack (server a') = (x, y))).
Proof.
  intros Hm Hr Hq Ha Hx. unfold renderScene.
  destruct (renderScene_head inp a) as [ah |] eqn:Eh; cbn [bind];
    [| discriminate].
  destruct (renderScene_head_kept inp a ah Eh) as (Ka & _ & Kb).
  destruct (Kb (conj Hm Hr)) as [Hm' _].
  rewrite Hq. intros Et. rewrite Ha in Ka.
  destruct (pending_attack_tail _ ah a' x y Hm' Ka Hx Et) as [Hg Hcases].
  exists ah. split; [reflexivity |]. split; [exact Ka |].
  split; [exact Hg | exact Hcases].
Qed.

Lemma board_missed_0_4_ok : board_ok board_missed_0_4.
Proof. split; [reflexivity | repeat constructor]. Qed.

(** The call [confirm_input] in the state [app_pending], run. *)
Lemma confirm_call_runs :
  match renderScene confirm_input app_pending with
  | Ok a' =>
      Some (cell (myBoard (scene a')) 0 4, numDamages (scene a'),
            my_damage (server a'), selectingMode a')
  | Err _ => None
  end = Some (SHOOTED, 1, (0, 4), DONE).
Proof. by_running. Qed.

Lemma pending_attack_applied_again_witness :
  cell (myBoard (scene app_pending)) 0 4 = MISSED /\
  numDamages (scene app_pending) = 0 /\
  exists a',
    renderScene confirm_input app_pending = Ok a' /\
    cell (myBoard (scene a')) 0 4 = SHOOTED /\
    numDamages (scene a') = 1 /\
    other_attack (server a') = (-1, -1).
Proof.
  split; [reflexivity |]. split; [reflexivity |].
  pose proof confirm_call_runs as R.
  destruct (renderScene confirm_input app_pending) as [a' |] eqn:E;
    [| discriminate R].
  injection R as Rc Rn _ _.
  exists a'. split; [reflexivity |]. split; [exact Rc |]. split; [exact Rn |].
  destruct (pending_attack_applied_again confirm_input app_pending a' 0 4
              board_missed_0_4_ok empty_board_ok eq_refl eq_refl
              ltac:(discriminate) E)
    as (ah & _ & _ & _ & [(_ & _ & _ & Ho & _) | (_ & Hc & _)]).
  - exact Ho.
  - rewrite Rc in Hc. discriminate Hc.
Defined.

(** ** Starting over *)

Lemma reset_vectors sc sc' :
  reset sc = Ok sc' ->
  my_board_matrices sc' = [] /\ rival_board_matrices sc' = [] /\
  my_board_positions sc' = [] /\ rival_board_positions sc' = [].
Proof.
  unfold reset. cbv zeta.
  destruct (reset_boards _ _) as [bs |]; cbn [bind]; [| discriminate].
  intros H. injection H as <-. repeat split.
Qed.

Lemma render_prepare_cleared sc :
  rival_board_matrices sc = [] -> render_prepare sc = Err OutOfBounds.
Proof. intros H. unfold render_prepare. rewrite H. reflexivity. Qed.

Lemma then_reads_end {A : Type} (v : list A) (l : list Z) :
  Forall (fun i => 0 <= i < Z.of_nat (length v)) l ->
  fold_left (then_read v) l (Ok tt) = Ok tt.
Proof.
  induction 1 as [| i l Hi _ IH]; [reflexivity |].
  cbn [fold_left]. unfold then_read at 2. cbn [bind]. unfold vector_read.
  destruct (nth_error v (Z.to_nat i)) eqn:E.
  - cbn [bind]. exact IH.
  - apply nth_error_None in E. lia.
Qed.

Lemma in_cell_indices i : In i cell_indices <-> 0 <= i < 100.
Proof. apply in_hundred. Qed.

(** With the vectors as the constructor leaves them the rendering of mode
    PREPARE reads inside them. *)
Lemma render_prepare_ends sc :
  length (my_board_matrices sc) = 100%nat ->
  length (rival_board_matrices sc) = 100%nat ->
  render_prepare sc = Ok tt.
Proof.
  intros Hm Hr. unfold render_prepare, vector_read.
  destruct (nth_error (rival_board_matrices sc) (Z.to_nat 0)) eqn:E.
  2: { apply nth_error_None in E. rewrite Hr in E. cbn in E. lia. }
  cbn [bind]. apply then_reads_end. apply Forall_forall.
  intros i Hi. apply in_cell_indices in Hi. lia.
Qed.

Lemma renderScene_end_cleared a a1 :
  gameMode a = END ->
  renderScene_end true a = Ok a1 ->
  my_board_matrices (scene a1) = [] /\ rival_board_matrices (scene a1) = [].
Proof.
  intros Hg. unfold renderScene_end. rewrite Hg. cbn [GameMode_eqb].
  destruct (reset (scene a)) as [sc |] eqn:Er; cbn [bind]; [| discriminate].
  destruct (reset_vectors _ _ Er) as (V1 & V2 & _).
  cbv zeta. intros H. injection H as <-. split; assumption.
Qed.

Lemma Scene_render_cleared closer a :
  gameMode a = PREPARE ->
  rival_board_matrices (scene a) = [] ->
  Scene_render closer a = Err OutOfBounds.
Proof.
  intros Hp V. unfold Scene_render. rewrite Hp. cbn [GameMode_eqb].
  rewrite (render_prepare_cleared _ V). reflexivity.
Qed.

(** A call that finds the game ended comes to the block
    [if (gameMode == END)] in the state the three tests at its start
    leave. *)
Lemma renderScene_ended inp a :
  gameMode a = END ->
  renderScene inp a =
    (a1 <- renderScene_end (in_near inp) (renderScene_modes a) ;;
     a2 <- Scene_render (in_closer inp) a1 ;;
     renderScene_server (in_tick inp) (in_HeadPose inp) a2).
Proof.
  intros Hg. pose proof (renderScene_modes_END a Hg) as Hg0.
  unfold renderScene, renderScene_head. cbv zeta.
  set (a0 := renderScene_modes a) in *. clearbody a0.
  assert (E2 : renderScene_prepare inp a0 = Ok a0).
  { unfold renderScene_prepare. rewrite Hg0. reflexivity. }
  assert (E3 : renderScene_warship inp a0 = a0).
  { unfold renderScene_warship. rewrite Hg0. reflexivity. }
  assert (E4 : renderScene_on inp a0 = Ok a0).
  { unfold renderScene_on. rewrite Hg0. reflexivity. }
  rewrite E2. cbn [bind]. rewrite E3, E4. cbn [bind].
  destruct (renderScene_end (in_near inp) a0) as [a1 |]; cbn [bind];
    reflexivity.
Qed.

(** X15. Starting over empties the vectors the rendering reads.  In a
    call of [renderScene] that finds the game ended and the hand on the
    sculpture, [scene->reset()] clears the vectors of board matrices,
    which only the constructor fills, and sets the mode to PREPARE; the
    [scene->render] of the same call then reads [rival_board_matrices[0]]
    of the empty vector, so the call ends in an access outside it, while
    the same rendering reads inside vectors of a hundred matrices. *)
Theorem restart_reads_cleared_vectors (inp : frame_input) (a : ExampleApp) :
  gameMode a = END ->
  in_near inp = true ->
  board_ok (myBoard (scene a)) ->
  board_ok (rivalBoard (scene a)) ->
  (length (my_board_matrices (scene a)) = 100%nat ->
   length (rival_board_matrices (scene a)) = 100%nat ->
   render_prepare (scene a) = Ok tt) /\
  (exists a1,
     renderScene_end true (renderScene_modes a) = Ok a1 /\
     gameMode a1 = PREPARE /\
     my_board_matrices (scene a1) = [] /\
     rival_board_matrices (scene a1) = [] /\
     Scene_render (in_closer inp) a1 = Err OutOfBounds) /\
  renderScene inp a = Err OutOfBounds.
Proof.
  intros Hg Hn Hm Hr. split; [apply render_prepare_ends |].
  rewrite (renderScene_ended inp a Hg), Hn.
  pose proof (renderScene_modes_END a Hg) as Hg0.
  destruct (renderScene_modes_same a) as (_ & M0 & R0 & _).
  rewrite <- M0 in Hm. rewrite <- R0 in Hr.
  destruct (renderScene_end_restarts _ Hg0 Hm Hr) as (a1 & E1 & _ & Hp & _).
  destruct (renderScene_end_cleared _ a1 Hg0 E1) as [V1 V2].
  pose proof (Scene_render_cleared (in_closer inp) a1 Hp V2) as Hrender.
  split.
  - exists a1. repeat (split; [assumption |]). exact Hrender.
  - rewrite E1. cbn [bind]. rewrite Hrender. reflexivity.
Qed.

Lemma restart_reads_cleared_vectors_witness :
  render_prepare (scene app_at_end) = Ok tt /\
  renderScene restart_input app_at_end = Err OutOfBounds.
Proof.
  destruct (restart_reads_cleared_vectors restart_input app_at_end
              eq_refl eq_refl empty_board_ok empty_board_ok)
    as (Hbefore & _ & Hcall).
  split; [apply Hbefore; reflexivity | exact Hcall].
Defined.
